(** * Verification of the TMDb synchronisation layer

    A shallow embedding of [movies/models.py], [movies/services.py]
    ([TMDbService]) and of the [movies_by_genre] view of [movies/views.py].

    Python values received from the provider are JSON values; the service is
    stateful (relational store, cache, remote provider, log) and fallible
    (Python exceptions), so it is written in a state-and-exception monad over
    a [World].  Effects performed before an exception is raised stay in the
    world, as they do under Django's autocommit.

    Conventions: a float is the rational it denotes; a str is a string of
    code points below 256; the tables are lists of rows in insertion order;
    the [created_at] and [updated_at] columns, which no operation reads, are
    left out; settings, string parsers of the standard library and the
    limits of the database backend are fields of a [Platform]. *)

From Stdlib Require Import ZArith QArith List String Ascii Bool Lia.
From Stdlib Require Import Permutation Sorted DecimalString.
Import ListNotations.

Local Open Scope string_scope.
Local Open Scope Z_scope.
Local Open Scope list_scope.

Set Implicit Arguments.
Local Set Warnings "-register-all".

(* ------------------------------------------------------------------ *)
(** ** JSON values and the Python operations the service applies to them *)

Inductive json : Type :=
| JNull
| JBool (b : bool)
| JInt (z : Z)
| JFloat (q : Q)        (* a finite float, as the rational it denotes *)
| JStr (s : string)
| JList (l : list json)
| JObj (o : list (string * json)).

Definition dict := list (string * json).

(** Python exception classes that the modelled code can raise. *)
Inductive exn : Type :=
| KeyError | TypeError | AttributeError | ValueError | OverflowError
| IntegrityError | DataError | DatabaseError
| GenreDoesNotExist | MultipleObjectsReturned
| RequestException.

Inductive Res (A : Type) : Type :=
| Ok (a : A)
| Raise (e : exn).
Arguments Ok {A} a.
Arguments Raise {A} e.

(** [bool(v)] *)
Definition truthy (v : json) : bool :=
  match v with
  | JNull => false
  | JBool b => b
  | JInt z => negb (z =? 0)
  | JFloat q => negb (Qnum q =? 0)
  | JStr s => negb (s =? "")%string
  | JList l => match l with [] => false | _ => true end
  | JObj o => match o with [] => false | _ => true end
  end.

Fixpoint dict_lookup (k : string) (o : dict) : option json :=
  match o with
  | [] => None
  | (k', v) :: o' => if (k' =? k)%string then Some v else dict_lookup k o'
  end.

(** [d.get(k, default)]: only dicts have [get]. *)
Definition py_get (d : json) (k : string) (default : json) : Res json :=
  match d with
  | JObj o => match dict_lookup k o with Some v => Ok v | None => Ok default end
  | _ => Raise AttributeError
  end.

(** [d[k]] for a string key [k]. *)
Definition py_getitem (d : json) (k : string) : Res json :=
  match d with
  | JObj o => match dict_lookup k o with Some v => Ok v | None => Raise KeyError end
  | _ => Raise TypeError
  end.

Fixpoint is_substring (k s : string) : bool :=
  String.prefix k s ||
  match s with
  | EmptyString => false
  | String _ s' => is_substring k s'
  end.

Definition is_str_eq (k : string) (v : json) : bool :=
  match v with JStr s => (s =? k)%string | _ => false end.

(** [k in d] for a string [k]. *)
Definition py_contains (k : string) (d : json) : Res bool :=
  match d with
  | JObj o => Ok (match dict_lookup k o with Some _ => true | None => false end)
  | JList l => Ok (existsb (is_str_eq k) l)
  | JStr s => Ok (is_substring k s)
  | _ => Raise TypeError
  end.

(** [iter(v)]: the sequence a [for] loop over [v] visits. *)
Definition py_iter (v : json) : Res (list json) :=
  match v with
  | JList l => Ok l
  | JObj o => Ok (map (fun kv => JStr (fst kv)) o)
  | JStr s => Ok (map (fun c => JStr (String c EmptyString)) (list_ascii_of_string s))
  | _ => Raise TypeError
  end.

(** Whitespace as [str.isspace] sees it, on code points below 256. *)
Definition is_space (c : ascii) : bool :=
  let n := nat_of_ascii c in
  ((9 <=? n) && (n <=? 13) || (28 <=? n) && (n <=? 32)
   || (n =? 133) || (n =? 160))%nat.

Fixpoint lstrip (s : string) : string :=
  match s with
  | EmptyString => EmptyString
  | String c s' => if is_space c then lstrip s' else s
  end.

Fixpoint rstrip (s : string) : string :=
  match s with
  | EmptyString => EmptyString
  | String c s' =>
      match rstrip s' with
      | EmptyString => if is_space c then EmptyString else String c EmptyString
      | r => String c r
      end
  end.

(** [s.strip()] *)
Definition strip (s : string) : string := rstrip (lstrip s).

(** [str(z)] for an int. *)
Definition str_of_Z (z : Z) : string := NilZero.string_of_int (Z.to_int z).

(* ------------------------------------------------------------------ *)
(** ** models.py

    One record per model, with the surrogate key [id] that Django adds. *)

Record date : Type := { year : Z; month : Z; day : Z }.

Module Genre.
Record t : Type := {
  id : Z;                 (* surrogate primary key *)
  tmdb_id : Z;            (* IntegerField(unique=True) *)
  name : string           (* CharField(max_length=100) *)
}.
End Genre.

Module Movie.
Record t : Type := {
  id : Z;                         (* surrogate primary key *)
  tmdb_id : Z;                    (* IntegerField(unique=True) *)
  title : string;                 (* CharField(max_length=200) *)
  overview : string;              (* TextField(blank=True) *)
  release_date : option date;     (* DateField(null=True) *)
  vote_average : Q;               (* FloatField *)
  popularity : Q;                 (* FloatField *)
  poster_path : string;           (* CharField(max_length=200, blank=True) *)
  backdrop_path : string          (* CharField(max_length=200, blank=True) *)
}.

(** [validators=[MinValueValidator(0.0), MaxValueValidator(10.0)]] of
    [vote_average]; Django runs field validators in [full_clean], which
    neither [save] nor [update_or_create] calls. *)
Definition vote_average_valid (m : t) : bool :=
  Qle_bool 0 (vote_average m) && Qle_bool (vote_average m) 10.
End Movie.

Module MovieGenre.
Record t : Type := {
  id : Z;
  movie_id : Z;           (* ForeignKey(Movie) *)
  genre_id : Z            (* ForeignKey(Genre) *)
}.
End MovieGenre.

(* ------------------------------------------------------------------ *)
(** ** The world: settings, library behaviour, store, cache, provider *)

(** What [requests.get] can come back with. *)
Inductive http_outcome : Type :=
| Timeout
| ConnectionError
| Response (status_code : Z) (body : option json).
        (* [body = None]: the body is not JSON *)

(** Django settings and the behaviour of library functions and of the
    database backend that the repository does not fix. *)
Record Platform : Type := {
  TMDB_API_KEY : string;
  TMDB_BASE_URL : string;
  CACHE_TIMEOUT_GENRES : Z;
  CACHE_TIMEOUT_TRENDING_MOVIES : Z;
  CACHE_TIMEOUT_POPULAR_MOVIES : Z;
  CACHE_TIMEOUT_MOVIE_DETAILS : Z;
  (* [datetime.strptime(s, '%Y-%m-%d').date()]; [None] is [ValueError] *)
  strptime_ymd : string -> option date;
  (* [float(s)] and [int(s)] on a str; [None] is [ValueError] *)
  float_of_str : string -> option Q;
  int_of_str : string -> option Z;
  (* [float(n)] on an int: the nearest double; [None] is [OverflowError] *)
  float_of_int : Z -> option Q;
  (* [str(v)] on a value that is not a str *)
  py_str : json -> string;
  (* is the [JSONDecodeError] of [response.json()] a [RequestException]
     (requests from 2.27 on) or a plain [ValueError] (before)? *)
  json_error_is_request_exception : bool;
  (* does the backend accept this integer / this string in a varchar(n)? *)
  db_int_ok : Z -> bool;
  db_varchar_ok : nat -> string -> bool;
  (* does the backend accept this string in a text column, this number in
     a float column? *)
  db_text_ok : string -> bool;
  db_float_ok : Q -> bool;
  (* [name__iexact]: does the backend take the two names for the same,
     case apart? *)
  db_iexact : string -> string -> bool;
  (* does the backend accept this OFFSET?  A query with one it does not
     accept raises *)
  db_offset_ok : Z -> bool;
  (* the order in which the query with this OFFSET returns two movies of
     equal popularity: ORDER BY leaves it to the backend *)
  db_tie : Z -> Movie.t -> Movie.t -> bool;
  (* ORDER BY name on genres: the comparison of the backend's collation *)
  db_name_leb : Genre.t -> Genre.t -> bool
}.

Inductive event : Type :=
| CacheGet (key : string)
| CacheSet (key : string) (ttl : Z)
| HttpGet (url : string) (params : dict)
| LogError.

Record World : Type := {
  movies : list Movie.t;
  next_movie_id : Z;
  genres : list Genre.t;
  next_genre_id : Z;
  movie_genres : list MovieGenre.t;
  next_movie_genre_id : Z;
  cache : list (string * json);
  (* the answer of the provider to the n-th request made so far *)
  provider : nat -> string -> dict -> http_outcome;
  requests_made : nat;
  trace : list event
}.

Definition set_movies (w : World) (ms : list Movie.t) (n : Z) : World :=
  {| movies := ms; next_movie_id := n;
     genres := genres w; next_genre_id := next_genre_id w;
     movie_genres := movie_genres w;
     next_movie_genre_id := next_movie_genre_id w;
     cache := cache w; provider := provider w;
     requests_made := requests_made w; trace := trace w |}.

Definition set_genres (w : World) (gs : list Genre.t) (n : Z) : World :=
  {| movies := movies w; next_movie_id := next_movie_id w;
     genres := gs; next_genre_id := n;
     movie_genres := movie_genres w;
     next_movie_genre_id := next_movie_genre_id w;
     cache := cache w; provider := provider w;
     requests_made := requests_made w; trace := trace w |}.

Definition set_movie_genres (w : World) (ls : list MovieGenre.t) (n : Z) : World :=
  {| movies := movies w; next_movie_id := next_movie_id w;
     genres := genres w; next_genre_id := next_genre_id w;
     movie_genres := ls; next_movie_genre_id := n;
     cache := cache w; provider := provider w;
     requests_made := requests_made w; trace := trace w |}.

(** Everything outside the three tables: cache, request counter, trace. *)
Definition set_ambient (w : World) (c : list (string * json)) (n : nat)
    (t : list event) : World :=
  {| movies := movies w; next_movie_id := next_movie_id w;
     genres := genres w; next_genre_id := next_genre_id w;
     movie_genres := movie_genres w;
     next_movie_genre_id := next_movie_genre_id w;
     cache := c; provider := provider w;
     requests_made := n; trace := t |}.

(* ------------------------------------------------------------------ *)
(** ** State and exception monad *)

Definition M (A : Type) : Type := World -> Res A * World.

Definition ret {A} (a : A) : M A := fun w => (Ok a, w).
Definition raise {A} (e : exn) : M A := fun w => (Raise e, w).
Definition lift {A} (r : Res A) : M A := fun w => (r, w).

Definition bind {A B} (m : M A) (k : A -> M B) : M B :=
  fun w =>
    match m w with
    | (Ok a, w') => k a w'
    | (Raise e, w') => (Raise e, w')
    end.

(** [try: m except <classes matched by h>: ...]; the handler re-raises what
    it does not catch. *)
Definition try_except {A} (m : M A) (h : exn -> M A) : M A :=
  fun w =>
    match m w with
    | (Ok a, w') => (Ok a, w')
    | (Raise e, w') => h e w'
    end.

Declare Scope monad_scope.
Delimit Scope monad_scope with monad.
Notation "x <- m ;; k" := (bind m (fun x => k))
  (at level 61, m at next level, right associativity) : monad_scope.
Notation "m ;;; k" := (bind m (fun _ => k))
  (at level 61, right associativity) : monad_scope.
Local Open Scope monad_scope.

(** [for x in xs: body(x)] *)
Fixpoint for_each {A} (xs : list A) (body : A -> M unit) : M unit :=
  match xs with
  | [] => ret tt
  | x :: xs' => body x ;;; for_each xs' body
  end.

(** [[f(x) for x in xs]] for a pure, fallible [f]. *)
Fixpoint map_res {A B} (f : A -> Res B) (xs : list A) : Res (list B) :=
  match xs with
  | [] => Ok []
  | x :: xs' =>
      match f x with
      | Raise e => Raise e
      | Ok y => match map_res f xs' with
                | Raise e => Raise e
                | Ok ys => Ok (y :: ys)
                end
      end
  end.

Definition emit (e : event) : M unit :=
  fun w => (Ok tt, set_ambient w (cache w) (requests_made w) (e :: trace w)).

(** [logger.error(...)] *)
Definition logger_error : M unit := emit LogError.

(* ------------------------------------------------------------------ *)
(** ** Query helpers *)

(** The model of [ORDER BY]: the rows in the order a comparison puts them.
    What the backend decides (the order of ties, the collation) comes in
    through the comparison. *)
Section Sort.
Variable A : Type.
Variable leb : A -> A -> bool.

Fixpoint insert_sorted (x : A) (l : list A) : list A :=
  match l with
  | [] => [x]
  | y :: l' => if leb x y then x :: l else y :: insert_sorted x l'
  end.

Fixpoint order_by (l : list A) : list A :=
  match l with
  | [] => []
  | x :: l' => insert_sorted x (order_by l')
  end.
End Sort.

(** [qs[start:stop]] on a list, for [0 <= start <= stop]. *)
Definition slice {A} (l : list A) (start stop : Z) : list A :=
  firstn (Z.to_nat (stop - start)) (skipn (Z.to_nat start) l).

Definition ascii_lower (c : ascii) : ascii :=
  let n := nat_of_ascii c in
  if ((65 <=? n) && (n <=? 90))%nat then ascii_of_nat (n + 32) else c.

Fixpoint lower (s : string) : string :=
  match s with
  | EmptyString => EmptyString
  | String c s' => String (ascii_lower c) (lower s')
  end.

(** Equality of names with ASCII case folding. *)
Definition iexact (a b : string) : bool := (lower a =? lower b)%string.

(** [d.update(upd)] *)
Fixpoint dict_set (k : string) (v : json) (d : dict) : dict :=
  match d with
  | [] => [(k, v)]
  | (k', v') :: d' =>
      if (k' =? k)%string then (k, v) :: d' else (k', v') :: dict_set k v d'
  end.

Definition dict_update (d upd : dict) : dict :=
  fold_left (fun acc kv => dict_set (fst kv) (snd kv) acc) upd d.

Fixpoint cache_remove (k : string) (c : list (string * json)) : list (string * json) :=
  match c with
  | [] => []
  | (k', v) :: c' =>
      if (k' =? k)%string then cache_remove k c' else (k', v) :: cache_remove k c'
  end.

(** [cache.get(key)]: the stored payload, [None] when there is none. *)
Definition cache_get (key : string) : M json :=
  fun w =>
    (Ok (match dict_lookup key (cache w) with Some v => v | None => JNull end),
     set_ambient w (cache w) (requests_made w) (CacheGet key :: trace w)).

(** [cache.set(key, value, ttl)].  Entries do not expire inside one
    operation; expiry between operations is a change of [cache]. *)
Definition cache_set (key : string) (value : json) (ttl : Z) : M unit :=
  fun w =>
    (Ok tt,
     set_ambient w ((key, value) :: cache_remove key (cache w))
       (requests_made w) (CacheSet key ttl :: trace w)).

(** [requests.get(url, params=..., timeout=10)]: the answer of the provider
    to this request, which is then counted and traced. *)
Definition requests_get (url : string) (params : dict) : M http_outcome :=
  fun w =>
    (Ok (provider w (requests_made w) url params),
     set_ambient w (cache w) (S (requests_made w)) (HttpGet url params :: trace w)).

(** [response.raise_for_status()]: an [HTTPError], which is a
    [RequestException], on a status in 400..599 and on no other. *)
Definition raise_for_status (status_code : Z) : M unit :=
  if (400 <=? status_code) && (status_code <? 600)
  then raise RequestException else ret tt.

(** Truncation towards zero, [int(x)] on a float. *)
Definition Qtrunc (q : Q) : Z := Z.quot (Qnum q) (Zpos (Qden q)).

Section Service.
Variable P : Platform.

(** [response.json()] *)
Definition response_json (body : option json) : M json :=
  match body with
  | Some j => ret j
  | None =>
      if json_error_is_request_exception P then raise RequestException
      else raise ValueError
  end.

(** *** Field preparation ([Field.get_prep_value]); [None] is SQL NULL *)

(** [IntegerField]: [int(value)] *)
Definition int_prep (v : json) : Res (option Z) :=
  match v with
  | JNull => Ok None
  | JInt z => Ok (Some z)
  | JBool b => Ok (Some (if b then 1 else 0))
  | JFloat q => Ok (Some (Qtrunc q))
  | JStr s => match int_of_str P s with
              | Some z => Ok (Some z)
              | None => Raise ValueError
              end
  | JList _ | JObj _ => Raise TypeError
  end.

(** [FloatField]: [float(value)] *)
Definition float_prep (v : json) : Res (option Q) :=
  match v with
  | JNull => Ok None
  | JInt z => match float_of_int P z with
              | Some q => Ok (Some q)
              | None => Raise OverflowError
              end
  | JBool b => Ok (Some (if b then 1%Q else 0%Q))
  | JFloat q => Ok (Some q)
  | JStr s => match float_of_str P s with
              | Some q => Ok (Some q)
              | None => Raise ValueError
              end
  | JList _ | JObj _ => Raise TypeError
  end.

(** [CharField] and [TextField]: a str is kept, anything else but [None]
    goes through [str]. *)
Definition char_prep (v : json) : option string :=
  match v with
  | JNull => None
  | JStr s => Some s
  | _ => Some (py_str P v)
  end.

(** A NOT NULL column. *)
Definition not_null {A} (v : option A) : M A :=
  match v with
  | Some a => ret a
  | None => raise IntegrityError
  end.

Definition check_int (z : Z) : M unit :=
  if db_int_ok P z then ret tt else raise DataError.

Definition check_varchar (n : nat) (s : string) : M unit :=
  if db_varchar_ok P n s then ret tt else raise DataError.

Definition check_text (s : string) : M unit :=
  if db_text_ok P s then ret tt else raise DataError.

Definition check_float (q : Q) : M unit :=
  if db_float_ok P q then ret tt else raise DataError.

(** *** Genre manager *)

Definition Genre_filter_tmdb_id (z : Z) (w : World) : list Genre.t :=
  filter (fun g => Genre.tmdb_id g =? z) (genres w).

(** [Genre.objects.get(tmdb_id=v)] *)
Definition Genre_get_tmdb_id (v : json) : M Genre.t :=
  k <- lift (int_prep v) ;;
  fun w =>
    match k with
    | None => (Raise GenreDoesNotExist, w)        (* tmdb_id IS NULL *)
    | Some z =>
        match Genre_filter_tmdb_id z w with
        | [] => (Raise GenreDoesNotExist, w)
        | [g] => (Ok g, w)
        | _ :: _ :: _ => (Raise MultipleObjectsReturned, w)
        end
    end.

(** [Genre.objects.create(tmdb_id=k, name=nm)] *)
Definition Genre_create (k : option Z) (nm : json) : M Genre.t :=
  z <- not_null k ;;
  s <- not_null (char_prep nm) ;;
  check_int z ;;;
  check_varchar 100 s ;;;
  fun w =>
    let g := {| Genre.id := next_genre_id w; Genre.tmdb_id := z;
                Genre.name := s |} in
    (Ok g, set_genres w (genres w ++ [g]) (next_genre_id w + 1)).

(** [Genre.objects.get_or_create(tmdb_id=v, defaults={'name': nm})]: an
    existing row is returned as it is. *)
Definition Genre_get_or_create (v nm : json) : M (Genre.t * bool) :=
  k <- lift (int_prep v) ;;
  try_except
    (g <- Genre_get_tmdb_id v ;; ret (g, false))
    (fun e =>
       match e with
       | GenreDoesNotExist => g <- Genre_create k nm ;; ret (g, true)
       | _ => raise e
       end).

(** [Genre.objects.get(name__iexact=genre_name)] *)
Definition Genre_get_name_iexact (genre_name : string) : M Genre.t :=
  fun w =>
    match filter (fun g => db_iexact P (Genre.name g) genre_name) (genres w) with
    | [] => (Raise GenreDoesNotExist, w)
    | [g] => (Ok g, w)
    | _ :: _ :: _ => (Raise MultipleObjectsReturned, w)
    end.

(** [Genre.objects.all()], in the [Meta.ordering] by name: the rows in the
    order the backend's comparison of names puts them. *)
Definition Genre_all : M (list Genre.t) :=
  fun w => (Ok (order_by (db_name_leb P) (genres w)), w).

(** *** Movie manager *)

(** The [defaults] of [update_or_create], as the merge builds them. *)
Record movie_defaults : Type := {
  d_title : json;
  d_overview : json;
  d_release_date : option date;
  d_vote_average : json;
  d_popularity : json;
  d_poster_path : json;
  d_backdrop_path : json
}.

(** The row that [save()] writes: values are prepared in field order,
    then the backend applies NOT NULL and column-size constraints. *)
Definition Movie_prepare (pk z : Z) (d : movie_defaults) : M Movie.t :=
  va <- lift (float_prep (d_vote_average d)) ;;
  po <- lift (float_prep (d_popularity d)) ;;
  ti <- not_null (char_prep (d_title d)) ;;
  ov <- not_null (char_prep (d_overview d)) ;;
  va <- not_null va ;;
  po <- not_null po ;;
  pp <- not_null (char_prep (d_poster_path d)) ;;
  bp <- not_null (char_prep (d_backdrop_path d)) ;;
  check_varchar 200 ti ;;;
  check_text ov ;;;
  check_float va ;;;
  check_float po ;;;
  check_varchar 200 pp ;;;
  check_varchar 200 bp ;;;
  ret {| Movie.id := pk; Movie.tmdb_id := z; Movie.title := ti;
         Movie.overview := ov; Movie.release_date := d_release_date d;
         Movie.vote_average := va; Movie.popularity := po;
         Movie.poster_path := pp; Movie.backdrop_path := bp |}.

Definition Movie_filter_tmdb_id (z : Z) (w : World) : list Movie.t :=
  filter (fun m => Movie.tmdb_id m =? z) (movies w).

(** INSERT of a new row. *)
Definition Movie_create (k : option Z) (d : movie_defaults) : M Movie.t :=
  fun w =>
    (m <- Movie_prepare (next_movie_id w) (match k with Some z => z | None => 0 end) d ;;
     z <- not_null k ;;
     check_int z ;;;
     fun w' => (Ok m, set_movies w' (movies w' ++ [m]) (next_movie_id w' + 1))) w.

(** [save()] of an existing object: UPDATE ... WHERE id = pk. *)
Definition Movie_save (old : Movie.t) (d : movie_defaults) : M Movie.t :=
  m <- Movie_prepare (Movie.id old) (Movie.tmdb_id old) d ;;
  fun w =>
    (Ok m,
     set_movies w
       (map (fun r => if Movie.id r =? Movie.id old then m else r) (movies w))
       (next_movie_id w)).

(** [Movie.objects.update_or_create(tmdb_id=v, defaults=d)] *)
Definition Movie_update_or_create (v : json) (d : movie_defaults)
  : M (Movie.t * bool) :=
  k <- lift (int_prep v) ;;
  fun w =>
    match match k with Some z => Movie_filter_tmdb_id z w | None => [] end with
    | [] => (m <- Movie_create k d ;; ret (m, true)) w
    | [old] => (m <- Movie_save old d ;; ret (m, false)) w
    | _ :: _ :: _ => (Raise MultipleObjectsReturned, w)
    end.

(** [Movie.objects.filter(genres=genre)]: the join through [MovieGenre]. *)
Definition Movie_filter_genres (genre : Genre.t) (w : World) : list Movie.t :=
  flat_map
    (fun l =>
       if MovieGenre.genre_id l =? Genre.id genre
       then filter (fun m => Movie.id m =? MovieGenre.movie_id l) (movies w)
       else [])
    (movie_genres w).

(** *** MovieGenre manager *)

(** [MovieGenre.objects.filter(movie=movie).delete()] *)
Definition MovieGenre_filter_movie_delete (movie : Movie.t) : M unit :=
  fun w =>
    (Ok tt,
     set_movie_genres w
       (filter (fun l => negb (MovieGenre.movie_id l =? Movie.id movie))
          (movie_genres w))
       (next_movie_genre_id w)).

(** [MovieGenre.objects.get_or_create(movie=movie, genre=genre)] *)
Definition MovieGenre_get_or_create (movie : Movie.t) (genre : Genre.t)
  : M (MovieGenre.t * bool) :=
  fun w =>
    match filter (fun l => (MovieGenre.movie_id l =? Movie.id movie)
                           && (MovieGenre.genre_id l =? Genre.id genre))
            (movie_genres w) with
    | [] =>
        let l := {| MovieGenre.id := next_movie_genre_id w;
                    MovieGenre.movie_id := Movie.id movie;
                    MovieGenre.genre_id := Genre.id genre |} in
        (Ok (l, true),
         set_movie_genres w (movie_genres w ++ [l]) (next_movie_genre_id w + 1))
    | [l] => (Ok (l, false), w)
    | _ :: _ :: _ => (Raise MultipleObjectsReturned, w)
    end.

(* ---------------------------------------------------------------- *)
(** ** services.py: [TMDbService] *)

(** [_make_request] (lines 19-33) *)
Definition _make_request (endpoint : string) (params : option dict) : M json :=
  let url := (TMDB_BASE_URL P ++ "/" ++ endpoint)%string in
  let default_params := [("api_key", JStr (TMDB_API_KEY P))] in
  let default_params :=
    match params with
    | Some (kv :: p) => dict_update default_params (kv :: p)
    | _ => default_params
    end in
  try_except
    (response <- requests_get url default_params ;;
     match response with
     | Timeout | ConnectionError => raise RequestException
     | Response status_code body =>
         raise_for_status status_code ;;;
         response_json body
     end)
    (fun e =>
       match e with
       | RequestException => logger_error ;;; ret JNull
       | _ => raise e
       end).

(** [fetch_genres] (lines 35-52) *)
Definition fetch_genres : M (list Genre.t) :=
  let cache_key := "tmdb_genres" in
  genres_data <- cache_get cache_key ;;
  genres_data <-
    (if negb (truthy genres_data) then
       genres_data <- _make_request "genre/movie/list" None ;;
       (if truthy genres_data
        then cache_set cache_key genres_data (CACHE_TIMEOUT_GENRES P)
        else ret tt) ;;;
       ret genres_data
     else ret genres_data) ;;
  has_genres <-
    (if truthy genres_data then lift (py_contains "genres" genres_data)
     else ret false) ;;
  (if has_genres then
     gl <- lift (py_getitem genres_data "genres") ;;
     items <- lift (py_iter gl) ;;
     for_each items
       (fun genre_data =>
          tid <- lift (py_getitem genre_data "id") ;;
          nm <- lift (py_getitem genre_data "name") ;;
          Genre_get_or_create tid nm ;;;
          ret tt)
   else ret tt) ;;;
  Genre_all.

(** Lines 137-159 of [_create_or_update_movie]: the release date is parsed
    and the movie upserted by provider ID. *)
Definition upsert_movie (movie_data : json) : M Movie.t :=
  rd <- lift (py_get movie_data "release_date" JNull) ;;
  release_date <-
    (if truthy rd then
       match rd with
       | JStr s => ret (strptime_ymd P s)     (* ValueError: pass *)
       | _ => raise TypeError                 (* strptime of a non-str *)
       end
     else ret None) ;;
  tid <- lift (py_getitem movie_data "id") ;;
  ti <- lift (py_get movie_data "title" (JStr "")) ;;
  ov <- lift (py_get movie_data "overview" (JStr "")) ;;
  va <- lift (py_get movie_data "vote_average" (JFloat 0)) ;;
  po <- lift (py_get movie_data "popularity" (JFloat 0)) ;;
  pp <- lift (py_get movie_data "poster_path" (JStr "")) ;;
  bp <- lift (py_get movie_data "backdrop_path" (JStr "")) ;;
  mc <- Movie_update_or_create tid
          {| d_title := ti; d_overview := ov; d_release_date := release_date;
             d_vote_average := va; d_popularity := po;
             d_poster_path := pp; d_backdrop_path := bp |} ;;
  ret (fst mc).

(** Lines 161-167: the genre-ID list of the record. *)
Definition record_genre_ids (movie_data : json) : M json :=
  has_genres <- lift (py_contains "genres" movie_data) ;;
  if has_genres then
    gl <- lift (py_getitem movie_data "genres") ;;
    items <- lift (py_iter gl) ;;
    ids <- lift (map_res (fun genre => py_getitem genre "id") items) ;;
    ret (JList ids)
  else
    has_genre_ids <- lift (py_contains "genre_ids" movie_data) ;;
    if has_genre_ids then lift (py_getitem movie_data "genre_ids")
    else ret (JList []).

(** Lines 177-182: one link per genre ID that resolves locally. *)
Definition link_genres (movie : Movie.t) (items : list json) : M unit :=
  for_each items
    (fun genre_id =>
       try_except
         (genre <- Genre_get_tmdb_id genre_id ;;
          MovieGenre_get_or_create movie genre ;;;
          ret tt)
         (fun e =>
            match e with
            | GenreDoesNotExist => ret tt        (* continue *)
            | _ => raise e
            end)).

(** Lines 161-182: the genre associations of [movie] are replaced when
    the record carries a non-empty genre-ID list. *)
Definition replace_genres (movie_data : json) (movie : Movie.t) : M unit :=
  genre_ids <- record_genre_ids movie_data ;;
  if truthy genre_ids then
    fetch_genres ;;;
    MovieGenre_filter_movie_delete movie ;;;
    items <- lift (py_iter genre_ids) ;;
    link_genres movie items
  else ret tt.

(** [_create_or_update_movie] (lines 134-188); [except Exception] catches
    every exception of the body, and its handler evaluates
    [movie_data.get('id')] for the log message. *)
Definition _create_or_update_movie (movie_data : json) (detailed : bool)
  : M (option Movie.t) :=
  try_except
    (movie <- upsert_movie movie_data ;;
     replace_genres movie_data movie ;;;
     ret (Some movie))
    (fun e =>
       lift (py_get movie_data "id" JNull) ;;;
       logger_error ;;;
       ret None).

(** The loop shared by the three list operations (lines 66-70, 86-90,
    125-129): merge each record, keep the successes. *)
Fixpoint merge_results (results : list json) : M (list Movie.t) :=
  match results with
  | [] => ret []
  | movie_data :: rest =>
      movie <- _create_or_update_movie movie_data false ;;
      movies <- merge_results rest ;;
      ret (match movie with Some m => m :: movies | None => movies end)
  end.

(** Lines 65-73, 85-93 and 124-132: what a list operation returns for the
    payload it holds. *)
Definition movies_of_payload (movies_data : json) : M (list Movie.t * json) :=
  has_results <-
    (if truthy movies_data then lift (py_contains "results" movies_data)
     else ret false) ;;
  if has_results then
    rl <- lift (py_getitem movies_data "results") ;;
    results <- lift (py_iter rl) ;;
    movies <- merge_results results ;;
    total_pages <- lift (py_get movies_data "total_pages" (JInt 1)) ;;
    ret (movies, total_pages)
  else ret ([], JInt 0).

(** [fetch_trending_movies] (lines 54-73) *)
Definition fetch_trending_movies (time_window : string) (page : Z)
  : M (list Movie.t * json) :=
  let cache_key :=
    ("trending_movies_" ++ time_window ++ "_" ++ str_of_Z page)%string in
  movies_data <- cache_get cache_key ;;
  movies_data <-
    (if negb (truthy movies_data) then
       let endpoint := ("trending/movie/" ++ time_window)%string in
       movies_data <- _make_request endpoint (Some [("page", JInt page)]) ;;
       (if truthy movies_data
        then cache_set cache_key movies_data (CACHE_TIMEOUT_TRENDING_MOVIES P)
        else ret tt) ;;;
       ret movies_data
     else ret movies_data) ;;
  movies_of_payload movies_data.

(** [fetch_popular_movies] (lines 75-93) *)
Definition fetch_popular_movies (page : Z) : M (list Movie.t * json) :=
  let cache_key := ("popular_movies_" ++ str_of_Z page)%string in
  movies_data <- cache_get cache_key ;;
  movies_data <-
    (if negb (truthy movies_data) then
       movies_data <- _make_request "movie/popular" (Some [("page", JInt page)]) ;;
       (if truthy movies_data
        then cache_set cache_key movies_data (CACHE_TIMEOUT_POPULAR_MOVIES P)
        else ret tt) ;;;
       ret movies_data
     else ret movies_data) ;;
  movies_of_payload movies_data.

(** [fetch_movie_details] (lines 95-108) *)
Definition fetch_movie_details (tmdb_id : Z) : M (option Movie.t) :=
  let cache_key := ("movie_details_" ++ str_of_Z tmdb_id)%string in
  movie_data <- cache_get cache_key ;;
  movie_data <-
    (if negb (truthy movie_data) then
       movie_data <- _make_request ("movie/" ++ str_of_Z tmdb_id)%string None ;;
       (if truthy movie_data
        then cache_set cache_key movie_data (CACHE_TIMEOUT_MOVIE_DETAILS P)
        else ret tt) ;;;
       ret movie_data
     else ret movie_data) ;;
  if truthy movie_data then _create_or_update_movie movie_data true
  else ret None.

(** [search_movies] (lines 110-132) *)
Definition search_movies (query : string) (page : Z) : M (list Movie.t * json) :=
  if (strip query =? "")%string then ret ([], JInt 0)
  else
    let cache_key :=
      ("search_movies_" ++ query ++ "_" ++ str_of_Z page)%string in
    movies_data <- cache_get cache_key ;;
    movies_data <-
      (if negb (truthy movies_data) then
         let params := [("query", JStr query); ("page", JInt page)] in
         movies_data <- _make_request "search/movie" (Some params) ;;
         (if truthy movies_data
          then cache_set cache_key movies_data 1800
          else ret tt) ;;;
         ret movies_data
       else ret movies_data) ;;
    movies_of_payload movies_data.

(** [order_by('-popularity')] as the query with OFFSET [offset] sees it:
    the more popular movie first, two of equal popularity as the backend
    returns them for this query. *)
Definition by_popularity (offset : Z) (a b : Movie.t) : bool :=
  if Qeq_bool (Movie.popularity a) (Movie.popularity b)
  then db_tie P offset a b
  else Qle_bool (Movie.popularity b) (Movie.popularity a).

(** [get_movies_by_genre] (lines 190-205).  Slicing a queryset at a
    negative index raises ([ValueError]; an [AssertionError] before
    Django 4.0); [count()] and the sliced query (ORDER BY popularity DESC
    LIMIT 20 OFFSET start) are two queries, and the second raises when the
    backend does not take its OFFSET; only [Genre.DoesNotExist] is
    caught. *)
Definition get_movies_by_genre (genre_name : string) (page : Z)
  : M (list Movie.t * Z) :=
  try_except
    (genre <- Genre_get_name_iexact genre_name ;;
     let start := (page - 1) * 20 in
     let end_ := start + 20 in
     (if (start <? 0) || (end_ <? 0) then raise ValueError else ret tt) ;;;
     fun w =>
       let movies := Movie_filter_genres genre w in
       let total_pages := (Z.of_nat (List.length movies) + 19) / 20 in
       if db_offset_ok P start then
         let paginated_movies :=
           slice (order_by (by_popularity start) movies) start end_ in
         (Ok (paginated_movies, total_pages), w)
       else (Raise DatabaseError, w))
    (fun e =>
       match e with
       | GenreDoesNotExist => ret ([], 0)
       | _ => raise e
       end).

(* ---------------------------------------------------------------- *)
(** ** views.py: [movies_by_genre] (lines 133-163) *)

Inductive HttpResponse : Type :=
| HTTP_400_BAD_REQUEST (error : string)
| HTTP_404_NOT_FOUND (error : string)
| HTTP_200_OK (results : list Movie.t) (page total_pages count : Z)
              (genre : string).

Fixpoint query_get (k : string) (GET : list (string * string)) : option string :=
  match GET with
  | [] => None
  | (k', v) :: rest => if (k' =? k)%string then Some v else query_get k rest
  end.

Definition dquote : string := String (ascii_of_nat 34) EmptyString.

Definition movies_by_genre (GET : list (string * string)) : M HttpResponse :=
  let genre_name :=
    strip (match query_get "genre" GET with Some s => s | None => "" end) in
  page <-
    match query_get "page" GET with
    | None => ret 1
    | Some s => match int_of_str P s with
                | Some z => ret z
                | None => raise ValueError
                end
    end ;;
  if (genre_name =? "")%string then
    ret (HTTP_400_BAD_REQUEST "Genre parameter is required")
  else
    r <- get_movies_by_genre genre_name page ;;
    let (movies, total_pages) := r in
    if match movies with [] => true | _ => false end && (total_pages =? 0) then
      ret (HTTP_404_NOT_FOUND
             ("Genre " ++ dquote ++ genre_name ++ dquote ++ " not found")%string)
    else
      ret (HTTP_200_OK movies page total_pages (Z.of_nat (List.length movies))
             genre_name).
End Service.

(* ------------------------------------------------------------------ *)
(** ** views.py: the other views *)

(** What the list and detail views answer. *)
Inductive ApiResponse : Type :=
| Api_400_BAD_REQUEST (error : string)
| Api_404_NOT_FOUND (error : string)
| Api_200_page (results : list Movie.t) (page : Z) (total_pages : json)
               (count : Z) (query : option string)
| Api_200_movie (movie : Movie.t).

Section Views.
Variable P : Platform.

(** [int(request.GET.get('page', 1))] *)
Definition page_param (GET : list (string * string)) : M Z :=
  match query_get "page" GET with
  | None => ret 1
  | Some s => match int_of_str P s with
              | Some z => ret z
              | None => raise ValueError
              end
  end.

(** [trending_movies] (lines 41-64) *)
Definition trending_movies (GET : list (string * string)) : M ApiResponse :=
  let time_window :=
    match query_get "time_window" GET with Some s => s | None => "day" end in
  page <- page_param GET ;;
  if negb ((time_window =? "day")%string || (time_window =? "week")%string) then
    ret (Api_400_BAD_REQUEST
           ("time_window must be " ++ dquote ++ "day" ++ dquote ++ " or "
            ++ dquote ++ "week" ++ dquote)%string)
  else
    r <- fetch_trending_movies P time_window page ;;
    let (movies, total_pages) := r in
    ret (Api_200_page movies page total_pages (Z.of_nat (List.length movies)) None).

(** [popular_movies] (lines 73-89) *)
Definition popular_movies (GET : list (string * string)) : M ApiResponse :=
  page <- page_param GET ;;
  r <- fetch_popular_movies P page ;;
  let (movies, total_pages) := r in
  ret (Api_200_page movies page total_pages (Z.of_nat (List.length movies)) None).

(** The view [search_movies] (lines 99-123); the service function of the
    same name is [search_movies]. *)
Definition search_movies_view (GET : list (string * string)) : M ApiResponse :=
  let query := strip (match query_get "q" GET with Some s => s | None => "" end) in
  page <- page_param GET ;;
  if (query =? "")%string then
    ret (Api_400_BAD_REQUEST "Search query is required")
  else
    r <- search_movies P query page ;;
    let (movies, total_pages) := r in
    ret (Api_200_page movies page total_pages (Z.of_nat (List.length movies))
           (Some query)).

(** [Movie.objects.get(tmdb_id=tmdb_id)] for an int from the URL. *)
Definition Movie_get_tmdb_id (tmdb_id : Z) : M (option Movie.t) :=
  fun w =>
    match Movie_filter_tmdb_id tmdb_id w with
    | [] => (Ok None, w)                     (* Movie.DoesNotExist *)
    | [m] => (Ok (Some m), w)
    | _ :: _ :: _ => (Raise MultipleObjectsReturned, w)
    end.

(** [MovieDetailView.get] (lines 173-192): the local store first, the
    provider when the movie is not stored. *)
Definition MovieDetailView_get (tmdb_id : Z) : M ApiResponse :=
  found <- Movie_get_tmdb_id tmdb_id ;;
  match found with
  | Some movie => ret (Api_200_movie movie)
  | None =>
      movie <- fetch_movie_details P tmdb_id ;;
      match movie with
      | None => ret (Api_404_NOT_FOUND "Movie not found")
      | Some movie => ret (Api_200_movie movie)
      end
  end.
End Views.

(* ------------------------------------------------------------------ *)
(** ** models.py and serializers.py: favorites *)

Module UserFavorite.
Record t : Type := {
  id : Z;
  user_id : Z;            (* ForeignKey(User) *)
  movie_id : Z            (* ForeignKey(Movie) *)
}.
End UserFavorite.

(** The UserFavorite table. *)
Record Favorites : Type := {
  favorites : list UserFavorite.t;
  next_favorite_id : Z
}.

(** What the serializer methods raise. *)
Inductive serializer_exn : Type :=
| ValidationError (message : string)
| MovieDoesNotExist
| FavoriteMultipleObjectsReturned
| MovieMultipleObjectsReturned.

Inductive SRes (A : Type) : Type :=
| SOk (a : A)
| SRaise (e : serializer_exn).
Arguments SOk {A} a.
Arguments SRaise {A} e.

(** [Movie.objects.get(id=value)] *)
Definition Movie_get_id (movies : list Movie.t) (value : Z) : SRes Movie.t :=
  match filter (fun m => Movie.id m =? value) movies with
  | [] => SRaise MovieDoesNotExist
  | [m] => SOk m
  | _ :: _ :: _ => SRaise MovieMultipleObjectsReturned
  end.

(** [UserFavoriteSerializer.validate_movie_id] (lines 72-78) *)
Definition validate_movie_id (movies : list Movie.t) (value : Z) : SRes Z :=
  match Movie_get_id movies value with
  | SOk _ => SOk value
  | SRaise MovieDoesNotExist => SRaise (ValidationError "Movie does not exist.")
  | SRaise e => SRaise e
  end.

Definition UserFavorite_filter (user movie_id : Z) (f : Favorites)
  : list UserFavorite.t :=
  filter (fun x => (UserFavorite.user_id x =? user)
                   && (UserFavorite.movie_id x =? movie_id))
    (favorites f).

(** [UserFavoriteSerializer.create] (lines 80-94) for the requesting
    [user]: the favorite that was created and the table after the call. *)
Definition UserFavoriteSerializer_create (movies : list Movie.t) (user : Z)
    (movie_id : Z) (f : Favorites) : SRes UserFavorite.t * Favorites :=
  match Movie_get_id movies movie_id with
  | SRaise e => (SRaise e, f)
  | SOk movie =>
      match UserFavorite_filter user (Movie.id movie) f with
      | [] =>
          let favorite := {| UserFavorite.id := next_favorite_id f;
                             UserFavorite.user_id := user;
                             UserFavorite.movie_id := Movie.id movie |} in
          (SOk favorite,
           {| favorites := favorites f ++ [favorite];
              next_favorite_id := next_favorite_id f + 1 |})
      | [_] => (SRaise (ValidationError "Movie is already in favorites."), f)
      | _ :: _ :: _ => (SRaise FavoriteMultipleObjectsReturned, f)
      end
  end.

(** [UserSerializer.get_favorites_count] (lines 105-107) *)
Definition get_favorites_count (user : Z) (f : Favorites) : Z :=
  Z.of_nat (List.length (filter (fun x => UserFavorite.user_id x =? user)
                           (favorites f))).

(** [get_is_favorited] of the movie serializers (lines 30-37, 53-60);
    [user] is [None] without a request or for an anonymous user. *)
Definition get_is_favorited (user : option Z) (obj : Movie.t) (f : Favorites)
  : bool :=
  match user with
  | Some u =>
      match UserFavorite_filter u (Movie.id obj) f with
      | [] => false
      | _ :: _ => true
      end
  | None => false
  end.

(** The properties [poster_url] and [backdrop_url] of [Movie]
    (models.py, lines 54-66). *)
Definition poster_url (m : Movie.t) : option string :=
  if (Movie.poster_path m =? "")%string then None
  else Some ("https://image.tmdb.org/t/p/w500" ++ Movie.poster_path m)%string.

Definition backdrop_url (m : Movie.t) : option string :=
  if (Movie.backdrop_path m =? "")%string then None
  else Some ("https://image.tmdb.org/t/p/w1280" ++ Movie.backdrop_path m)%string.

(* ------------------------------------------------------------------ *)
(** ** A concrete platform and concrete worlds *)

(** Parsers for the plain forms of the library functions: decimal
    integers, decimals with a fraction, zero-padded dates.  Python accepts
    more spellings (surrounding whitespace, a plus sign, exponents,
    unpadded months and days); the examples below do not use them. *)
Definition parse_int (s : string) : option Z :=
  match NilZero.int_of_string s with
  | Some i => Some (Z.of_int i)
  | None => None
  end.

Definition parse_digits (s : string) : option Z :=
  match NilZero.uint_of_string s with
  | Some u => Some (Z.of_uint u)
  | None => None
  end.

Definition parse_float (s : string) : option Q :=
  match String.index 0 "." s with
  | None => option_map inject_Z (parse_int s)
  | Some i =>
      let int_part := String.substring 0 i s in
      let frac_part := String.substring (S i) (String.length s - S i) s in
      match parse_int int_part, parse_digits frac_part with
      | Some a, Some f =>
          let scale := 10 ^ Z.of_nat (String.length frac_part) in
          let n := if String.prefix "-" int_part then a * scale - f
                   else a * scale + f in
          Some (n # Z.to_pos scale)
      | _, _ => None
      end
  end.

Definition days_in_month (y m : Z) : Z :=
  if m =? 2 then
    if ((y mod 4 =? 0) && negb (y mod 100 =? 0)) || (y mod 400 =? 0)
    then 29 else 28
  else if (m =? 4) || (m =? 6) || (m =? 9) || (m =? 11) then 30
  else 31.

Definition parse_ymd (s : string) : option date :=
  if ((String.length s =? 10)%nat
      && (String.substring 4 1 s =? "-")%string
      && (String.substring 7 1 s =? "-")%string)%bool
  then
    match parse_digits (String.substring 0 4 s),
          parse_digits (String.substring 5 2 s),
          parse_digits (String.substring 8 2 s) with
    | Some y, Some m, Some d =>
        if (1 <=? y) && (1 <=? m) && (m <=? 12)
           && (1 <=? d) && (d <=? days_in_month y m)
        then Some {| year := y; month := m; day := d |}
        else None
    | _, _, _ => None
    end
  else None.

(** [str] of an int or a bool; the text fields of the examples below hold
    strings, which do not go through [str]. *)
Definition show_json (v : json) : string :=
  match v with
  | JInt z => str_of_Z z
  | JBool true => "True"
  | JBool false => "False"
  | JStr s => s
  | _ => "?"
  end.

(** [float(n)] on an int: [n] itself below 2^53, else the nearest number
    with a 53-bit significand, ties to even; [OverflowError] from 2^1024
    on. *)
Definition double_of_Z (z : Z) : option Q :=
  let a := Z.abs z in
  if a <? 2 ^ 53 then Some (inject_Z z)
  else
    let e := Z.log2 a - 52 in
    let q := Z.shiftr a e in
    let r := a - Z.shiftl q e in
    let half := Z.shiftl 1 (e - 1) in
    let q' := if (half <? r) || ((r =? half) && Z.odd q) then q + 1 else q in
    let v := Z.shiftl q' e in
    if 2 ^ 1024 <=? v then None else Some (inject_Z (Z.sgn z * v)).

(** A backend that enforces varchar sizes and 32-bit integer columns,
    takes every text and every float, matches names with ASCII case
    folding, takes an OFFSET up to 2^63 - 1, returns movies of equal
    popularity by key and compares names by code point. *)
Definition demo_platform : Platform :=
  {| TMDB_API_KEY := "k";
     TMDB_BASE_URL := "https://api.themoviedb.org/3";
     CACHE_TIMEOUT_GENRES := 86400;
     CACHE_TIMEOUT_TRENDING_MOVIES := 3600;
     CACHE_TIMEOUT_POPULAR_MOVIES := 3600;
     CACHE_TIMEOUT_MOVIE_DETAILS := 3600;
     strptime_ymd := parse_ymd;
     float_of_str := parse_float;
     int_of_str := parse_int;
     float_of_int := double_of_Z;
     py_str := show_json;
     json_error_is_request_exception := true;
     db_int_ok := fun z => (- 2147483648 <=? z) && (z <=? 2147483647);
     db_varchar_ok := fun n s => (String.length s <=? n)%nat;
     db_text_ok := fun _ => true;
     db_float_ok := fun _ => true;
     db_iexact := iexact;
     db_offset_ok := fun offset => offset <=? 9223372036854775807;
     db_tie := fun _ a b => Movie.id a <=? Movie.id b;
     db_name_leb := fun a b => String.leb (Genre.name a) (Genre.name b) |}.

(** An empty store and a cold cache in front of a provider that answers
    every request with [answer]. *)
Definition fresh_world (answer : http_outcome) : World :=
  {| movies := []; next_movie_id := 1;
     genres := []; next_genre_id := 1;
     movie_genres := []; next_movie_genre_id := 1;
     cache := [];
     provider := fun _ _ _ => answer;
     requests_made := 0; trace := [] |}.

Definition action_genre : Genre.t :=
  {| Genre.id := 1; Genre.tmdb_id := 28; Genre.name := "Action" |}.

(** The store holds the genre Action and nothing else. *)
Definition action_world (answer : http_outcome) : World :=
  set_genres (fresh_world answer) [action_genre] 2.

(* ------------------------------------------------------------------ *)
(** ** Vocabulary of the properties *)

(** *** Frames *)

(** A frame is a reflexive and transitive relation between the world before
    and the world after an operation. *)
Class Frame (R : World -> World -> Prop) : Prop := {
  frame_refl : forall w, R w w;
  frame_trans : forall a b c, R a b -> R b c -> R a c
}.

(** Frames closed under the writes of each kind: cache, requests and log;
    insertion of a genre; any write to the links; any write to the movies. *)
Class AmbientFrame (R : World -> World -> Prop) : Prop :=
  ambient_frame : forall w c n t, R w (set_ambient w c n t).

Class GenreInsertFrame (R : World -> World -> Prop) : Prop :=
  genre_insert_frame :
    forall w g, R w (set_genres w (genres w ++ [g]) (next_genre_id w + 1)).

Class LinkFrame (R : World -> World -> Prop) : Prop :=
  link_frame : forall w ls n, R w (set_movie_genres w ls n).

Class MovieFrame (R : World -> World -> Prop) : Prop :=
  movie_frame : forall w ms n, R w (set_movies w ms n).

(** Every run of [m], raising or not, ends in a world related to the start. *)
Definition preserves {A} (R : World -> World -> Prop) (m : M A) : Prop :=
  forall w, R w (snd (m w)).

(** The Movie table is left as it is. *)
Definition movies_kept (w w' : World) : Prop :=
  movies w' = movies w /\ next_movie_id w' = next_movie_id w.

(** The Genre table only grows at its end: every row stays as it is. *)
Definition genres_grow (w w' : World) : Prop :=
  exists added, genres w' = genres w ++ added.

(** The Genre table is left as it is. *)
Definition genres_kept (w w' : World) : Prop :=
  genres w' = genres w /\ next_genre_id w' = next_genre_id w.

(** The MovieGenre table is left as it is. *)
Definition links_kept (w w' : World) : Prop :=
  movie_genres w' = movie_genres w
  /\ next_movie_genre_id w' = next_movie_genre_id w.

(** Nothing outside the three tables changes: no cache access, no request,
    nothing logged. *)
Definition ambient_kept (w w' : World) : Prop :=
  cache w' = cache w /\ requests_made w' = requests_made w
  /\ trace w' = trace w /\ provider w' = provider w.

(** *** Genre catalogue (C9) *)

(** The provider now calls genre 28 Adventure. *)
Definition renamed_catalog : json :=
  JObj [("genres", JList [JObj [("id", JInt 28); ("name", JStr "Adventure")]])].

(** *** Blank search queries (C6) *)

(** The query consists of whitespace only (or is empty). *)
Definition blank (query : string) : Prop :=
  forallb is_space (list_ascii_of_string query) = true.

(** *** Transport failures (C4) *)

(** The three list operations of the service. *)
Inductive list_operation : Type :=
| Trending (time_window : string) (page : Z)
| Popular (page : Z)
| Search (query : string) (page : Z).

Definition run_list_operation (P : Platform) (op : list_operation)
  : M (list Movie.t * json) :=
  match op with
  | Trending time_window page => fetch_trending_movies P time_window page
  | Popular page => fetch_popular_movies P page
  | Search query page => search_movies P query page
  end.

(** The outcomes on which [requests.get] or [raise_for_status] raise:
    timeout, connection error, a status in 400..599. *)
Definition request_fails (r : http_outcome) : bool :=
  match r with
  | Timeout | ConnectionError => true
  | Response status_code _ => (400 <=? status_code) && (status_code <? 600)
  end.

(** Timeout, connection error, or any status outside 200..299. *)
Definition non_2xx_failure (r : http_outcome) : bool :=
  match r with
  | Timeout | ConnectionError => true
  | Response status_code _ => negb ((200 <=? status_code) && (status_code <? 300))
  end.

(** Every key misses. *)
Definition cold_cache (w : World) : Prop :=
  forall key, dict_lookup key (cache w) = None.

(** The request sent next, whatever it is, meets [r]. *)
Definition next_answer (w : World) (r : http_outcome) : Prop :=
  forall url params, provider w (requests_made w) url params = r.

(** A page with one record. *)
Definition one_movie_payload : json :=
  JObj [("results", JList [JObj [("id", JInt 1); ("title", JStr "A")]])].

(** *** Batches of records (C3) and total pages (C10) *)

Definition is_object (v : json) : Prop :=
  match v with JObj _ => True | _ => False end.

(** A page of two records, the second of which is [null]. *)
Definition batch_with_null : json :=
  JObj [("results", JList [JObj [("id", JInt 1); ("title", JStr "A")]; JNull])].

(** The cache keys of the list operations. *)
Definition cache_key (op : list_operation) : string :=
  match op with
  | Trending time_window page =>
      "trending_movies_" ++ time_window ++ "_" ++ str_of_Z page
  | Popular page => "popular_movies_" ++ str_of_Z page
  | Search query page => "search_movies_" ++ query ++ "_" ++ str_of_Z page
  end%string.

(** The operation gets to the remote call or the cache at all. *)
Definition well_formed_operation (op : list_operation) : Prop :=
  match op with
  | Search query _ => strip query <> ""
  | _ => True
  end.



(** *** Ordering and pagination by genre (C5) *)

(** [a] comes before [b] under [order_by('-popularity')]. *)
Definition popularity_desc (a b : Movie.t) : bool :=
  Qle_bool (Movie.popularity b) (Movie.popularity a).

(** No two of the movies have equal popularity. *)
Fixpoint distinct_popularity (ms : list Movie.t) : bool :=
  match ms with
  | [] => true
  | a :: ms' =>
      forallb (fun b => negb (Qeq_bool (Movie.popularity a) (Movie.popularity b)))
        ms'
      && distinct_popularity ms'
  end.

(** The genres whose name matches [genre_name] without regard to case. *)
Definition genres_named (P : Platform) (genre_name : string) (w : World)
  : list Genre.t :=
  filter (fun g => db_iexact P (Genre.name g) genre_name) (genres w).

(** The stored genre Action under a second provider ID, in upper case. *)
Definition two_actions_world : World :=
  set_genres (fresh_world Timeout)
    [action_genre; {| Genre.id := 2; Genre.tmdb_id := 99; Genre.name := "ACTION" |}] 3.

(** Forty-five movies, of popularity 1 to 45, all linked to Action. *)
Definition numbered_movie (n : nat) : Movie.t :=
  {| Movie.id := Z.of_nat n; Movie.tmdb_id := 1000 + Z.of_nat n;
     Movie.title := "M"; Movie.overview := ""; Movie.release_date := None;
     Movie.vote_average := 5; Movie.popularity := inject_Z (Z.of_nat n);
     Movie.poster_path := ""; Movie.backdrop_path := "" |}.

Definition numbered_link (n : nat) : MovieGenre.t :=
  {| MovieGenre.id := Z.of_nat n; MovieGenre.movie_id := Z.of_nat n;
     MovieGenre.genre_id := 1 |}.

Definition forty_five_world : World :=
  set_movie_genres
    (set_movies (action_world Timeout) (map numbered_movie (seq 1 45)) 46)
    (map numbered_link (seq 1 45)) 46.

(** *** Unknown genres and empty genres (C7) *)

(** The page number the view reads from the query string. *)
Definition requested_page (P : Platform) (GET : list (string * string))
  : option Z :=
  match query_get "page" GET with
  | None => Some 1
  | Some s => int_of_str P s
  end.

(** The genre name the view reads from the query string. *)
Definition requested_genre (GET : list (string * string)) : string :=
  strip (match query_get "genre" GET with Some s => s | None => "" end).

Definition genre_not_found (genre_name : string) : string :=
  ("Genre " ++ dquote ++ genre_name ++ dquote ++ " not found")%string.

(** *** Rating bounds (C8) *)

(** A record whose rating is 11.5. *)
Definition overrated_record : json :=
  JObj [("id", JInt 1); ("title", JStr "X"); ("vote_average", JFloat (23 # 2))].

(** *** Upsert by provider ID (C2) *)

(** The constraints of the Movie table: unique key, unique provider ID, and
    an auto-increment counter beyond every key in use. *)
Definition store_ok (w : World) : Prop :=
  NoDup (map Movie.id (movies w))
  /\ NoDup (map Movie.tmdb_id (movies w))
  /\ Forall (fun m => Movie.id m < next_movie_id w) (movies w).








(** A record as the provider lists it. *)
Definition alien_record : dict :=
  [("id", JInt 348); ("title", JStr "Alien"); ("overview", JStr "In space");
   ("release_date", JStr "1979-05-25"); ("vote_average", JFloat (81 # 10));
   ("popularity", JInt 70); ("poster_path", JStr "/alien.jpg");
   ("genre_ids", JList [JInt 28; JInt 878])].

Definition alien_row : Movie.t :=
  {| Movie.id := 1; Movie.tmdb_id := 348; Movie.title := "Alien";
     Movie.overview := "In space";
     Movie.release_date := Some {| year := 1979; month := 5; day := 25 |};
     Movie.vote_average := 81 # 10; Movie.popularity := inject_Z 70;
     Movie.poster_path := "/alien.jpg"; Movie.backdrop_path := "" |}.

(** *** Genre associations (C1) *)

(** The store links movie key [mid] to genre key [gid]. *)
Definition linked (w : World) (mid gid : Z) : Prop :=
  exists l, In l (movie_genres w)
            /\ MovieGenre.movie_id l = mid /\ MovieGenre.genre_id l = gid.

(** The genres linked to [movie] are exactly the stored genres whose
    provider ID is in [B]. *)
Definition mirrors (w : World) (movie : Movie.t) (B : list Z) : Prop :=
  forall gid,
    linked w (Movie.id movie) gid
    <-> exists g, In g (genres w) /\ Genre.id g = gid /\ In (Genre.tmdb_id g) B.

(** The record carries the genre-ID list [B]: as the IDs of its [genres]
    objects, else as its [genre_ids], else [B] is empty. *)
Definition supplies_genre_ids (o : dict) (B : list Z) : Prop :=
  (exists gs, dict_lookup "genres" o = Some (JList gs)
              /\ map_res (fun genre => py_getitem genre "id") gs
                 = Ok (map JInt B))
  \/ (dict_lookup "genres" o = None
      /\ dict_lookup "genre_ids" o = Some (JList (map JInt B)))
  \/ (dict_lookup "genres" o = None /\ dict_lookup "genre_ids" o = None
      /\ B = []).

(** One iteration of the loop of [link_genres]. *)
Definition link_one (P : Platform) (movie : Movie.t) (genre_id : json) : M unit :=
  try_except
    (genre <- Genre_get_tmdb_id P genre_id ;;
     MovieGenre_get_or_create movie genre ;;;
     ret tt)
    (fun e =>
       match e with
       | GenreDoesNotExist => ret tt
       | _ => raise e
       end).

(** The Genre table has one row per provider ID. *)
Definition genres_ok (w : World) : Prop :=
  NoDup (map Genre.tmdb_id (genres w)).

(** An entry of the genre catalogue that the backend accepts. *)
Definition catalogue_entry_ok (P : Platform) (v : json) : Prop :=
  exists e z s,
    v = JObj e
    /\ dict_lookup "id" e = Some (JInt z)
    /\ dict_lookup "name" e = Some (JStr s)
    /\ db_int_ok P z = true
    /\ db_varchar_ok P 100 s = true.



(** Lines 45-52 of [fetch_genres], for the payload [genres_data]. *)
Definition catalogue_tail (P : Platform) (genres_data : json) : M (list Genre.t) :=
  has_genres <-
    (if truthy genres_data then lift (py_contains "genres" genres_data)
     else ret false) ;;
  (if has_genres then
     gl <- lift (py_getitem genres_data "genres") ;;
     items <- lift (py_iter gl) ;;
     for_each items
       (fun genre_data =>
          tid <- lift (py_getitem genre_data "id") ;;
          nm <- lift (py_getitem genre_data "name") ;;
          Genre_get_or_create P tid nm ;;;
          ret tt)
   else ret tt) ;;;
  Genre_all P.


(** The two small records of the counterexample: provider ID 1, first with
    the genre-ID list [28], then with an empty list. *)
Definition tagged_record : dict :=
  [("id", JInt 1); ("title", JStr "T"); ("genre_ids", JList [JInt 28])].

Definition untagged_record : dict :=
  [("id", JInt 1); ("title", JStr "T"); ("genre_ids", JList [])].

Definition stored_movie_1 : Movie.t :=
  {| Movie.id := 1; Movie.tmdb_id := 1; Movie.title := "T";
     Movie.overview := ""; Movie.release_date := None;
     Movie.vote_average := 0; Movie.popularity := 0;
     Movie.poster_path := ""; Movie.backdrop_path := "" |}.

(** The store after [tagged_record] and then [untagged_record] have been
    merged into a store that holds the genre Action (provider ID 28). *)
Definition after_both_merges : World :=
  snd (_create_or_update_movie demo_platform (JObj untagged_record) false
         (snd (_create_or_update_movie demo_platform (JObj tagged_record) false
                 (action_world Timeout)))).

(** *** Further properties *)

(** The world is exactly as it was. *)
Definition untouched (w w' : World) : Prop := w' = w.

(** The movies on page [page] of the genre; nothing when the call raises. *)
Definition page_movies (P : Platform) (genre_name : string) (page : Z)
    (w : World) : list Movie.t :=
  match fst (get_movies_by_genre P genre_name page w) with
  | Ok (ms, _) => ms
  | Raise _ => []
  end.

(** [unique_together = ('user', 'movie')] of [UserFavorite]. *)
Definition favorites_unique (f : Favorites) : Prop :=
  forall user movie_id : Z,
    (List.length (UserFavorite_filter user movie_id f) <= 1)%nat.

(** The operations of the service and the views that call them. *)
Inductive entry_point : Type :=
| Service_fetch_genres
| Service_list (op : list_operation)
| Service_fetch_movie_details (tmdb_id : Z)
| Service_create_or_update_movie (movie_data : json) (detailed : bool)
| Service_get_movies_by_genre (genre_name : string) (page : Z)
| View_trending_movies (GET : list (string * string))
| View_popular_movies (GET : list (string * string))
| View_search_movies (GET : list (string * string))
| View_movies_by_genre (GET : list (string * string))
| View_movie_detail (tmdb_id : Z).

(** The world a call leaves behind, whether it returns or raises. *)
Definition world_after (P : Platform) (c : entry_point) (w : World) : World :=
  match c with
  | Service_fetch_genres => snd (fetch_genres P w)
  | Service_list op => snd (run_list_operation P op w)
  | Service_fetch_movie_details tmdb_id => snd (fetch_movie_details P tmdb_id w)
  | Service_create_or_update_movie movie_data detailed =>
      snd (_create_or_update_movie P movie_data detailed w)
  | Service_get_movies_by_genre genre_name page =>
      snd (get_movies_by_genre P genre_name page w)
  | View_trending_movies GET => snd (trending_movies P GET w)
  | View_popular_movies GET => snd (popular_movies P GET w)
  | View_search_movies GET => snd (search_movies_view P GET w)
  | View_movies_by_genre GET => snd (movies_by_genre P GET w)
  | View_movie_detail tmdb_id => snd (MovieDetailView_get P tmdb_id w)
  end.

(** The step that [fetch_genres], the three list operations and
    [fetch_movie_details] start with (lines 37-43, 56-63, 77-83, 97-103,
    115-122): the cached payload, else the payload of the provider, which
    is cached when it is truthy. *)
Definition cached_request (P : Platform) (key endpoint : string)
    (params : option dict) (ttl : Z) : M json :=
  data <- cache_get key ;;
  if negb (truthy data) then
    data <- _make_request P endpoint params ;;
    (if truthy data then cache_set key data ttl else ret tt) ;;;
    ret data
  else ret data.

(** The key and the provider ID of a row. *)
Definition key_and_provider_id (m : Movie.t) : Z * Z :=
  (Movie.id m, Movie.tmdb_id m).

(** On a table that satisfies its constraints, the constraints still hold
    afterwards and every row is still there, at its place, with its key
    and its provider ID; rows are only added at the end. *)
Definition movies_persist (w w' : World) : Prop :=
  store_ok w ->
  store_ok w'
  /\ exists added,
       map key_and_provider_id (movies w')
       = map key_and_provider_id (movies w) ++ added.

(** The primary key and [unique=True] of [Genre.tmdb_id]. *)
Definition genre_table_ok (w : World) : Prop :=
  NoDup (map Genre.id (genres w))
  /\ NoDup (map Genre.tmdb_id (genres w))
  /\ Forall (fun g => Genre.id g < next_genre_id w) (genres w).

Definition link_pair (l : MovieGenre.t) : Z * Z :=
  (MovieGenre.movie_id l, MovieGenre.genre_id l).

(** The primary key and [unique_together = ('movie', 'genre')]. *)
Definition link_table_ok (w : World) : Prop :=
  NoDup (map MovieGenre.id (movie_genres w))
  /\ NoDup (map link_pair (movie_genres w))
  /\ Forall (fun l => MovieGenre.id l < next_movie_genre_id w) (movie_genres w).

(** A run keeps the invariant [I]. *)
Definition keeps (I : World -> Prop) (w w' : World) : Prop := I w -> I w'.

(** Every link joins a stored movie to a stored genre. *)
Definition refs_ok (w : World) : Prop :=
  Forall (fun l => In (MovieGenre.movie_id l) (map Movie.id (movies w))
                   /\ In (MovieGenre.genre_id l) (map Genre.id (genres w)))
    (movie_genres w).

Definition movie_stored (movie : Movie.t) (w : World) : Prop :=
  In (Movie.id movie) (map Movie.id (movies w)).

(** The state of the genre step of a merge: the links are sound and the
    movie it works on is stored. *)
Definition refs_with (movie : Movie.t) (w : World) : Prop :=
  refs_ok w /\ movie_stored movie w.

(** The keys of the Movie and Genre tables stay, and the links are as
    they were. *)
Definition tables_grow (w w' : World) : Prop :=
  (exists added, map Movie.id (movies w') = map Movie.id (movies w) ++ added)
  /\ (exists added, genres w' = genres w ++ added)
  /\ movie_genres w' = movie_genres w.

(** The key holds a payload that the operations take as it is. *)
Definition cached (key : string) (w : World) : Prop :=
  exists p, dict_lookup key (cache w) = Some p /\ truthy p = true.

(** No cache write and no request. *)
Definition offline (w w' : World) : Prop :=
  cache w' = cache w /\ requests_made w' = requests_made w.

(** When the keys are cached: no cache write and no request. *)
Definition cache_suffices (keys : list string) (w w' : World) : Prop :=
  Forall (fun key => cached key w) keys -> offline w w'.

(** Whatever is cached and truthy stays cached as it is. *)
Definition cache_monotone (w w' : World) : Prop :=
  forall key p,
    dict_lookup key (cache w) = Some p -> truthy p = true ->
    dict_lookup key (cache w') = Some p.

(** The entry of [key] is as it was. *)
Definition entry_kept (key : string) (w w' : World) : Prop :=
  dict_lookup key (cache w') = dict_lookup key (cache w).

(** The payload [p] is the catalogue that a fetch started now works on: it
    is cached, or the key misses and the provider answers [p] with a
    status on which [raise_for_status] does not raise. *)
Definition catalogue_is (w : World) (p : json) : Prop :=
  dict_lookup "tmdb_genres" (cache w) = Some p
  \/ (dict_lookup "tmdb_genres" (cache w) = None
      /\ exists status_code,
           next_answer w (Response status_code (Some p))
           /\ (400 <=? status_code) && (status_code <? 600) = false).

(** The store holds the genre Action, the movie with provider ID 1, and
    the link between them. *)
Definition linked_world (answer : http_outcome) : World :=
  set_movie_genres
    (set_movies (action_world answer) [stored_movie_1] 2)
    [{| MovieGenre.id := 1; MovieGenre.movie_id := 1;
        MovieGenre.genre_id := 1 |}] 2.

(** A catalogue with one genre, Science Fiction. *)
Definition scifi_catalog : json :=
  JObj [("genres",
         JList [JObj [("id", JInt 878); ("name", JStr "Science Fiction")]])].

(** Nothing is stored; the first popular page and the catalogue are
    cached. *)
Definition cached_world : World :=
  set_ambient (fresh_world Timeout)
    [("popular_movies_1", one_movie_payload); ("tmdb_genres", renamed_catalog)]
    0 [].

(** A record without [id]. *)
Definition anonymous_record : dict := [("title", JStr "T")].

(** A record whose [genre_ids] is a number. *)
Definition malformed_genres_record : dict :=
  [("id", JInt 1); ("title", JStr "T"); ("genre_ids", JInt 5)].


(* ------------------------------------------------------------------ *)
(** ** Reasoning about the monad *)

Lemma bind_Ok_inv {A B} (m : M A) (k : A -> M B) w b w' :
  bind m k w = (Ok b, w') ->
  exists a w1, m w = (Ok a, w1) /\ k a w1 = (Ok b, w').
Proof.
  unfold bind. destruct (m w) as [[a|e] w1]; intro H.
  - exists a, w1. split; [reflexivity | exact H].
  - discriminate H.
Qed.

Lemma bind_Ok {A B} (m : M A) (k : A -> M B) w a w1 :
  m w = (Ok a, w1) -> bind m k w = k a w1.
Proof. unfold bind. intros ->. reflexivity. Qed.

Lemma bind_Raise {A B} (m : M A) (k : A -> M B) w e w1 :
  m w = (Raise e, w1) -> bind m k w = (Raise e, w1).
Proof. unfold bind. intros ->. reflexivity. Qed.

Lemma lift_Ok_inv {A} (r : Res A) w a w' :
  lift r w = (Ok a, w') -> r = Ok a /\ w' = w.
Proof. unfold lift. intro H. inversion H. split; reflexivity. Qed.

Section FrameRules.
Context (R : World -> World -> Prop) `{Frame R}.

Lemma preserves_ret {A} (a : A) : preserves R (ret a).
Proof. intro w. apply frame_refl. Qed.

Lemma preserves_raise {A} (e : exn) : preserves R (@raise A e).
Proof. intro w. apply frame_refl. Qed.

Lemma preserves_lift {A} (r : Res A) : preserves R (lift r).
Proof. intro w. apply frame_refl. Qed.

Lemma preserves_bind {A B} (m : M A) (k : A -> M B) :
  preserves R m -> (forall a, preserves R (k a)) -> preserves R (bind m k).
Proof.
  intros Hm Hk w. unfold bind. specialize (Hm w).
  destruct (m w) as [[a|e] w1]; simpl in *.
  - eapply frame_trans; [exact Hm | apply Hk].
  - exact Hm.
Qed.

Lemma preserves_try_except {A} (m : M A) (h : exn -> M A) :
  preserves R m -> (forall e, preserves R (h e)) -> preserves R (try_except m h).
Proof.
  intros Hm Hh w. unfold try_except. specialize (Hm w).
  destruct (m w) as [[a|e] w1]; simpl in *.
  - exact Hm.
  - eapply frame_trans; [exact Hm | apply Hh].
Qed.

Lemma preserves_for_each {A} (xs : list A) (body : A -> M unit) :
  (forall x, preserves R (body x)) -> preserves R (for_each xs body).
Proof.
  intro Hb. induction xs as [|x xs IH]; simpl.
  - apply preserves_ret.
  - apply preserves_bind; [apply Hb | intros _; exact IH].
Qed.

Lemma preserves_not_null {A} (v : option A) : preserves R (not_null v).
Proof. destruct v; [apply preserves_ret | apply preserves_raise]. Qed.

Lemma preserves_check_int P z : preserves R (check_int P z).
Proof.
  unfold check_int. destruct (db_int_ok P z);
    [apply preserves_ret | apply preserves_raise].
Qed.

Lemma preserves_check_text P s : preserves R (check_text P s).
Proof.
  unfold check_text. destruct (db_text_ok P s);
    [ apply preserves_ret | apply preserves_raise ].
Qed.

Lemma preserves_check_float P q : preserves R (check_float P q).
Proof.
  unfold check_float. destruct (db_float_ok P q);
    [ apply preserves_ret | apply preserves_raise ].
Qed.

Lemma preserves_check_varchar P n s : preserves R (check_varchar P n s).
Proof.
  unfold check_varchar. destruct (db_varchar_ok P n s);
    [apply preserves_ret | apply preserves_raise].
Qed.
End FrameRules.

(** Splits a goal [preserves R m] along the structure of [m]. *)
Ltac frame_step :=
  first
    [ solve [apply preserves_ret; exact _]
    | solve [apply preserves_raise; exact _]
    | solve [apply preserves_lift; exact _]
    | solve [apply preserves_not_null; exact _]
    | solve [apply preserves_check_int; exact _]
    | solve [apply preserves_check_varchar; exact _]
    | solve [apply preserves_check_text; exact _]
    | solve [apply preserves_check_float; exact _]
    | apply preserves_bind; [ exact _ | | intro ]
    | apply preserves_try_except; [ exact _ | | intro ]
    | apply preserves_for_each; [ exact _ | intro ]
    | match goal with
      | |- preserves _ (match ?x with _ => _ end) => destruct x
      | |- preserves _ (let (_, _) := ?x in _) => destruct x
      end
    | match goal with
      | |- preserves _ (fun w => _) => intro; simpl
      end ].

Ltac frame := repeat frame_step.

(** The same, trying [known] (footprints already proved) first. *)
Ltac frame_with known := repeat first [ known | frame_step ].

(** Closes a goal with a footprint lemma and its frame instances. *)
Ltac by_frame L := solve [apply L; exact _].

(** *** Footprints of the operations *)

Section Footprints.
Variable P : Platform.
Context (R : World -> World -> Prop) `{Frame R}.

Lemma preserves_Genre_get_tmdb_id v : preserves R (Genre_get_tmdb_id P v).
Proof.
  unfold Genre_get_tmdb_id. frame.
  destruct a as [z|]; [ | apply frame_refl ].
  destruct (Genre_filter_tmdb_id z w) as [|g [|g' l]]; apply frame_refl.
Qed.

Lemma preserves_Genre_get_name_iexact n :
  preserves R (Genre_get_name_iexact P n).
Proof.
  intro w. unfold Genre_get_name_iexact.
  destruct (filter _ (genres w)) as [|g [|g' l]]; apply frame_refl.
Qed.

Lemma preserves_Genre_all : preserves R (Genre_all P).
Proof. intro w. apply frame_refl. Qed.

Lemma preserves_Movie_prepare pk z d : preserves R (Movie_prepare P pk z d).
Proof. unfold Movie_prepare. frame. Qed.

Lemma preserves_record_genre_ids movie_data :
  preserves R (record_genre_ids movie_data).
Proof. unfold record_genre_ids. frame. Qed.

Lemma preserves_raise_for_status s : preserves R (raise_for_status s).
Proof. unfold raise_for_status. frame. Qed.

Lemma preserves_response_json b : preserves R (response_json P b).
Proof. unfold response_json. frame. Qed.

Section Ambient.
Context `{!AmbientFrame R}.

Lemma preserves_emit e : preserves R (emit e).
Proof. intro w. apply ambient_frame. Qed.

Lemma preserves_cache_get key : preserves R (cache_get key).
Proof. intro w. apply ambient_frame. Qed.

Lemma preserves_cache_set key v ttl : preserves R (cache_set key v ttl).
Proof. intro w. apply ambient_frame. Qed.

Lemma preserves_requests_get url params : preserves R (requests_get url params).
Proof. intro w. apply ambient_frame. Qed.

Lemma preserves_make_request endpoint params :
  preserves R (_make_request P endpoint params).
Proof.
  unfold _make_request.
  apply preserves_try_except; [ exact _ | | intro e ].
  - apply preserves_bind; [ exact _ | by_frame preserves_requests_get | intro r ].
    destruct r;
      frame_with ltac:(first [ by_frame preserves_raise_for_status
                             | by_frame preserves_response_json ]).
  - destruct e; frame_with ltac:(by_frame preserves_emit).
Qed.
End Ambient.

Section Genres.
Context `{!GenreInsertFrame R}.

Lemma preserves_Genre_create k nm : preserves R (Genre_create P k nm).
Proof. unfold Genre_create. frame. apply genre_insert_frame. Qed.

Lemma preserves_Genre_get_or_create v nm :
  preserves R (Genre_get_or_create P v nm).
Proof.
  unfold Genre_get_or_create.
  frame_with ltac:(first [ by_frame preserves_Genre_get_tmdb_id
                         | by_frame preserves_Genre_create ]).
Qed.

Lemma preserves_fetch_genres `{!AmbientFrame R} : preserves R (fetch_genres P).
Proof.
  unfold fetch_genres.
  apply preserves_bind; [ exact _ | by_frame preserves_cache_get | intro gd ].
  apply preserves_bind; [ exact _ | | intro gd' ].
  { destruct (negb (truthy gd));
      frame_with ltac:(first [ by_frame preserves_make_request
                             | by_frame preserves_cache_set ]). }
  apply preserves_bind; [ exact _ | destruct (truthy gd'); frame | intro hg ].
  apply preserves_bind; [ exact _ | | intros _; by_frame preserves_Genre_all ].
  destruct hg; frame_with ltac:(by_frame preserves_Genre_get_or_create).
Qed.
End Genres.

Section Movies.
Context `{!MovieFrame R}.

Lemma preserves_Movie_insert m : 
  preserves R (fun w' => (Ok m, set_movies w' (movies w' ++ [m]) (next_movie_id w' + 1))).
Proof. intro w. apply movie_frame. Qed.

Lemma preserves_Movie_create k d : preserves R (Movie_create P k d).
Proof.
  intro w. unfold Movie_create.
  generalize (next_movie_id w) at 1. intro pk. revert w.
  fold (preserves R
          (m <- Movie_prepare P pk (match k with Some z => z | None => 0 end) d ;;
           z <- not_null k ;;
           check_int P z ;;;
           fun w' => (Ok m, set_movies w' (movies w' ++ [m]) (next_movie_id w' + 1)))).
  apply preserves_bind; [ exact _ | by_frame preserves_Movie_prepare | intro m ].
  apply preserves_bind; [ exact _ | frame | intro z ].
  apply preserves_bind; [ exact _ | frame | intros _ ].
  by_frame preserves_Movie_insert.
Qed.

Lemma preserves_Movie_save old d : preserves R (Movie_save P old d).
Proof.
  unfold Movie_save.
  apply preserves_bind; [ exact _ | by_frame preserves_Movie_prepare | intro m ].
  intro w. apply movie_frame.
Qed.

Lemma preserves_Movie_update_or_create v d :
  preserves R (Movie_update_or_create P v d).
Proof.
  unfold Movie_update_or_create.
  apply preserves_bind; [ exact _ | frame | intros k w ].
  destruct (match k with Some z => Movie_filter_tmdb_id z w | None => [] end)
    as [|old [|old' l]].
  - apply preserves_bind; [ exact _ | by_frame preserves_Movie_create | intro; frame ].
  - apply preserves_bind; [ exact _ | by_frame preserves_Movie_save | intro; frame ].
  - apply frame_refl.
Qed.

Lemma preserves_upsert_movie movie_data : preserves R (upsert_movie P movie_data).
Proof.
  unfold upsert_movie.
  frame_with ltac:(by_frame preserves_Movie_update_or_create).
Qed.
End Movies.

Section Links.
Context `{!LinkFrame R}.

Lemma preserves_MovieGenre_delete movie :
  preserves R (MovieGenre_filter_movie_delete movie).
Proof. intro w. apply link_frame. Qed.

Lemma preserves_MovieGenre_get_or_create movie genre :
  preserves R (MovieGenre_get_or_create movie genre).
Proof.
  intro w. unfold MovieGenre_get_or_create.
  destruct (filter _ (movie_genres w)) as [|l [|l' ls]]; simpl;
    [apply link_frame | apply frame_refl | apply frame_refl].
Qed.

Lemma preserves_link_genres movie items :
  preserves R (link_genres P movie items).
Proof.
  unfold link_genres.
  frame_with ltac:(first [ by_frame preserves_Genre_get_tmdb_id
                         | by_frame preserves_MovieGenre_get_or_create ]).
Qed.
End Links.

Section Merge.
Context `{!AmbientFrame R} `{!GenreInsertFrame R} `{!LinkFrame R}.

Lemma preserves_replace_genres movie_data movie :
  preserves R (replace_genres P movie_data movie).
Proof.
  unfold replace_genres.
  apply preserves_bind; [ exact _ | by_frame preserves_record_genre_ids | intro ids ].
  destruct (truthy ids);
    frame_with ltac:(first [ by_frame preserves_fetch_genres
                           | by_frame preserves_MovieGenre_delete
                           | by_frame preserves_link_genres ]).
Qed.

Lemma preserves_create_or_update_movie `{!MovieFrame R} movie_data detailed :
  preserves R (_create_or_update_movie P movie_data detailed).
Proof.
  unfold _create_or_update_movie.
  frame_with ltac:(first [ by_frame preserves_upsert_movie
                         | by_frame preserves_replace_genres
                         | by_frame preserves_emit ]).
Qed.
End Merge.
End Footprints.

(** *** The frames used below *)

#[local] Instance movies_kept_Frame : Frame movies_kept.
Proof.
  split; unfold movies_kept.
  - intro w. split; reflexivity.
  - intros a b c [H1 H2] [H3 H4]. split; congruence.
Qed.

#[local] Instance movies_kept_Ambient : AmbientFrame movies_kept.
Proof. intros w c n t. split; reflexivity. Qed.

#[local] Instance movies_kept_GenreInsert : GenreInsertFrame movies_kept.
Proof. intros w g. split; reflexivity. Qed.

#[local] Instance movies_kept_Link : LinkFrame movies_kept.
Proof. intros w ls n. split; reflexivity. Qed.

#[local] Instance genres_grow_Frame : Frame genres_grow.
Proof.
  split; unfold genres_grow.
  - intro w. exists []. symmetry. apply app_nil_r.
  - intros a b c [x Hx] [y Hy]. exists (x ++ y).
    rewrite Hy, Hx. symmetry. apply app_assoc.
Qed.

#[local] Instance genres_grow_Ambient : AmbientFrame genres_grow.
Proof. intros w c n t. exists []. symmetry. apply app_nil_r. Qed.

#[local] Instance genres_grow_GenreInsert : GenreInsertFrame genres_grow.
Proof. intros w g. exists [g]. reflexivity. Qed.

#[local] Instance genres_grow_Link : LinkFrame genres_grow.
Proof. intros w ls n. exists []. symmetry. apply app_nil_r. Qed.

#[local] Instance genres_grow_Movie : MovieFrame genres_grow.
Proof. intros w ms n. exists []. symmetry. apply app_nil_r. Qed.

#[local] Instance genres_kept_Frame : Frame genres_kept.
Proof.
  split; unfold genres_kept.
  - intro w. split; reflexivity.
  - intros a b c [H1 H2] [H3 H4]. split; congruence.
Qed.

#[local] Instance genres_kept_Ambient : AmbientFrame genres_kept.
Proof. intros w c n t. split; reflexivity. Qed.

#[local] Instance genres_kept_Link : LinkFrame genres_kept.
Proof. intros w ls n. split; reflexivity. Qed.

#[local] Instance genres_kept_Movie : MovieFrame genres_kept.
Proof. intros w ms n. split; reflexivity. Qed.

#[local] Instance links_kept_Frame : Frame links_kept.
Proof.
  split; unfold links_kept.
  - intro w. split; reflexivity.
  - intros a b c [H1 H2] [H3 H4]. split; congruence.
Qed.

#[local] Instance links_kept_Ambient : AmbientFrame links_kept.
Proof. intros w c n t. split; reflexivity. Qed.

#[local] Instance links_kept_GenreInsert : GenreInsertFrame links_kept.
Proof. intros w g. split; reflexivity. Qed.

#[local] Instance links_kept_Movie : MovieFrame links_kept.
Proof. intros w ms n. split; reflexivity. Qed.

#[local] Instance ambient_kept_Frame : Frame ambient_kept.
Proof.
  split; unfold ambient_kept.
  - intro w. repeat split; reflexivity.
  - intros a b c (H1 & H2 & H3 & H4) (H5 & H6 & H7 & H8).
    repeat split; congruence.
Qed.

#[local] Instance ambient_kept_Link : LinkFrame ambient_kept.
Proof. intros w ls n. repeat split; reflexivity. Qed.

#[local] Instance ambient_kept_Movie : MovieFrame ambient_kept.
Proof. intros w ms n. repeat split; reflexivity. Qed.

#[local] Instance ambient_kept_GenreInsert : GenreInsertFrame ambient_kept.
Proof. intros w g. repeat split; reflexivity. Qed.

(* ------------------------------------------------------------------ *)
(** ** Genre catalogue (C9) *)

(** C9, counterexample.  The store holds genre 28 as Action; the catalogue
    fetch receives the name Adventure for 28, and the stored name is not
    the provider's latest value. *)
Lemma fetch_genres_keeps_old_name :
  ~ (forall g,
       In g (genres (snd (fetch_genres demo_platform
                            (action_world (Response 200 (Some renamed_catalog)))))) ->
       Genre.tmdb_id g = 28 ->
       Genre.name g = "Adventure").
Proof.
  intro H. specialize (H action_genre).
  assert (Hin : In action_genre
                  (genres (snd (fetch_genres demo_platform
                     (action_world (Response 200 (Some renamed_catalog)))))))
    by (vm_compute; left; reflexivity).
  specialize (H Hin eq_refl). discriminate H.
Qed.

(** C9, amended.  A genre-catalogue fetch performs no name correction:
    whatever the cache or the provider supplies and whether or not the fetch
    raises, every genre row stored before is still stored afterwards with
    the same key, provider ID and name; the fetch only adds rows
    ([get_or_create]). *)
Theorem fetch_genres_never_renames (P : Platform) (w : World) :
  exists added, genres (snd (fetch_genres P w)) = genres w ++ added.
Proof. exact (preserves_fetch_genres P (R := genres_grow) w). Qed.

(* ------------------------------------------------------------------ *)
(** ** Blank search queries (C6) *)

Lemma lstrip_blank (s : string) : blank s -> lstrip s = "".
Proof.
  unfold blank. induction s as [|c s IH]; simpl; intro H.
  - reflexivity.
  - apply andb_true_iff in H. destruct H as [Hc Hs].
    rewrite Hc. apply IH. exact Hs.
Qed.

Lemma strip_blank (s : string) : blank s -> strip s = "".
Proof. intro H. unfold strip. rewrite (lstrip_blank H). reflexivity. Qed.

(** C6.  For a query that is empty or whitespace-only, [search_movies]
    returns the empty sequence with zero total pages and leaves the world
    as it was: the cache is neither read nor written, no request is sent
    (the trace and the request counter are those of the start). *)
Theorem search_blank_query_touches_nothing
    (P : Platform) (query : string) (page : Z) (w : World) :
  blank query ->
  search_movies P query page w = (Ok ([], JInt 0), w).
Proof.
  intro H. unfold search_movies. rewrite (strip_blank H). reflexivity.
Qed.

Lemma search_blank_query_witness :
  blank "  " /\
  search_movies demo_platform "  " 1 (fresh_world Timeout)
  = (Ok ([], JInt 0), fresh_world Timeout).
Proof.
  split.
  - reflexivity.
  - apply search_blank_query_touches_nothing. reflexivity.
Defined.

(* ------------------------------------------------------------------ *)
(** ** Transport failures (C4) *)

Lemma make_request_failure P endpoint params w r :
  next_answer w r -> request_fails r = true ->
  exists w', _make_request P endpoint params w = (Ok JNull, w')
             /\ movies_kept w w' /\ genres_kept w w' /\ links_kept w w'.
Proof.
  intros Hn Hf. unfold _make_request, try_except, bind, requests_get.
  rewrite Hn. destruct r as [| |s b]; simpl in *.
  - eexists. split; [reflexivity|]. repeat split.
  - eexists. split; [reflexivity|]. repeat split.
  - unfold raise_for_status. rewrite Hf. simpl.
    eexists. split; [reflexivity|]. repeat split.
Qed.

Lemma cache_get_cold key w :
  cold_cache w ->
  cache_get key w
  = (Ok JNull, set_ambient w (cache w) (requests_made w) (CacheGet key :: trace w)).
Proof. intro H. unfold cache_get. rewrite H. reflexivity. Qed.

Lemma next_answer_after_cache_get w r c t :
  next_answer w r -> next_answer (set_ambient w c (requests_made w) t) r.
Proof. intros H url params. apply H. Qed.

Lemma movies_of_payload_absent P w :
  movies_of_payload P JNull w = (Ok ([], JInt 0), w).
Proof. reflexivity. Qed.

(** C4, counterexample.  Status 300 is outside 200..299, yet
    [raise_for_status] does not raise on it: the remote client returns the
    body, and the popular operation returns a movie and one total page. *)
Lemma status_300_is_not_absent :
  non_2xx_failure (Response 300 (Some one_movie_payload)) = true
  /\ cold_cache (fresh_world (Response 300 (Some one_movie_payload)))
  /\ fst (_make_request demo_platform "movie/popular" None
            (fresh_world (Response 300 (Some one_movie_payload))))
     = Ok one_movie_payload
  /\ fst (fetch_popular_movies demo_platform 1
            (fresh_world (Response 300 (Some one_movie_payload))))
     <> Ok ([], JInt 0).
Proof.
  split; [reflexivity|]. split; [intro key; reflexivity|].
  split; [reflexivity|]. vm_compute. discriminate.
Qed.

(** C4, amended.  With a cold cache, when the remote call times out, fails
    to connect or comes back with a status in 400..599 (the statuses on
    which [raise_for_status] raises), the remote client returns [None]
    instead of raising, and each of the trending, popular and search
    operations returns the empty sequence with zero total pages, not an
    exception. *)
Theorem request_failure_yields_empty
    (P : Platform) (op : list_operation) (w : World) (r : http_outcome) :
  cold_cache w -> next_answer w r -> request_fails r = true ->
  (forall endpoint params, fst (_make_request P endpoint params w) = Ok JNull)
  /\ fst (run_list_operation P op w) = Ok ([], JInt 0).
Proof.
  intros Hc Hn Hf. split.
  - intros endpoint params.
    destruct (make_request_failure P endpoint params Hn Hf) as (w' & -> & _).
    reflexivity.
  - assert (Hop : forall key endpoint params (ttl : Z),
      fst ((movies_data <- cache_get key ;;
            movies_data <-
              (if negb (truthy movies_data) then
                 movies_data <- _make_request P endpoint params ;;
                 (if truthy movies_data then cache_set key movies_data ttl
                  else ret tt) ;;;
                 ret movies_data
               else ret movies_data) ;;
            movies_of_payload P movies_data) w) = Ok ([], JInt 0)).
    { intros key endpoint params ttl.
      rewrite (bind_Ok _ _ _ (cache_get_cold key Hc)). simpl negb. cbv iota.
      destruct (make_request_failure P endpoint params
                  (next_answer_after_cache_get (cache w) (CacheGet key :: trace w) Hn) Hf)
        as (w' & Hw' & _).
      unfold bind at 1. unfold bind at 1. rewrite Hw'. reflexivity. }
    destruct op as [tw page | page | query page]; simpl.
    + apply Hop.
    + apply Hop.
    + unfold search_movies. destruct (strip query =? "")%string.
      * reflexivity.
      * apply Hop.
Qed.

Lemma request_failure_witness :
  cold_cache (fresh_world Timeout)
  /\ fst (run_list_operation demo_platform (Popular 1) (fresh_world Timeout))
     = Ok ([], JInt 0).
Proof.
  split.
  - intro key. reflexivity.
  - apply (request_failure_yields_empty demo_platform (Popular 1)
             (w := fresh_world Timeout) (r := Timeout)).
    + intro key. reflexivity.
    + intros url params. reflexivity.
    + reflexivity.
Defined.

(* ------------------------------------------------------------------ *)
(** ** Batches of records (C3) and total pages (C10) *)



(** A record that is not an object makes the handler itself raise. *)
Lemma merge_non_object_raises P v detailed w :
  ~ is_object v ->
  fst (_create_or_update_movie P v detailed w) = Raise AttributeError.
Proof.
  intro Hv. destruct v; simpl in Hv; try (exfalso; apply Hv; exact I);
    reflexivity.
Qed.

(** C3, the code at the failing input.  The provider answers the popular
    request with two records, the second being [null]: the operation raises
    [AttributeError] to its caller instead of returning the one movie that
    merges, although the first record has been stored. *)
Theorem popular_batch_with_null_record_raises :
  fst (fetch_popular_movies demo_platform 1
         (fresh_world (Response 200 (Some batch_with_null))))
  = Raise AttributeError
  /\ List.length
       (movies (snd (fetch_popular_movies demo_platform 1
                       (fresh_world (Response 200 (Some batch_with_null))))))
     = 1%nat.
Proof. split; vm_compute; reflexivity. Qed.


Lemma make_request_success P endpoint params w s p :
  next_answer w (Response s (Some p)) ->
  (400 <=? s) && (s <? 600) = false ->
  exists w', _make_request P endpoint params w = (Ok p, w').
Proof.
  intros Hn Hs. unfold _make_request, try_except, bind, requests_get.
  rewrite Hn. unfold raise_for_status. rewrite Hs. simpl.
  eexists. reflexivity.
Qed.

Lemma cache_get_hit key w p :
  dict_lookup key (cache w) = Some p ->
  cache_get key w
  = (Ok p, set_ambient w (cache w) (requests_made w) (CacheGet key :: trace w)).
Proof. intro H. unfold cache_get. rewrite H. reflexivity. Qed.

Lemma cache_get_miss key w :
  dict_lookup key (cache w) = None ->
  cache_get key w
  = (Ok JNull, set_ambient w (cache w) (requests_made w) (CacheGet key :: trace w)).
Proof. intro H. unfold cache_get. rewrite H. reflexivity. Qed.





(* ------------------------------------------------------------------ *)
(** ** Ordering and pagination by genre (C5) *)

Section SortFacts.
Variable A : Type.
Variable leb : A -> A -> bool.

Lemma insert_sorted_perm (x : A) (l : list A) :
  Permutation (x :: l) (insert_sorted leb x l).
Proof.
  induction l as [|y l IH]; simpl.
  - apply Permutation_refl.
  - destruct (leb x y).
    + apply Permutation_refl.
    + eapply perm_trans; [apply perm_swap | apply perm_skip; exact IH].
Qed.

Lemma order_by_perm (l : list A) : Permutation l (order_by leb l).
Proof.
  induction l as [|x l IH]; simpl.
  - apply perm_nil.
  - eapply perm_trans; [apply perm_skip; exact IH | apply insert_sorted_perm].
Qed.

(** The result is sorted by any transitive relation that the comparison
    follows in both of its answers. *)
Variable before : A -> A -> Prop.
Hypothesis before_trans : forall a b c, before a b -> before b c -> before a c.
Hypothesis yes_before : forall a b, leb a b = true -> before a b.
Hypothesis no_before : forall a b, leb a b = false -> before b a.

Lemma insert_sorted_sorted (x : A) (l : list A) :
  StronglySorted before l -> StronglySorted before (insert_sorted leb x l).
Proof.
  induction 1 as [|y l Hs IH Hy]; simpl.
  - constructor; constructor.
  - destruct (leb x y) eqn:E.
    + constructor.
      * constructor; assumption.
      * constructor; [ exact (yes_before E) | ].
        eapply Forall_impl; [|exact Hy]. intros z Hz.
        exact (before_trans (yes_before E) Hz).
    + constructor; [exact IH|].
      eapply Permutation_Forall; [apply insert_sorted_perm|].
      constructor; [ exact (no_before E) | exact Hy ].
Qed.

Lemma order_by_sorted (l : list A) : StronglySorted before (order_by leb l).
Proof.
  induction l as [|x l IH]; simpl.
  - constructor.
  - apply insert_sorted_sorted. exact IH.
Qed.
End SortFacts.

Lemma by_popularity_yes P offset a b :
  by_popularity P offset a b = true ->
  (Movie.popularity b <= Movie.popularity a)%Q.
Proof.
  unfold by_popularity.
  destruct (Qeq_bool (Movie.popularity a) (Movie.popularity b)) eqn:E.
  - intros _. apply Qeq_bool_iff in E. rewrite E. apply Qle_refl.
  - apply Qle_bool_iff.
Qed.

Lemma by_popularity_no P offset a b :
  by_popularity P offset a b = false ->
  (Movie.popularity a <= Movie.popularity b)%Q.
Proof.
  unfold by_popularity.
  destruct (Qeq_bool (Movie.popularity a) (Movie.popularity b)) eqn:E.
  - intros _. apply Qeq_bool_iff in E. rewrite E. apply Qle_refl.
  - intro H.
    destruct (Qlt_le_dec (Movie.popularity a) (Movie.popularity b)) as [Hlt|Hle].
    + apply Qlt_le_weak. exact Hlt.
    + apply Qle_bool_iff in Hle. congruence.
Qed.

Lemma order_by_popularity_sorted P offset (ms : list Movie.t) :
  StronglySorted (fun a b => (Movie.popularity b <= Movie.popularity a)%Q)
    (order_by (by_popularity P offset) ms).
Proof.
  apply order_by_sorted.
  - intros a b c Hab Hbc. eapply Qle_trans; eassumption.
  - intros a b. apply by_popularity_yes.
  - intros a b. apply by_popularity_no.
Qed.

(** C5, counterexample.  The genre Action is stored; for page 0 the slice
    starts at -20 and the queryset raises instead of returning a page.
    With two stored genres matching the name, the lookup raises for every
    page. *)
Lemma by_genre_raises :
  genres_named demo_platform "action" (action_world Timeout) = [action_genre]
  /\ fst (get_movies_by_genre demo_platform "action" 0 (action_world Timeout))
     = Raise ValueError
  /\ fst (get_movies_by_genre demo_platform "action" 1 two_actions_world)
     = Raise MultipleObjectsReturned.
Proof. repeat split. Qed.

Lemma get_movies_by_genre_unique P genre_name page w g :
  genres_named P genre_name w = [g] ->
  1 <= page ->
  db_offset_ok P ((page - 1) * 20) = true ->
  get_movies_by_genre P genre_name page w
  = (Ok (slice (order_by (by_popularity P ((page - 1) * 20))
                  (Movie_filter_genres g w))
           ((page - 1) * 20) ((page - 1) * 20 + 20),
         (Z.of_nat (List.length (Movie_filter_genres g w)) + 19) / 20), w).
Proof.
  intros Hg Hp Hoff. unfold get_movies_by_genre, try_except, bind at 1.
  unfold Genre_get_name_iexact. unfold genres_named in Hg. rewrite Hg.
  assert (H1 : ((page - 1) * 20 <? 0) = false) by (apply Z.ltb_ge; lia).
  assert (H2 : ((page - 1) * 20 + 20 <? 0) = false) by (apply Z.ltb_ge; lia).
  unfold bind, ret. rewrite H1, H2. simpl. rewrite Hoff. reflexivity.
Qed.

Lemma get_movies_by_genre_below_one P genre_name page w g :
  genres_named P genre_name w = [g] ->
  page < 1 ->
  get_movies_by_genre P genre_name page w = (Raise ValueError, w).
Proof.
  intros Hg Hp. unfold get_movies_by_genre, try_except, bind at 1.
  unfold Genre_get_name_iexact. unfold genres_named in Hg. rewrite Hg.
  assert (H1 : ((page - 1) * 20 <? 0) = true) by (apply Z.ltb_lt; lia).
  unfold bind, raise. rewrite H1. reflexivity.
Qed.

Lemma get_movies_by_genre_offset_refused P genre_name page w g :
  genres_named P genre_name w = [g] ->
  1 <= page ->
  db_offset_ok P ((page - 1) * 20) = false ->
  get_movies_by_genre P genre_name page w = (Raise DatabaseError, w).
Proof.
  intros Hg Hp Hoff. unfold get_movies_by_genre, try_except, bind at 1.
  unfold Genre_get_name_iexact. unfold genres_named in Hg. rewrite Hg.
  assert (H1 : ((page - 1) * 20 <? 0) = false) by (apply Z.ltb_ge; lia).
  assert (H2 : ((page - 1) * 20 + 20 <? 0) = false) by (apply Z.ltb_ge; lia).
  unfold bind, ret. rewrite H1, H2. simpl. rewrite Hoff. reflexivity.
Qed.

Lemma get_movies_by_genre_several P genre_name page w g g' rest :
  genres_named P genre_name w = g :: g' :: rest ->
  get_movies_by_genre P genre_name page w = (Raise MultipleObjectsReturned, w).
Proof.
  intros Hg. unfold get_movies_by_genre, try_except, bind at 1.
  unfold Genre_get_name_iexact. unfold genres_named in Hg. rewrite Hg.
  reflexivity.
Qed.

(** C5, amended.  For every genre name matched by exactly one stored genre
    and every page number from 1 on whose offset [(page - 1) * 20] the
    backend accepts, [get_movies_by_genre] returns, from the stored movies
    linked to that genre put in descending order of popularity (movies of
    equal popularity as the backend returns them), the slice of at most 20
    that starts at index [(page - 1) * 20], and reports as total pages the
    ceiling of the movie count over 20; 45 movies give 3 pages.  For a page
    number below 1, for an offset that the backend does not accept, and
    when several stored genres match the name, it raises and returns
    nothing. *)
Theorem by_genre_page_of_twenty
    (P : Platform) (genre_name : string) (page : Z) (w : World) :
  (forall g,
     genres_named P genre_name w = [g] ->
     1 <= page ->
     db_offset_ok P ((page - 1) * 20) = true ->
     exists sorted total_pages,
       Permutation (Movie_filter_genres g w) sorted
       /\ StronglySorted
            (fun a b => (Movie.popularity b <= Movie.popularity a)%Q) sorted
       /\ get_movies_by_genre P genre_name page w
          = (Ok (firstn 20 (skipn (Z.to_nat ((page - 1) * 20)) sorted),
                 total_pages), w)
       /\ 20 * (total_pages - 1)
          < Z.of_nat (List.length (Movie_filter_genres g w))
          <= 20 * total_pages
       /\ (List.length (Movie_filter_genres g w) = 45%nat -> total_pages = 3))
  /\ (forall g,
        genres_named P genre_name w = [g] -> page < 1 ->
        get_movies_by_genre P genre_name page w = (Raise ValueError, w))
  /\ (forall g,
        genres_named P genre_name w = [g] -> 1 <= page ->
        db_offset_ok P ((page - 1) * 20) = false ->
        get_movies_by_genre P genre_name page w = (Raise DatabaseError, w))
  /\ (forall g g' rest,
        genres_named P genre_name w = g :: g' :: rest ->
        get_movies_by_genre P genre_name page w
        = (Raise MultipleObjectsReturned, w)).
Proof.
  split; [ | split; [ | split ] ].
  - intros g Hg Hp Hoff.
    set (ms := Movie_filter_genres g w).
    exists (order_by (by_popularity P ((page - 1) * 20)) ms).
    exists ((Z.of_nat (List.length ms) + 19) / 20).
    split; [ apply order_by_perm | ]. split.
    { apply order_by_popularity_sorted. }
    split.
    { rewrite (get_movies_by_genre_unique P genre_name w Hg Hp Hoff). fold ms.
      unfold slice.
      replace (Z.to_nat ((page - 1) * 20 + 20 - (page - 1) * 20)) with 20%nat
        by (replace ((page - 1) * 20 + 20 - (page - 1) * 20) with 20 by lia;
            reflexivity).
      reflexivity. }
    split.
    + pose proof (Z.div_mod (Z.of_nat (List.length ms) + 19) 20 ltac:(lia)) as Hd.
      pose proof (Z.mod_pos_bound (Z.of_nat (List.length ms) + 19) 20 ltac:(lia)).
      lia.
    + intro H45. rewrite H45. reflexivity.
  - intros g Hg Hp. exact (get_movies_by_genre_below_one P genre_name w Hg Hp).
  - intros g Hg Hp Hoff.
    exact (get_movies_by_genre_offset_refused P genre_name w Hg Hp Hoff).
  - intros g g' rest Hg.
    exact (get_movies_by_genre_several P genre_name page w Hg).
Qed.

Lemma by_genre_page_witness :
  genres_named demo_platform "ACTION" forty_five_world = [action_genre]
  /\ (exists sorted,
        get_movies_by_genre demo_platform "ACTION" 3 forty_five_world
        = (Ok (firstn 20 (skipn 40 sorted), 3), forty_five_world))
  /\ get_movies_by_genre demo_platform "ACTION" 0 forty_five_world
     = (Raise ValueError, forty_five_world)
  /\ get_movies_by_genre demo_platform "ACTION" 461168601842738792
       forty_five_world
     = (Raise DatabaseError, forty_five_world)
  /\ get_movies_by_genre demo_platform "action" 1 two_actions_world
     = (Raise MultipleObjectsReturned, two_actions_world).
Proof.
  split; [reflexivity|]. split; [ | split; [ | split ] ].
  - destruct (proj1 (by_genre_page_of_twenty demo_platform "ACTION" 3
                       forty_five_world) action_genre)
      as (sorted & tp & _ & _ & Hrun & _ & H45).
    + reflexivity.
    + lia.
    + reflexivity.
    + exists sorted. rewrite Hrun. rewrite H45; reflexivity.
  - apply (proj1 (proj2 (by_genre_page_of_twenty demo_platform "ACTION" 0
                           forty_five_world)) action_genre).
    + reflexivity.
    + lia.
  - apply (proj1 (proj2 (proj2 (by_genre_page_of_twenty demo_platform "ACTION"
                                  461168601842738792 forty_five_world)))
             action_genre).
    + reflexivity.
    + lia.
    + reflexivity.
  - eapply (proj2 (proj2 (proj2 (by_genre_page_of_twenty demo_platform "action"
                                   1 two_actions_world)))).
    reflexivity.
Defined.

(* ------------------------------------------------------------------ *)
(** ** Unknown genres and empty genres (C7) *)

(** C7, the code at the failing input.  Action is stored and has no
    movies, Comedy is not stored: the service returns the same pair for
    both, and the view answers 404 with the message that the genre was not
    found for the genre that exists. *)
Theorem empty_genre_is_reported_not_found :
  genres_named demo_platform "Action" (action_world Timeout) = [action_genre]
  /\ genres_named demo_platform "Comedy" (action_world Timeout) = []
  /\ fst (get_movies_by_genre demo_platform "Action" 1 (action_world Timeout))
     = Ok ([], 0)
  /\ fst (get_movies_by_genre demo_platform "Comedy" 1 (action_world Timeout))
     = Ok ([], 0)
  /\ fst (movies_by_genre demo_platform [("genre", "Action")]
            (action_world Timeout))
     = Ok (HTTP_404_NOT_FOUND (genre_not_found "Action")).
Proof. repeat split. Qed.

Lemma get_movies_by_genre_unknown P genre_name page w :
  genres_named P genre_name w = [] ->
  get_movies_by_genre P genre_name page w = (Ok ([], 0), w).
Proof.
  intro Hg. unfold get_movies_by_genre, try_except, bind at 1.
  unfold Genre_get_name_iexact. unfold genres_named in Hg. rewrite Hg.
  reflexivity.
Qed.

Lemma get_movies_by_genre_empty P genre_name page w g :
  genres_named P genre_name w = [g] ->
  Movie_filter_genres g w = [] ->
  1 <= page ->
  db_offset_ok P ((page - 1) * 20) = true ->
  get_movies_by_genre P genre_name page w = (Ok ([], 0), w).
Proof.
  intros Hg He Hp Hoff.
  rewrite (get_movies_by_genre_unique P genre_name w Hg Hp Hoff), He.
  simpl. unfold slice. rewrite skipn_nil, firstn_nil. reflexivity.
Qed.

(** The same on every page the service returns for: a stored genre
    without movies is answered like a name that no stored genre matches. *)
Lemma empty_and_unknown_genre_alike
    (P : Platform) (GET : list (string * string)) (page : Z) (w : World) :
  requested_genre GET <> "" ->
  requested_page P GET = Some page ->
  (genres_named P (requested_genre GET) w = []
   \/ exists g, genres_named P (requested_genre GET) w = [g]
                /\ Movie_filter_genres g w = [] /\ 1 <= page
                /\ db_offset_ok P ((page - 1) * 20) = true) ->
  get_movies_by_genre P (requested_genre GET) page w = (Ok ([], 0), w)
  /\ movies_by_genre P GET w
     = (Ok (HTTP_404_NOT_FOUND (genre_not_found (requested_genre GET))), w).
Proof.
  intros Hname Hpage Hcase.
  assert (Hsvc : get_movies_by_genre P (requested_genre GET) page w
                 = (Ok ([], 0), w)).
  { destruct Hcase as [Hnone | (g & Hone & Hempty & Hp & Hoff)].
    - apply get_movies_by_genre_unknown. exact Hnone.
    - eapply get_movies_by_genre_empty; eassumption. }
  split; [exact Hsvc|].
  unfold movies_by_genre. fold (requested_genre GET).
  unfold requested_page in Hpage.
  assert (Hpg : (match query_get "page" GET with
                 | None => ret 1
                 | Some s => match int_of_str P s with
                             | Some z => ret z
                             | None => raise ValueError
                             end
                 end) w = (Ok page, w)).
  { destruct (query_get "page" GET) as [s|].
    - rewrite Hpage. reflexivity.
    - inversion Hpage. reflexivity. }
  rewrite (bind_Ok _ _ _ Hpg).
  destruct (String.eqb_spec (requested_genre GET) "") as [E|_]; [contradiction|].
  rewrite (bind_Ok _ _ _ Hsvc). reflexivity.
Qed.

(* ------------------------------------------------------------------ *)
(** ** Rating bounds (C8) *)

(** C8, the code at the failing input.  Merging a record whose
    [vote_average] is 11.5 succeeds and stores the movie with rating 11.5,
    which the validators declared on the field reject. *)
Theorem merge_stores_rating_above_ten :
  exists m,
    _create_or_update_movie demo_platform overrated_record false
      (fresh_world Timeout)
    = (Ok (Some m), set_movies (fresh_world Timeout) [m] 2)
    /\ Movie.vote_average m = (23 # 2)%Q
    /\ Movie.vote_average_valid m = false
    /\ ~ (Movie.vote_average m <= 10)%Q.
Proof.
  eexists. split; [reflexivity|]. split; [reflexivity|]. split; [reflexivity|].
  simpl. intro H. apply Qle_bool_iff in H. discriminate H.
Qed.

(* ------------------------------------------------------------------ *)
(** ** Upsert by provider ID (C2) *)

Section Keyed.
Variable A : Type.
Variable key : A -> Z.

Lemma filter_key_nil (l : list A) (z : Z) :
  ~ In z (map key l) -> filter (fun a => key a =? z) l = [].
Proof.
  induction l as [|a l IH]; simpl; intro H.
  - reflexivity.
  - destruct (Z.eqb_spec (key a) z) as [E|E].
    + exfalso. apply H. left. exact E.
    + apply IH. intro Hin. apply H. right. exact Hin.
Qed.

Lemma filter_key_at_most_one (l : list A) (z : Z) :
  NoDup (map key l) ->
  filter (fun a => key a =? z) l = []
  \/ exists a, filter (fun a => key a =? z) l = [a].
Proof.
  induction l as [|a l IH]; simpl; intro H.
  - left. reflexivity.
  - apply NoDup_cons_iff in H. destruct H as [Hnot Hnd].
    destruct (Z.eqb_spec (key a) z) as [E|E].
    + right. exists a. rewrite filter_key_nil; [reflexivity|].
      rewrite <- E. exact Hnot.
    + apply IH. exact Hnd.
Qed.

Lemma filter_key_nil_not_in (l : list A) (z : Z) :
  filter (fun a => key a =? z) l = [] -> ~ In z (map key l).
Proof.
  intros Hf Hin. apply in_map_iff in Hin. destruct Hin as (a & Ha & Hin).
  assert (H : In a (filter (fun a => key a =? z) l)).
  { apply filter_In. split; [exact Hin | apply Z.eqb_eq; exact Ha]. }
  rewrite Hf in H. exact H.
Qed.


Lemma NoDup_map_snoc (l : list A) (a : A) :
  NoDup (map key l) -> ~ In (key a) (map key l) ->
  NoDup (map key (l ++ [a])).
Proof.
  intros Hnd Hnot. rewrite map_app. simpl. apply NoDup_app.
  - exact Hnd.
  - constructor; [intros [] | constructor].
  - intros z Hz [E|[]]. subst z. exact (Hnot Hz).
Qed.
End Keyed.

(** Rewriting one row in place, as [save()] does. *)
Section Replace.
Variable old new : Movie.t.
Hypothesis same_id : Movie.id new = Movie.id old.
Hypothesis same_tmdb_id : Movie.tmdb_id new = Movie.tmdb_id old.

Let put (r : Movie.t) : Movie.t := if Movie.id r =? Movie.id old then new else r.

Lemma replace_ids (l : list Movie.t) : map Movie.id (map put l) = map Movie.id l.
Proof.
  rewrite map_map. apply map_ext. intro r. unfold put.
  destruct (Z.eqb_spec (Movie.id r) (Movie.id old)) as [E|E]; congruence.
Qed.

Lemma put_tmdb_id (l : list Movie.t) (r : Movie.t) :
  NoDup (map Movie.id l) -> In old l -> In r l ->
  Movie.tmdb_id (put r) = Movie.tmdb_id r.
Proof.
  intros Hnd Hold Hr. unfold put.
  destruct (Z.eqb_spec (Movie.id r) (Movie.id old)) as [E|E]; [|reflexivity].
  rewrite same_tmdb_id. f_equal.
  clear put. induction l as [|a l IH]; [contradiction|].
  simpl in Hnd. apply NoDup_cons_iff in Hnd. destruct Hnd as [Hnot Hnd].
  destruct Hold as [Hold|Hold], Hr as [Hr|Hr].
  - congruence.
  - subst a. exfalso. apply Hnot. rewrite <- E. apply in_map. exact Hr.
  - subst a. exfalso. apply Hnot. rewrite E. apply in_map. exact Hold.
  - apply IH; assumption.
Qed.

Lemma replace_tmdb_ids (l : list Movie.t) :
  NoDup (map Movie.id l) -> In old l ->
  map Movie.tmdb_id (map put l) = map Movie.tmdb_id l.
Proof.
  intros Hnd Hold. rewrite map_map. apply map_ext_in. intros r Hr.
  eapply put_tmdb_id; eassumption.
Qed.

End Replace.

Lemma store_ok_kept w w' : movies_kept w w' -> store_ok w -> store_ok w'.
Proof. intros [Hm Hn]. unfold store_ok. rewrite Hm, Hn. exact (fun H => H). Qed.

Lemma bind_lift_Ok {A B} (a : A) (k : A -> M B) :
  (x <- lift (Ok a) ;; k x) = k a.
Proof. reflexivity. Qed.

Lemma bind_ret {A B} (a : A) (k : A -> M B) : (x <- ret a ;; k x) = k a.
Proof. reflexivity. Qed.















(* ------------------------------------------------------------------ *)
(** ** Genre associations (C1) *)

Lemma link_genres_cons P movie x xs :
  link_genres P movie (x :: xs) = (link_one P movie x ;;; link_genres P movie xs).
Proof. reflexivity. Qed.

Lemma linked_snoc w l n mid gid :
  linked (set_movie_genres w (movie_genres w ++ [l]) n) mid gid
  <-> linked w mid gid
      \/ (mid = MovieGenre.movie_id l /\ gid = MovieGenre.genre_id l).
Proof.
  unfold linked. simpl. split.
  - intros (l' & Hin & H1 & H2). apply in_app_iff in Hin.
    destruct Hin as [Hin | [E | []]].
    + left. exists l'. auto.
    + right. subst l'. auto.
  - intros [(l' & Hin & H1 & H2) | [H1 H2]].
    + exists l'. split; [apply in_app_iff; left; exact Hin | auto].
    + exists l. split; [apply in_app_iff; right; left; reflexivity | auto].
Qed.

Lemma filter_singleton {A} (f : A -> bool) (l : list A) (a x : A) :
  filter f l = [a] -> In x l -> f x = true -> x = a.
Proof.
  intros Hf Hin Hx.
  assert (H : In x (filter f l)) by (apply filter_In; split; assumption).
  rewrite Hf in H. destruct H as [H | []]. symmetry. exact H.
Qed.

Lemma filter_singleton_in {A} (f : A -> bool) (l : list A) (a : A) :
  filter f l = [a] -> In a l /\ f a = true.
Proof.
  intro Hf. apply filter_In. rewrite Hf. left. reflexivity.
Qed.

(** A successful iteration for the ID [z] leaves the genres alone and adds
    the link to the one stored genre with provider ID [z], if there is one. *)
Lemma link_one_spec P movie z w w' :
  link_one P movie (JInt z) w = (Ok tt, w') ->
  genres w' = genres w
  /\ forall mid gid,
       linked w' mid gid
       <-> linked w mid gid
           \/ (mid = Movie.id movie
               /\ exists g, In g (genres w) /\ Genre.id g = gid
                            /\ Genre.tmdb_id g = z).
Proof.
  unfold link_one, try_except, Genre_get_tmdb_id. simpl int_prep.
  rewrite bind_lift_Ok. unfold bind at 1.
  unfold Genre_filter_tmdb_id.
  destruct (filter (fun g => Genre.tmdb_id g =? z) (genres w))
    as [|g [|g' rest]] eqn:Hf.
  - (* no stored genre: continue *)
    intro H. inversion H; subst w'. split; [reflexivity|].
    intros mid gid. split; [auto|].
    intros [H1 | (_ & g & Hin & _ & Hz)]; [exact H1|].
    exfalso.
    assert (Hg : In g (filter (fun g => Genre.tmdb_id g =? z) (genres w)))
      by (apply filter_In; split; [exact Hin | apply Z.eqb_eq; exact Hz]).
    rewrite Hf in Hg. exact Hg.
  - (* exactly one stored genre *)
    destruct (filter_singleton_in _ _ Hf) as [Hgin Hgz]. apply Z.eqb_eq in Hgz.
    assert (Honly : forall g0, In g0 (genres w) -> Genre.tmdb_id g0 = z -> g0 = g).
    { intros g0 Hin Hz. eapply filter_singleton; [exact Hf | exact Hin |].
      apply Z.eqb_eq. exact Hz. }
    unfold bind at 1, MovieGenre_get_or_create.
    destruct (filter _ (movie_genres w)) as [|l [|l' ls]] eqn:Hl.
    + intro H. inversion H; subst w'. split; [reflexivity|].
      intros mid gid. rewrite linked_snoc. simpl.
      split; (intros [H1 | [H1 H2]]; [left; exact H1 | right; split; [exact H1|]]).
      * exists g. auto.
      * destruct H2 as (g0 & Hin & Hid & Hz). rewrite (Honly g0 Hin Hz) in Hid.
        symmetry. exact Hid.
    + intro H. inversion H; subst w'. split; [reflexivity|].
      destruct (filter_singleton_in _ _ Hl) as [Hlin Hlk].
      apply andb_true_iff in Hlk. destruct Hlk as [Hlm Hlg].
      apply Z.eqb_eq in Hlm, Hlg.
      intros mid gid. split; [auto|].
      intros [H1 | (Hmid & g0 & Hin & Hid & Hz)]; [exact H1|].
      rewrite (Honly g0 Hin Hz) in Hid. exists l. subst mid gid. auto.
    + intro H. discriminate H.
  - intro H. discriminate H.
Qed.

Lemma link_genres_spec P movie B :
  forall w w',
    link_genres P movie (map JInt B) w = (Ok tt, w') ->
    genres w' = genres w
    /\ forall mid gid,
         linked w' mid gid
         <-> linked w mid gid
             \/ (mid = Movie.id movie
                 /\ exists g, In g (genres w) /\ Genre.id g = gid
                              /\ In (Genre.tmdb_id g) B).
Proof.
  induction B as [|z B IH]; intros w w' H.
  - inversion H; subst w'. split; [reflexivity|].
    intros mid gid. split; [auto|].
    intros [H1 | (_ & g & _ & _ & [])]. exact H1.
  - simpl map in H. rewrite link_genres_cons in H.
    apply bind_Ok_inv in H. destruct H as ([] & w1 & Hone & Hrest).
    apply link_one_spec in Hone. destruct Hone as [Hg1 Hl1].
    apply IH in Hrest. destruct Hrest as [Hg2 Hl2].
    split; [congruence|].
    intros mid gid. rewrite Hl2, Hl1, Hg1. simpl. split.
    + intros [[H1 | (Hm & g & Hin & Hid & Hz)] | (Hm & g & Hin & Hid & Hz)].
      * left. exact H1.
      * right. split; [exact Hm|]. exists g. auto.
      * right. split; [exact Hm|]. exists g. auto.
    + intros [H1 | (Hm & g & Hin & Hid & [Hz | Hz])].
      * left. left. exact H1.
      * left. right. split; [exact Hm|]. exists g. auto.
      * right. split; [exact Hm|]. exists g. auto.
Qed.

(** A merge that returns a movie went through the body, not the handler. *)
Lemma merge_Some_inv P movie_data detailed w movie w' :
  _create_or_update_movie P movie_data detailed w = (Ok (Some movie), w') ->
  exists w1,
    upsert_movie P movie_data w = (Ok movie, w1)
    /\ replace_genres P movie_data movie w1 = (Ok tt, w').
Proof.
  unfold _create_or_update_movie, try_except.
  destruct ((movie <- upsert_movie P movie_data ;;
             replace_genres P movie_data movie ;;; ret (Some movie)) w)
    as [[r|e] w0] eqn:Hbody.
  - intro H. inversion H; subst r w0. clear H.
    apply bind_Ok_inv in Hbody. destruct Hbody as (row & w1 & Hup & Hrest).
    apply bind_Ok_inv in Hrest. destruct Hrest as ([] & w2 & Hrep & Hret).
    inversion Hret; subst row w2. exists w1. split; assumption.
  - unfold bind, lift, logger_error, emit, ret.
    destruct (py_get movie_data "id" JNull); intro H; discriminate H.
Qed.

Lemma py_getitem_present o k v :
  dict_lookup k o = Some v -> py_getitem (JObj o) k = Ok v.
Proof. intro H. unfold py_getitem. rewrite H. reflexivity. Qed.

Lemma record_genre_ids_supplied o B :
  supplies_genre_ids o B ->
  record_genre_ids (JObj o) = ret (JList (map JInt B)).
Proof.
  unfold record_genre_ids, py_contains.
  intros [(gs & Hg & Hids) | [(Hg & Hi) | (Hg & Hi & ->)]]; rewrite Hg.
  - rewrite bind_lift_Ok, (py_getitem_present _ _ Hg), bind_lift_Ok.
    simpl py_iter. rewrite bind_lift_Ok, Hids. reflexivity.
  - rewrite bind_lift_Ok, Hi, bind_lift_Ok, (py_getitem_present _ _ Hi).
    reflexivity.
  - rewrite bind_lift_Ok, Hi. reflexivity.
Qed.

Lemma not_linked_after_delete movie w gid :
  ~ linked (snd (MovieGenre_filter_movie_delete movie w)) (Movie.id movie) gid.
Proof.
  unfold linked. simpl. intros (l & Hin & Hm & _).
  apply filter_In in Hin. destruct Hin as [_ Hneq].
  rewrite Hm, Z.eqb_refl in Hneq. discriminate Hneq.
Qed.

(** *** Completion of the merge *)




Lemma fetch_genres_unfold P :
  fetch_genres P
  = (genres_data <- cache_get "tmdb_genres" ;;
     genres_data <-
       (if negb (truthy genres_data) then
          genres_data <- _make_request P "genre/movie/list" None ;;
          (if truthy genres_data
           then cache_set "tmdb_genres" genres_data (CACHE_TIMEOUT_GENRES P)
           else ret tt) ;;;
          ret genres_data
        else ret genres_data) ;;
     catalogue_tail P genres_data).
Proof. reflexivity. Qed.







(** C1, counterexample.  The second merge supplies the empty genre-ID list
    and completes, yet the movie is still linked to Action: its
    associations do not mirror the empty list. *)
Lemma empty_genre_list_keeps_links :
  supplies_genre_ids untagged_record []
  /\ fst (_create_or_update_movie demo_platform (JObj untagged_record) false
            (snd (_create_or_update_movie demo_platform (JObj tagged_record)
                    false (action_world Timeout))))
     = Ok (Some stored_movie_1)
  /\ ~ mirrors after_both_merges stored_movie_1 [].
Proof.
  split; [right; left; split; reflexivity|]. split; [reflexivity|].
  intro H. destruct (proj1 (H 1)) as (g & _ & _ & []).
  exists {| MovieGenre.id := 1; MovieGenre.movie_id := 1; MovieGenre.genre_id := 1 |}.
  split; [left; reflexivity | split; reflexivity].
Qed.

(** C1, amended.  After a merge that completes, when the genre-ID list [B]
    supplied in the record is not empty the movie is linked to exactly the
    locally stored genres whose provider ID is in [B] (the catalogue fetch
    of the merge included); when [B] is empty the merge leaves the links
    and the genres as they were, so the movie keeps its earlier
    associations. *)
Theorem merge_mirrors_nonempty_genre_list
    (P : Platform) (o : dict) (detailed : bool) (w w' : World)
    (movie : Movie.t) (B : list Z) :
  supplies_genre_ids o B ->
  _create_or_update_movie P (JObj o) detailed w = (Ok (Some movie), w') ->
  (B <> [] -> mirrors w' movie B)
  /\ (B = [] -> movie_genres w' = movie_genres w /\ genres w' = genres w).
Proof.
  intros Hsup Hmerge.
  apply merge_Some_inv in Hmerge. destruct Hmerge as (w1 & Hup & Hrep).
  unfold replace_genres in Hrep.
  rewrite (record_genre_ids_supplied Hsup), bind_ret in Hrep.
  split.
  - intro HB.
    assert (Ht : truthy (JList (map JInt B)) = true)
      by (destruct B; [contradiction | reflexivity]).
    rewrite Ht in Hrep.
    apply bind_Ok_inv in Hrep. destruct Hrep as (gs & w2 & _ & Hrep).
    apply bind_Ok_inv in Hrep. destruct Hrep as ([] & w3 & Hdel & Hrep).
    simpl py_iter in Hrep. rewrite bind_lift_Ok in Hrep.
    apply link_genres_spec in Hrep. destruct Hrep as [Hg Hl].
    assert (Hw3 : w3 = snd (MovieGenre_filter_movie_delete movie w2))
      by (rewrite Hdel; reflexivity).
    intro gid. rewrite Hl, Hg. split.
    + intros [H1 | (_ & H2)]; [|exact H2].
      exfalso. rewrite Hw3 in H1. exact (not_linked_after_delete H1).
    + intro H2. right. split; [reflexivity | exact H2].
  - intros ->. simpl in Hrep. inversion Hrep; subst w'.
    pose proof (preserves_upsert_movie P (R := links_kept) (JObj o) w) as Hl.
    pose proof (preserves_upsert_movie P (R := genres_kept) (JObj o) w) as Hg.
    rewrite Hup in Hl, Hg. simpl in Hl, Hg.
    split; [exact (proj1 Hl) | exact (proj1 Hg)].
Qed.

Lemma merge_mirrors_witness :
  supplies_genre_ids tagged_record [28]
  /\ mirrors
       (snd (_create_or_update_movie demo_platform (JObj tagged_record) false
               (action_world Timeout)))
       stored_movie_1 [28].
Proof.
  split.
  - right. left. split; reflexivity.
  - apply (@merge_mirrors_nonempty_genre_list demo_platform tagged_record false
             (action_world Timeout)
             (snd (_create_or_update_movie demo_platform (JObj tagged_record)
                     false (action_world Timeout)))
             stored_movie_1 [28]).
    + right. left. split; reflexivity.
    + reflexivity.
    + discriminate.
Defined.

(* ------------------------------------------------------------------ *)
(** ** Further properties: browsing by genre *)

#[local] Instance untouched_Frame : Frame untouched.
Proof.
  split; unfold untouched.
  - reflexivity.
  - intros a b c -> ->. reflexivity.
Qed.

Lemma preserves_get_movies_by_genre (R : World -> World -> Prop) `{!Frame R}
    P genre_name page :
  preserves R (get_movies_by_genre P genre_name page).
Proof.
  unfold get_movies_by_genre.
  apply preserves_try_except; [ exact _ | | intro e; destruct e; frame ].
  apply preserves_bind;
    [ exact _ | by_frame preserves_Genre_get_name_iexact | intro g ].
  apply preserves_bind; [ exact _ | frame | intros _ ].
  intro w. destruct (db_offset_ok P ((page - 1) * 20)); apply frame_refl.
Qed.

(** X1.  Browsing by genre only reads: whatever the genre name, the page
    and the outcome (a page, the empty answer, an exception), the service
    function and the view leave the store, the cache, the request counter
    and the trace as they were. *)
Theorem by_genre_read_only
    (P : Platform) (genre_name : string) (page : Z)
    (GET : list (string * string)) (w : World) :
  snd (get_movies_by_genre P genre_name page w) = w
  /\ snd (movies_by_genre P GET w) = w.
Proof.
  split.
  - exact (preserves_get_movies_by_genre (R := untouched) P genre_name page w).
  - assert (H : preserves untouched (movies_by_genre P GET)); [ | exact (H w) ].
    unfold movies_by_genre.
    apply preserves_bind; [ exact _ | frame | intro pg ].
    destruct (_ =? "")%string; [ frame | ].
    apply preserves_bind;
      [ exact _ | by_frame (@preserves_get_movies_by_genre untouched) | intro r ].
    destruct r as [ms tp]. frame.
Qed.

Lemma firstn_add {A} (a b : nat) (l : list A) :
  firstn a l ++ firstn b (skipn a l) = firstn (a + b) l.
Proof.
  rewrite <- (firstn_skipn a (firstn (a + b) l)).
  rewrite firstn_firstn, skipn_firstn_comm.
  replace (Nat.min a (a + b)) with a by lia.
  replace (a + b - a)%nat with b by lia.
  reflexivity.
Qed.

Lemma flat_map_agree {A B} (f g : A -> list B) (l : list A) :
  (forall a, In a l -> f a = g a) -> flat_map f l = flat_map g l.
Proof.
  induction l as [|a l IH]; simpl; intro H.
  - reflexivity.
  - rewrite (H a (or_introl eq_refl)), IH; [reflexivity|].
    intros x Hx. apply H. right. exact Hx.
Qed.

Lemma chunks_firstn {A} (c : nat) (l : list A) (k : nat) :
  flat_map (fun i => firstn c (skipn ((i - 1) * c) l)) (seq 1 k)
  = firstn (k * c) l.
Proof.
  induction k as [|k IH].
  - reflexivity.
  - rewrite seq_S, flat_map_app, IH. simpl flat_map. rewrite app_nil_r.
    replace ((k - 0) * c)%nat with (k * c)%nat by lia.
    rewrite firstn_add. f_equal. lia.
Qed.

(** Two comparisons that agree on a row and every row of a list put the
    row at the same place. *)
Lemma insert_sorted_agree {A} (c1 c2 : A -> A -> bool) (x : A) (l : list A) :
  (forall y, In y l -> c1 x y = c2 x y) ->
  insert_sorted c1 x l = insert_sorted c2 x l.
Proof.
  induction l as [|y l IH]; simpl; intro H; [ reflexivity | ].
  rewrite (H y (or_introl eq_refl)).
  destruct (c2 x y); [ reflexivity | ].
  f_equal. apply IH. intros z Hz. apply H. right. exact Hz.
Qed.

(** Without ties the backend has no say in the order. *)
Lemma order_by_distinct_popularity P offset (ms : list Movie.t) :
  distinct_popularity ms = true ->
  order_by (by_popularity P offset) ms = order_by popularity_desc ms.
Proof.
  induction ms as [|x ms IH]; simpl; intro H; [ reflexivity | ].
  apply andb_true_iff in H. destruct H as [Hx Hms].
  rewrite (IH Hms). apply insert_sorted_agree.
  intros y Hy.
  assert (Hin : In y ms).
  { eapply Permutation_in; [ apply Permutation_sym, order_by_perm | exact Hy ]. }
  rewrite forallb_forall in Hx. specialize (Hx y Hin).
  apply negb_true_iff in Hx. unfold by_popularity, popularity_desc.
  rewrite Hx. reflexivity.
Qed.

(** X3.  The pages of a genre partition its movies when the order is
    determined: for a name matched by exactly one stored genre none of
    whose movies have equal popularity, and a backend that accepts the
    offsets of the pages, pages 1 to [total_pages] put one after the other
    are the movies of the genre in descending order of popularity, each
    once, and every page before the last holds exactly 20. *)
Theorem by_genre_pages_partition
    (P : Platform) (genre_name : string) (w : World) (g : Genre.t) :
  genres_named P genre_name w = [g] ->
  distinct_popularity (Movie_filter_genres g w) = true ->
  (forall page,
     1 <= page <= (Z.of_nat (List.length (Movie_filter_genres g w)) + 19) / 20 ->
     db_offset_ok P ((page - 1) * 20) = true) ->
  let sorted := order_by popularity_desc (Movie_filter_genres g w) in
  let total_pages := (Z.of_nat (List.length sorted) + 19) / 20 in
  flat_map (fun k => page_movies P genre_name (Z.of_nat k) w)
    (seq 1 (Z.to_nat total_pages))
  = sorted
  /\ forall page, 1 <= page < total_pages ->
       List.length (page_movies P genre_name page w) = 20%nat.
Proof.
  intros Hg Hdistinct Hoff sorted total_pages.
  assert (Hlen : List.length sorted = List.length (Movie_filter_genres g w))
    by (symmetry; apply Permutation_length, order_by_perm).
  assert (Hpage : forall page, 1 <= page <= total_pages ->
            page_movies P genre_name page w
            = firstn 20 (skipn (Z.to_nat ((page - 1) * 20)) sorted)).
  { intros page Hp. unfold page_movies.
    rewrite (get_movies_by_genre_unique P genre_name w Hg (proj1 Hp)).
    - simpl. rewrite (order_by_distinct_popularity P _ _ Hdistinct).
      unfold slice.
      replace ((page - 1) * 20 + 20 - (page - 1) * 20) with 20 by lia.
      reflexivity.
    - apply Hoff. unfold total_pages in Hp. rewrite Hlen in Hp. exact Hp. }
  assert (Hdiv : 20 * (total_pages - 1) < Z.of_nat (List.length sorted)
                 <= 20 * total_pages).
  { unfold total_pages.
    pose proof (Z.div_mod (Z.of_nat (List.length sorted) + 19) 20 ltac:(lia)).
    pose proof (Z.mod_pos_bound (Z.of_nat (List.length sorted) + 19) 20 ltac:(lia)).
    lia. }
  split.
  - rewrite (flat_map_agree
               (fun k => page_movies P genre_name (Z.of_nat k) w)
               (fun k => firstn 20 (skipn ((k - 1) * 20) sorted))).
    + rewrite chunks_firstn. apply firstn_all2. lia.
    + intros k Hk. apply in_seq in Hk. rewrite Hpage by lia.
      do 2 f_equal. lia.
  - intros page Hp. rewrite Hpage by lia.
    rewrite length_firstn, length_skipn. lia.
Qed.

Lemma by_genre_pages_partition_witness :
  flat_map (fun k => page_movies demo_platform "action" (Z.of_nat k)
                       forty_five_world)
    (seq 1 3)
  = order_by popularity_desc (Movie_filter_genres action_genre forty_five_world).
Proof.
  apply (@by_genre_pages_partition demo_platform "action" forty_five_world
           action_genre).
  - reflexivity.
  - vm_compute. reflexivity.
  - intros page Hp. apply Z.leb_le.
    assert (H : (Z.of_nat
                   (List.length (Movie_filter_genres action_genre forty_five_world))
                 + 19) / 20 = 3) by (vm_compute; reflexivity).
    rewrite H in Hp. lia.
Defined.

(** X4.  A page beyond the last one is not an error: for a genre that has
    movies and a page whose offset the backend accepts, the service returns
    the empty list with the true total-page count, and the view answers 200
    with no results, not 404. *)
Theorem by_genre_page_beyond_last
    (P : Platform) (GET : list (string * string)) (page : Z) (w : World)
    (g : Genre.t) :
  requested_genre GET <> "" ->
  requested_page P GET = Some page ->
  genres_named P (requested_genre GET) w = [g] ->
  Movie_filter_genres g w <> [] ->
  (Z.of_nat (List.length (Movie_filter_genres g w)) + 19) / 20 < page ->
  db_offset_ok P ((page - 1) * 20) = true ->
  let total_pages := (Z.of_nat (List.length (Movie_filter_genres g w)) + 19) / 20 in
  get_movies_by_genre P (requested_genre GET) page w = (Ok ([], total_pages), w)
  /\ movies_by_genre P GET w
     = (Ok (HTTP_200_OK [] page total_pages 0 (requested_genre GET)), w).
Proof.
  intros Hname Hpage Hg Hne Hbeyond Hoff total_pages.
  set (ms := Movie_filter_genres g w) in *.
  assert (Hlen : forall c, List.length (order_by c ms) = List.length ms)
    by (intro c; symmetry; apply Permutation_length, order_by_perm).
  assert (Hpos : 0 < Z.of_nat (List.length ms)).
  { destruct ms; [contradiction | simpl; lia]. }
  assert (Hdiv : 20 * (total_pages - 1) < Z.of_nat (List.length ms)
                 <= 20 * total_pages).
  { unfold total_pages.
    pose proof (Z.div_mod (Z.of_nat (List.length ms) + 19) 20 ltac:(lia)).
    pose proof (Z.mod_pos_bound (Z.of_nat (List.length ms) + 19) 20 ltac:(lia)).
    lia. }
  assert (Htp : 1 <= total_pages) by lia.
  assert (Hsvc : get_movies_by_genre P (requested_genre GET) page w
                 = (Ok ([], total_pages), w)).
  { rewrite (get_movies_by_genre_unique P (requested_genre GET) w Hg) by
      (lia || exact Hoff).
    fold ms. fold total_pages. unfold slice.
    rewrite skipn_all2 by (rewrite Hlen; lia).
    rewrite firstn_nil. reflexivity. }
  split; [exact Hsvc|].
  unfold movies_by_genre. fold (requested_genre GET).
  unfold requested_page in Hpage.
  assert (Hpg : (match query_get "page" GET with
                 | None => ret 1
                 | Some s => match int_of_str P s with
                             | Some z => ret z
                             | None => raise ValueError
                             end
                 end) w = (Ok page, w)).
  { destruct (query_get "page" GET) as [s|].
    - rewrite Hpage. reflexivity.
    - inversion Hpage. reflexivity. }
  rewrite (bind_Ok _ _ _ Hpg).
  destruct (String.eqb_spec (requested_genre GET) "") as [E|_]; [contradiction|].
  rewrite (bind_Ok _ _ _ Hsvc).
  assert (Hz : (total_pages =? 0) = false) by (apply Z.eqb_neq; lia).
  simpl. rewrite Hz. reflexivity.
Qed.

Lemma by_genre_page_beyond_last_witness :
  movies_by_genre demo_platform [("genre", "Action"); ("page", "7")]
    forty_five_world
  = (Ok (HTTP_200_OK [] 7 3 0 "Action"), forty_five_world).
Proof.
  apply (@by_genre_page_beyond_last demo_platform
           [("genre", "Action"); ("page", "7")] 7 forty_five_world action_genre).
  - discriminate.
  - reflexivity.
  - reflexivity.
  - discriminate.
  - vm_compute. reflexivity.
  - reflexivity.
Defined.

(* ------------------------------------------------------------------ *)
(** ** Further properties: the views *)

Lemma page_param_parsed P GET page w :
  requested_page P GET = Some page -> page_param P GET w = (Ok page, w).
Proof.
  unfold requested_page, page_param. intro H.
  destruct (query_get "page" GET) as [s|].
  - rewrite H. reflexivity.
  - inversion H. reflexivity.
Qed.

Lemma page_param_unparsable P GET s w :
  query_get "page" GET = Some s -> int_of_str P s = None ->
  page_param P GET w = (Raise ValueError, w).
Proof. unfold page_param. intros -> ->. reflexivity. Qed.

(** X5.  The trending view validates the time window before it calls the
    service: a window other than day and week is answered with 400 and
    the cache, the provider and the store are not touched. *)
Theorem trending_rejects_unknown_window
    (P : Platform) (GET : list (string * string)) (time_window : string)
    (page : Z) (w : World) :
  query_get "time_window" GET = Some time_window ->
  time_window <> "day" -> time_window <> "week" ->
  requested_page P GET = Some page ->
  exists error, trending_movies P GET w = (Ok (Api_400_BAD_REQUEST error), w).
Proof.
  intros Htw Hday Hweek Hpage. unfold trending_movies. rewrite Htw.
  rewrite (bind_Ok _ _ _ (@page_param_parsed P GET page w Hpage)).
  destruct (String.eqb_spec time_window "day") as [E|_]; [contradiction|].
  destruct (String.eqb_spec time_window "week") as [E|_]; [contradiction|].
  eexists. reflexivity.
Qed.

Lemma trending_rejects_unknown_window_witness :
  exists error,
    trending_movies demo_platform [("time_window", "month")]
      (fresh_world Timeout)
    = (Ok (Api_400_BAD_REQUEST error), fresh_world Timeout).
Proof.
  apply (@trending_rejects_unknown_window demo_platform
           [("time_window", "month")] "month" 1 (fresh_world Timeout)).
  - reflexivity.
  - discriminate.
  - discriminate.
  - reflexivity.
Defined.

(** X6.  A page parameter that is not an integer makes each of the four
    list views raise [ValueError] before any validation of the other
    parameters and before the service is called: nothing is touched, and no
    400 answer is produced. *)
Theorem unparsable_page_raises
    (P : Platform) (GET : list (string * string)) (s : string) (w : World) :
  query_get "page" GET = Some s -> int_of_str P s = None ->
  trending_movies P GET w = (Raise ValueError, w)
  /\ popular_movies P GET w = (Raise ValueError, w)
  /\ search_movies_view P GET w = (Raise ValueError, w)
  /\ movies_by_genre P GET w = (Raise ValueError, w).
Proof.
  intros Hs Hp.
  pose proof (@page_param_unparsable P GET s w Hs Hp) as Hpg.
  repeat split.
  - unfold trending_movies. rewrite (bind_Raise _ _ _ Hpg). reflexivity.
  - unfold popular_movies. rewrite (bind_Raise _ _ _ Hpg). reflexivity.
  - unfold search_movies_view. rewrite (bind_Raise _ _ _ Hpg). reflexivity.
  - unfold movies_by_genre. unfold page_param in Hpg.
    rewrite (bind_Raise _ _ _ Hpg). reflexivity.
Qed.

Lemma unparsable_page_raises_witness :
  movies_by_genre demo_platform [("page", "two")] (fresh_world Timeout)
  = (Raise ValueError, fresh_world Timeout).
Proof.
  apply (@unparsable_page_raises demo_platform [("page", "two")] "two"
           (fresh_world Timeout)); reflexivity.
Defined.

(** *** Stripping *)

Lemma rstrip_idempotent (s : string) : rstrip (rstrip s) = rstrip s.
Proof.
  induction s as [|c s IH]; simpl.
  - reflexivity.
  - destruct (rstrip s) as [|c' r] eqn:E.
    + destruct (is_space c) eqn:Ec; simpl; [reflexivity|].
      rewrite Ec. reflexivity.
    + simpl in IH |- *. rewrite IH. reflexivity.
Qed.

Lemma lstrip_head (s : string) :
  lstrip s = "" \/ exists c t, lstrip s = String c t /\ is_space c = false.
Proof.
  induction s as [|c s IH]; simpl.
  - left. reflexivity.
  - destruct (is_space c) eqn:Ec.
    + exact IH.
    + right. exists c, s. split; [reflexivity | exact Ec].
Qed.

Lemma rstrip_head (c : ascii) (t : string) :
  is_space c = false -> exists r, rstrip (String c t) = String c r.
Proof.
  intro Ec. simpl. destruct (rstrip t) as [|c' r].
  - rewrite Ec. exists "". reflexivity.
  - exists (String c' r). reflexivity.
Qed.

Lemma strip_idempotent (s : string) : strip (strip s) = strip s.
Proof.
  unfold strip.
  destruct (lstrip_head s) as [E | (c & t & E & Ec)]; rewrite E.
  - reflexivity.
  - destruct (@rstrip_head c t Ec) as (r & Er). rewrite Er.
    simpl lstrip. rewrite Ec, <- Er. apply rstrip_idempotent.
Qed.

Lemma rstrip_empty_blank (s : string) : rstrip s = "" -> blank s.
Proof.
  unfold blank. induction s as [|c s IH]; simpl; intro H.
  - reflexivity.
  - destruct (rstrip s) as [|c' r]; [|discriminate H].
    destruct (is_space c); [|discriminate H].
    simpl. apply IH. reflexivity.
Qed.

Lemma lstrip_blank_iff (s : string) : blank (lstrip s) -> blank s.
Proof.
  unfold blank. induction s as [|c s IH]; simpl; intro H.
  - reflexivity.
  - destruct (is_space c) eqn:Ec.
    + simpl. apply IH. exact H.
    + simpl in H. rewrite Ec in H. discriminate H.
Qed.

Lemma strip_empty_iff_blank (s : string) : strip s = "" <-> blank s.
Proof.
  split.
  - intro H. apply lstrip_blank_iff, rstrip_empty_blank. exact H.
  - apply strip_blank.
Qed.

(** X7.  The search view answers 400 exactly when the query is missing or
    blank, without touching anything; any other query reaches the service
    trimmed, so that queries which differ only in surrounding whitespace
    are one and the same search (same cache key, same request, same
    answer). *)
Theorem search_view_trims_query
    (P : Platform) (q : string) (rest : list (string * string)) (page : Z)
    (w : World) :
  requested_page P (("q", q) :: rest) = Some page ->
  (blank q ->
   search_movies_view P (("q", q) :: rest) w
   = (Ok (Api_400_BAD_REQUEST "Search query is required"), w))
  /\ (~ blank q ->
      well_formed_operation (Search (strip q) page)
      /\ forall r, fst (search_movies_view P (("q", q) :: rest) w)
                   <> Ok (Api_400_BAD_REQUEST r))
  /\ search_movies_view P (("q", strip q) :: rest) w
     = search_movies_view P (("q", q) :: rest) w.
Proof.
  intro Hpage.
  pose proof (@page_param_parsed P (("q", q) :: rest) page w Hpage) as Hpg.
  split; [|split].
  - intro Hb. unfold search_movies_view. simpl query_get.
    rewrite (bind_Ok _ _ _ Hpg), (strip_blank Hb). reflexivity.
  - intro Hnb.
    assert (Hne : strip q <> "").
    { intro E. apply Hnb. apply strip_empty_iff_blank. exact E. }
    split.
    + simpl. rewrite strip_idempotent. exact Hne.
    + intros r. unfold search_movies_view. simpl query_get.
      rewrite (bind_Ok _ _ _ Hpg).
      destruct (String.eqb_spec (strip q) "") as [E|_]; [contradiction|].
      unfold bind.
      destruct (search_movies P (strip q) page w) as [[[ms tp]|e] w'];
        simpl; intro H; discriminate H.
  - unfold search_movies_view, page_param. simpl query_get. cbv beta iota.
    rewrite strip_idempotent. reflexivity.
Qed.

Lemma search_view_trims_query_witness :
  search_movies_view demo_platform [("q", strip "  alien ")]
    (fresh_world (Response 200 (Some one_movie_payload)))
  = search_movies_view demo_platform [("q", "  alien ")]
      (fresh_world (Response 200 (Some one_movie_payload))).
Proof.
  apply (@search_view_trims_query demo_platform "  alien " [] 1
           (fresh_world (Response 200 (Some one_movie_payload)))).
  reflexivity.
Defined.

(** X8.  The detail view serves a stored movie from the local store
    alone: on a Movie table that satisfies its constraints, a stored movie
    is answered as it is stored, with no cache access and no request, so a
    stored movie is never refreshed by this view. *)
Theorem detail_view_serves_stored_movie
    (P : Platform) (w : World) (movie : Movie.t) :
  store_ok w -> In movie (movies w) ->
  MovieDetailView_get P (Movie.tmdb_id movie) w = (Ok (Api_200_movie movie), w).
Proof.
  intros (_ & Htm & _) Hin.
  assert (H : Movie_filter_tmdb_id (Movie.tmdb_id movie) w = [movie]).
  { unfold Movie_filter_tmdb_id.
    destruct (filter_key_at_most_one Movie.tmdb_id (movies w)
                (Movie.tmdb_id movie) Htm) as [Hnone | (m & Hone)].
    - exfalso.
      apply (filter_key_nil_not_in Movie.tmdb_id (movies w)
               (Movie.tmdb_id movie) Hnone).
      apply in_map. exact Hin.
    - rewrite Hone. f_equal. symmetry.
      eapply filter_singleton; [ exact Hone | exact Hin | apply Z.eqb_refl ]. }
  unfold MovieDetailView_get, bind, Movie_get_tmdb_id.
  rewrite H. reflexivity.
Qed.

Lemma detail_view_serves_stored_movie_witness :
  MovieDetailView_get demo_platform 1
    (set_movies (fresh_world Timeout) [stored_movie_1] 2)
  = (Ok (Api_200_movie stored_movie_1),
     set_movies (fresh_world Timeout) [stored_movie_1] 2).
Proof.
  apply (@detail_view_serves_stored_movie demo_platform
           (set_movies (fresh_world Timeout) [stored_movie_1] 2) stored_movie_1).
  - unfold store_ok. simpl. repeat constructor; simpl; intuition.
  - left. reflexivity.
Defined.

(** The world after a failed request: one more request, a longer trace. *)
Lemma make_request_failure_world P endpoint params w r :
  next_answer w r -> request_fails r = true ->
  exists t,
    _make_request P endpoint params w
    = (Ok JNull, set_ambient w (cache w) (S (requests_made w)) t).
Proof.
  intros Hn Hf. unfold _make_request, try_except, bind, requests_get.
  rewrite Hn. destruct r as [| |s b]; simpl in *.
  - eexists. reflexivity.
  - eexists. reflexivity.
  - unfold raise_for_status. rewrite Hf. simpl. eexists. reflexivity.
Qed.

Lemma fetch_movie_details_failure P tmdb_id w r :
  cold_cache w -> next_answer w r -> request_fails r = true ->
  exists w',
    fetch_movie_details P tmdb_id w = (Ok None, w')
    /\ movies_kept w w' /\ genres_kept w w' /\ links_kept w w'
    /\ cache w' = cache w /\ requests_made w' = S (requests_made w).
Proof.
  intros Hc Hn Hf. unfold fetch_movie_details.
  rewrite (bind_Ok _ _ _ (cache_get_cold _ Hc)). simpl negb. cbv iota.
  destruct (@make_request_failure_world P ("movie/" ++ str_of_Z tmdb_id)%string
              None _ r
              (next_answer_after_cache_get (cache w)
                 (CacheGet ("movie_details_" ++ str_of_Z tmdb_id)%string :: trace w)
                 Hn) Hf) as (t & Hrun).
  unfold bind at 1. unfold bind at 1. rewrite Hrun.
  eexists. split; [reflexivity|]. repeat split.
Qed.

(** X9.  For a movie that is not stored, with a cold cache, a request that
    times out, fails to connect or comes back with a status in 400..599
    makes the detail view answer 404; exactly one request has been sent,
    nothing has been cached and the tables are as they were. *)
Theorem detail_view_not_found_on_failure
    (P : Platform) (tmdb_id : Z) (w : World) (r : http_outcome) :
  Movie_filter_tmdb_id tmdb_id w = [] ->
  cold_cache w -> next_answer w r -> request_fails r = true ->
  exists w',
    MovieDetailView_get P tmdb_id w
    = (Ok (Api_404_NOT_FOUND "Movie not found"), w')
    /\ movies w' = movies w /\ genres w' = genres w
    /\ movie_genres w' = movie_genres w
    /\ cache w' = cache w /\ requests_made w' = S (requests_made w).
Proof.
  intros Hnone Hc Hn Hf.
  destruct (@fetch_movie_details_failure P tmdb_id w r Hc Hn Hf)
    as (w' & Hrun & [Hm _] & [Hg _] & [Hl _] & Hcache & Hreq).
  exists w'. split; [|repeat split; assumption].
  unfold MovieDetailView_get, Movie_get_tmdb_id. unfold bind at 1.
  rewrite Hnone. rewrite (bind_Ok _ _ _ Hrun). reflexivity.
Qed.

Lemma detail_view_not_found_witness :
  exists w',
    MovieDetailView_get demo_platform 7 (fresh_world (Response 404 None))
    = (Ok (Api_404_NOT_FOUND "Movie not found"), w')
    /\ requests_made w' = 1%nat.
Proof.
  destruct (@detail_view_not_found_on_failure demo_platform 7
              (fresh_world (Response 404 None)) (Response 404 None))
    as (w' & Hrun & _ & _ & _ & _ & Hreq).
  - reflexivity.
  - intro key. reflexivity.
  - intros url params. reflexivity.
  - reflexivity.
  - exists w'. split; [exact Hrun | exact Hreq].
Defined.

(* ------------------------------------------------------------------ *)
(** ** Further properties: favorites *)

Unset Implicit Arguments.

Lemma Movie_get_id_stored movies value :
  NoDup (map Movie.id movies) -> In value (map Movie.id movies) ->
  exists m, Movie_get_id movies value = SOk m /\ Movie.id m = value /\ In m movies.
Proof.
  intros Hnd Hin. unfold Movie_get_id.
  destruct (filter_key_at_most_one Movie.id movies value Hnd) as [Hn | (m & Hm)].
  - exfalso. exact (filter_key_nil_not_in Movie.id movies value Hn Hin).
  - rewrite Hm. exists m. split; [reflexivity|].
    destruct (filter_singleton_in _ _ Hm) as [H1 H2].
    apply Z.eqb_eq in H2. split; assumption.
Qed.

Lemma Movie_get_id_missing movies value :
  ~ In value (map Movie.id movies) ->
  Movie_get_id movies value = SRaise MovieDoesNotExist.
Proof.
  intro H. unfold Movie_get_id.
  rewrite (filter_key_nil Movie.id movies value H). reflexivity.
Qed.

(** X10.  The movie-ID validator of the favorite serializer accepts
    exactly the keys of stored movies: a stored key is returned as it is, any
    other value is refused with the validation error that the movie
    does not exist. *)
Theorem validate_movie_id_accepts_stored_keys
    (movies : list Movie.t) (value : Z) :
  NoDup (map Movie.id movies) ->
  (In value (map Movie.id movies) -> validate_movie_id movies value = SOk value)
  /\ (~ In value (map Movie.id movies) ->
      validate_movie_id movies value
      = SRaise (ValidationError "Movie does not exist.")).
Proof.
  intro Hnd. unfold validate_movie_id. split; intro H.
  - destruct (Movie_get_id_stored movies value Hnd H) as (m & -> & _). reflexivity.
  - rewrite (Movie_get_id_missing movies value H). reflexivity.
Qed.

Lemma validate_movie_id_witness :
  validate_movie_id [alien_row] 1 = SOk 1
  /\ validate_movie_id [alien_row] 5
     = SRaise (ValidationError "Movie does not exist.").
Proof.
  assert (Hnd : NoDup (map Movie.id [alien_row])).
  { repeat constructor. intros []. }
  split.
  - apply (proj1 (validate_movie_id_accepts_stored_keys [alien_row] 1 Hnd)).
    left. reflexivity.
  - apply (proj2 (validate_movie_id_accepts_stored_keys [alien_row] 5 Hnd)).
    intros [H | []]. discriminate H.
Defined.

Lemma UserFavorite_filter_snoc f fav n u v :
  UserFavorite_filter u v
    {| favorites := favorites f ++ [fav]; next_favorite_id := n |}
  = UserFavorite_filter u v f
    ++ (if (UserFavorite.user_id fav =? u) && (UserFavorite.movie_id fav =? v)
        then [fav] else []).
Proof.
  unfold UserFavorite_filter. simpl.
  rewrite filter_app. reflexivity.
Qed.

(** X11.  Adding a favorite never duplicates it: for a stored movie that
    is not yet a favorite of the user, [create] appends exactly one row for
    that user and movie; a second [create] for the same pair is refused
    with a validation error and leaves the table as it is; the pair stays
    unique in both cases. *)
Theorem favorite_added_once
    (movies : list Movie.t) (user movie_id : Z) (f : Favorites) :
  NoDup (map Movie.id movies) ->
  In movie_id (map Movie.id movies) ->
  favorites_unique f ->
  UserFavorite_filter user movie_id f = [] ->
  exists favorite f1,
    UserFavoriteSerializer_create movies user movie_id f = (SOk favorite, f1)
    /\ favorites f1 = favorites f ++ [favorite]
    /\ UserFavorite.user_id favorite = user
    /\ UserFavorite.movie_id favorite = movie_id
    /\ favorites_unique f1
    /\ UserFavoriteSerializer_create movies user movie_id f1
       = (SRaise (ValidationError "Movie is already in favorites."), f1).
Proof.
  intros Hnd Hin Huniq Hnew.
  destruct (Movie_get_id_stored movies movie_id Hnd Hin) as (m & Hget & Hid & _).
  unfold UserFavoriteSerializer_create. rewrite Hget, Hid, Hnew.
  eexists. eexists. split; [reflexivity|].
  split; [reflexivity|]. split; [reflexivity|]. split; [reflexivity|].
  split.
  - intros u v.
    rewrite UserFavorite_filter_snoc. simpl.
    rewrite length_app.
    destruct (Z.eqb_spec user u) as [Eu|Eu];
      destruct (Z.eqb_spec movie_id v) as [Ev|Ev]; simpl;
      try (pose proof (Huniq u v); lia).
    subst u v. rewrite Hnew. simpl. lia.
  - rewrite UserFavorite_filter_snoc. simpl.
    rewrite !Z.eqb_refl, Hnew. reflexivity.
Qed.

Lemma favorite_added_once_witness :
  exists favorite f1,
    UserFavoriteSerializer_create [alien_row] 42 1
      {| favorites := []; next_favorite_id := 1 |} = (SOk favorite, f1)
    /\ UserFavoriteSerializer_create [alien_row] 42 1 f1
       = (SRaise (ValidationError "Movie is already in favorites."), f1).
Proof.
  destruct (@favorite_added_once [alien_row] 42 1
              {| favorites := []; next_favorite_id := 1 |})
    as (favorite & f1 & H1 & _ & _ & _ & _ & H2).
  - repeat constructor. intros [].
  - left. reflexivity.
  - intros u v. simpl. lia.
  - reflexivity.
  - exists favorite, f1. split; assumption.
Defined.

(** X12.  [create] keeps the pair of user and movie unique whatever it is
    called with and however it ends, and it never removes or alters a row:
    the table after the call is the table before, possibly with one row
    more. *)
Theorem favorite_create_keeps_table
    (movies : list Movie.t) (user movie_id : Z) (f : Favorites) :
  favorites_unique f ->
  favorites_unique (snd (UserFavoriteSerializer_create movies user movie_id f))
  /\ exists added,
       favorites (snd (UserFavoriteSerializer_create movies user movie_id f))
       = favorites f ++ added
       /\ (List.length added <= 1)%nat.
Proof.
  intro Huniq. unfold UserFavoriteSerializer_create.
  destruct (Movie_get_id movies movie_id) as [m|e].
  2:{ split; [exact Huniq|]. exists []. rewrite app_nil_r. split; [reflexivity|simpl; lia]. }
  destruct (UserFavorite_filter user (Movie.id m) f) as [|x [|y l]] eqn:Hf.
  - split.
    + intros u v. simpl snd. rewrite UserFavorite_filter_snoc. simpl.
      rewrite length_app.
      destruct (Z.eqb_spec user u) as [Eu|Eu];
        destruct (Z.eqb_spec (Movie.id m) v) as [Ev|Ev]; simpl;
        try (pose proof (Huniq u v); lia).
      subst u v. rewrite Hf. simpl. lia.
    + eexists. split; [reflexivity | simpl; lia].
  - split; [exact Huniq|]. exists []. rewrite app_nil_r.
    split; [reflexivity|simpl; lia].
  - split; [exact Huniq|]. exists []. rewrite app_nil_r.
    split; [reflexivity|simpl; lia].
Qed.

Lemma favorite_create_keeps_table_witness :
  favorites
    (snd (UserFavoriteSerializer_create [alien_row] 42 1
            {| favorites := []; next_favorite_id := 1 |}))
  = [{| UserFavorite.id := 1; UserFavorite.user_id := 42;
        UserFavorite.movie_id := 1 |}]
  /\ favorites_unique
       (snd (UserFavoriteSerializer_create [alien_row] 42 1
               {| favorites := []; next_favorite_id := 1 |})).
Proof.
  split; [ reflexivity | ].
  apply (favorite_create_keeps_table [alien_row] 42 1
           {| favorites := []; next_favorite_id := 1 |}).
  intros u v. simpl. lia.
Defined.

(** X13.  What the serializers report follows the table: after a
    successful [create] the movie is reported as a favorite of that user
    and the favorite count of the user is one higher, while the count of
    every other user and the status of every other pair are unchanged. *)
Theorem favorite_is_reported
    (movies : list Movie.t) (user movie_id : Z) (f f1 : Favorites)
    (favorite : UserFavorite.t) :
  UserFavoriteSerializer_create movies user movie_id f = (SOk favorite, f1) ->
  (forall obj, Movie.id obj = movie_id ->
               get_is_favorited (Some user) obj f1 = true)
  /\ get_favorites_count user f1 = get_favorites_count user f + 1
  /\ (forall other, other <> user ->
        get_favorites_count other f1 = get_favorites_count other f)
  /\ (forall other obj, other <> user \/ Movie.id obj <> movie_id ->
        get_is_favorited (Some other) obj f1
        = get_is_favorited (Some other) obj f)
  /\ (forall obj, get_is_favorited None obj f1 = false).
Proof.
  unfold UserFavoriteSerializer_create.
  destruct (Movie_get_id movies movie_id) as [m|e] eqn:Hget;
    [|intro H; discriminate H].
  assert (Hid : Movie.id m = movie_id).
  { unfold Movie_get_id in Hget.
    destruct (filter _ movies) as [|x [|y l]] eqn:Hf; try discriminate Hget.
    inversion Hget; subst x.
    destruct (filter_singleton_in _ _ Hf) as [_ H]. apply Z.eqb_eq. exact H. }
  rewrite Hid.
  destruct (UserFavorite_filter user movie_id f) as [|x [|y l]] eqn:Hf;
    intro H; inversion H; subst favorite f1; clear H.
  split; [|split; [|split; [|split]]].
  - intros obj Hobj. unfold get_is_favorited.
    rewrite UserFavorite_filter_snoc. simpl.
    rewrite Hobj, !Z.eqb_refl, Hf. reflexivity.
  - unfold get_favorites_count. simpl. rewrite filter_app, length_app. simpl.
    rewrite Z.eqb_refl. simpl. lia.
  - intros other Ho. unfold get_favorites_count. simpl.
    rewrite filter_app, length_app. simpl.
    destruct (Z.eqb_spec user other) as [E|_]; [congruence|]. simpl. lia.
  - intros other obj Ho. unfold get_is_favorited.
    rewrite UserFavorite_filter_snoc. simpl.
    destruct (Z.eqb_spec user other) as [Eu|Eu];
      destruct (Z.eqb_spec movie_id (Movie.id obj)) as [Ev|Ev]; simpl;
      try (rewrite app_nil_r; reflexivity).
    destruct Ho as [Ho|Ho]; congruence.
  - reflexivity.
Qed.

Lemma favorite_is_reported_witness :
  get_favorites_count 42
    (snd (UserFavoriteSerializer_create [alien_row] 42 1
            {| favorites := []; next_favorite_id := 1 |}))
  = get_favorites_count 42 {| favorites := []; next_favorite_id := 1 |} + 1.
Proof.
  apply (@favorite_is_reported [alien_row] 42 1
           {| favorites := []; next_favorite_id := 1 |}
           (snd (UserFavoriteSerializer_create [alien_row] 42 1
                   {| favorites := []; next_favorite_id := 1 |}))
           {| UserFavorite.id := 1; UserFavorite.user_id := 42;
              UserFavorite.movie_id := 1 |}).
  reflexivity.
Defined.

(* ------------------------------------------------------------------ *)
(** ** Further properties: what the operations preserve *)

(** *** Footprints from the writes of each table *)

Lemma preserves_weaken {A} (R1 R2 : World -> World -> Prop) (m : M A) :
  (forall w w', R1 w w' -> R2 w w') -> preserves R1 m -> preserves R2 m.
Proof. intros H Hm w. apply H. apply Hm. Qed.

Lemma cached_request_then {A} P key endpoint params ttl (k : json -> M A) w :
  (data <- cache_get key ;;
   data <-
     (if negb (truthy data) then
        data <- _make_request P endpoint params ;;
        (if truthy data then cache_set key data ttl else ret tt) ;;;
        ret data
      else ret data) ;;
   k data) w
  = (data <- cached_request P key endpoint params ttl ;; k data) w.
Proof. reflexivity. Qed.

(** The catalogue fetch preserves what its cache accesses, its request and
    the creation of a genre preserve. *)
Section FetchFootprint.
Variable P : Platform.
Variable R : World -> World -> Prop.
Context `{!Frame R}.
Hypothesis R_cached :
  preserves R (cached_request P "tmdb_genres" "genre/movie/list" None
                 (CACHE_TIMEOUT_GENRES P)).
Hypothesis R_genre : forall v nm, preserves R (Genre_get_or_create P v nm).

Lemma op_catalogue_tail genres_data : preserves R (catalogue_tail P genres_data).
Proof.
  unfold catalogue_tail.
  frame_with ltac:(first [ solve [apply R_genre]
                         | by_frame preserves_Genre_all ]).
Qed.

Lemma op_fetch_genres : preserves R (fetch_genres P).
Proof.
  intro w. rewrite fetch_genres_unfold.
  change (R w (snd ((data <- cached_request P "tmdb_genres" "genre/movie/list"
                              None (CACHE_TIMEOUT_GENRES P) ;;
                     catalogue_tail P data) w))).
  revert w. apply preserves_bind; [ exact _ | exact R_cached | intro data ].
  apply op_catalogue_tail.
Qed.
End FetchFootprint.

(** The genre step of the merge, for the movie it works on. *)
Section ReplaceFootprint.
Variable P : Platform.
Variable R : World -> World -> Prop.
Context `{!Frame R}.
Variable movie : Movie.t.
Hypothesis R_fetch : preserves R (fetch_genres P).
Hypothesis R_delete : preserves R (MovieGenre_filter_movie_delete movie).
Hypothesis R_link_one :
  forall genre_id, preserves R (link_one P movie genre_id).

Lemma op_link_genres items : preserves R (link_genres P movie items).
Proof.
  unfold link_genres. apply preserves_for_each; [ exact _ | intro genre_id ].
  exact (R_link_one genre_id).
Qed.

Lemma op_replace_genres movie_data :
  preserves R (replace_genres P movie_data movie).
Proof.
  unfold replace_genres.
  apply preserves_bind;
    [ exact _ | by_frame preserves_record_genre_ids | intro ids ].
  destruct (truthy ids);
    frame_with ltac:(first [ exact R_fetch
                           | exact R_delete
                           | solve [apply op_link_genres] ]).
Qed.
End ReplaceFootprint.

(** The merge preserves what the catalogue fetch, the movie upsert, the two
    writes of the link table and the log preserve. *)
Section MergeFootprint.
Variable P : Platform.
Variable R : World -> World -> Prop.
Context `{!Frame R}.
Hypothesis R_fetch : preserves R (fetch_genres P).
Hypothesis R_upsert : forall v d, preserves R (Movie_update_or_create P v d).
Hypothesis R_delete :
  forall movie, preserves R (MovieGenre_filter_movie_delete movie).
Hypothesis R_link :
  forall movie genre, preserves R (MovieGenre_get_or_create movie genre).
Hypothesis R_log : preserves R logger_error.

Lemma op_upsert_movie movie_data : preserves R (upsert_movie P movie_data).
Proof.
  unfold upsert_movie. frame_with ltac:(solve [apply R_upsert]).
Qed.

Lemma op_link_one movie genre_id : preserves R (link_one P movie genre_id).
Proof.
  unfold link_one.
  frame_with ltac:(first [ by_frame preserves_Genre_get_tmdb_id
                         | solve [apply R_link] ]).
Qed.

Lemma op_merge movie_data detailed :
  preserves R (_create_or_update_movie P movie_data detailed).
Proof.
  unfold _create_or_update_movie.
  frame_with ltac:(first
    [ solve [apply op_upsert_movie]
    | solve [apply op_replace_genres;
             [ exact _ | exact R_fetch | apply R_delete
             | intro; apply op_link_one ]]
    | exact R_log ]).
Qed.
End MergeFootprint.

(** A batch of merges preserves what one merge preserves. *)
Section BatchFootprint.
Variable P : Platform.
Variable R : World -> World -> Prop.
Context `{!Frame R}.
Hypothesis R_merge : forall movie_data detailed,
  preserves R (_create_or_update_movie P movie_data detailed).

Lemma op_merge_results results : preserves R (merge_results P results).
Proof.
  induction results as [|r rest IH]; simpl.
  - frame.
  - frame_with ltac:(first [ solve [apply R_merge] | exact IH ]).
Qed.

Lemma op_movies_of_payload movies_data :
  preserves R (movies_of_payload P movies_data).
Proof.
  unfold movies_of_payload.
  frame_with ltac:(solve [apply op_merge_results]).
Qed.

(** A list operation preserves what the merge and the cached request for
    its own key preserve. *)
Lemma op_run_list_operation op :
  (forall endpoint params ttl,
     preserves R (cached_request P (cache_key op) endpoint params ttl)) ->
  preserves R (run_list_operation P op).
Proof.
  intros R_cached.
  destruct op as [tw page | page | query page]; simpl.
  - unfold fetch_trending_movies. intro w. rewrite cached_request_then.
    revert w. apply preserves_bind;
      [ exact _ | apply R_cached | intro; apply op_movies_of_payload ].
  - unfold fetch_popular_movies. intro w. rewrite cached_request_then.
    revert w. apply preserves_bind;
      [ exact _ | apply R_cached | intro; apply op_movies_of_payload ].
  - unfold search_movies. destruct (strip query =? "")%string; [ frame | ].
    intro w. rewrite cached_request_then.
    revert w. apply preserves_bind;
      [ exact _ | apply R_cached | intro; apply op_movies_of_payload ].
Qed.

Lemma op_fetch_movie_details tmdb_id :
  (forall endpoint params ttl,
     preserves R (cached_request P ("movie_details_" ++ str_of_Z tmdb_id)
                    endpoint params ttl)) ->
  preserves R (fetch_movie_details P tmdb_id).
Proof.
  intros R_cached. unfold fetch_movie_details.
  intro w. rewrite cached_request_then.
  revert w. apply preserves_bind; [ exact _ | apply R_cached | intro p ].
  destruct (truthy p); [ apply R_merge | frame ].
Qed.

(** Every entry point preserves what the cached requests, the catalogue
    fetch and the merge preserve. *)
Hypothesis R_cached : forall key endpoint params ttl,
  preserves R (cached_request P key endpoint params ttl).
Hypothesis R_fetch : preserves R (fetch_genres P).

Lemma op_page_param GET : preserves R (page_param P GET).
Proof. unfold page_param. frame. Qed.

Lemma op_world_after c w : R w (world_after P c w).
Proof.
  destruct c; simpl.
  - apply R_fetch.
  - apply op_run_list_operation. intros; apply R_cached.
  - apply op_fetch_movie_details. intros; apply R_cached.
  - apply R_merge.
  - apply preserves_get_movies_by_genre; exact _.
  - revert w. change (preserves R (trending_movies P GET)).
    unfold trending_movies.
    frame_with ltac:(first
      [ solve [apply op_page_param]
      | solve [apply (@op_run_list_operation (Trending _ _));
               intros; apply R_cached] ]).
  - revert w. change (preserves R (popular_movies P GET)).
    unfold popular_movies.
    frame_with ltac:(first
      [ solve [apply op_page_param]
      | solve [apply (@op_run_list_operation (Popular _));
               intros; apply R_cached] ]).
  - revert w. change (preserves R (search_movies_view P GET)).
    unfold search_movies_view.
    frame_with ltac:(first
      [ solve [apply op_page_param]
      | solve [apply (@op_run_list_operation (Search _ _));
               intros; apply R_cached] ]).
  - revert w. change (preserves R (movies_by_genre P GET)).
    unfold movies_by_genre.
    frame_with ltac:(solve [apply preserves_get_movies_by_genre; exact _]).
  - revert w. change (preserves R (MovieDetailView_get P tmdb_id)).
    unfold MovieDetailView_get.
    apply preserves_bind; [ exact _ | | intros [movie|] ].
    + intro w. unfold Movie_get_tmdb_id.
      destruct (Movie_filter_tmdb_id tmdb_id w) as [|m [|m' l]];
        apply frame_refl.
    + frame.
    + frame_with ltac:(solve [apply op_fetch_movie_details;
                              intros; apply R_cached]).
Qed.
End BatchFootprint.

(** What the cache, the requests, the log and the four writes of the
    tables preserve, every entry point preserves. *)
Section EntryFootprint.
Variable P : Platform.
Variable R : World -> World -> Prop.
Context `{!Frame R}.
Hypothesis R_cache_get : forall key, preserves R (cache_get key).
Hypothesis R_request : forall endpoint params,
  preserves R (_make_request P endpoint params).
Hypothesis R_cache_set : forall key v ttl,
  truthy v = true -> preserves R (cache_set key v ttl).
Hypothesis R_log : preserves R logger_error.
Hypothesis R_genre : forall v nm, preserves R (Genre_get_or_create P v nm).
Hypothesis R_upsert : forall v d, preserves R (Movie_update_or_create P v d).
Hypothesis R_delete :
  forall movie, preserves R (MovieGenre_filter_movie_delete movie).
Hypothesis R_link :
  forall movie genre, preserves R (MovieGenre_get_or_create movie genre).

Lemma entry_cached_request key endpoint params ttl :
  preserves R (cached_request P key endpoint params ttl).
Proof.
  unfold cached_request.
  apply preserves_bind; [ exact _ | apply R_cache_get | intro data ].
  destruct (negb (truthy data)); [ | frame ].
  apply preserves_bind; [ exact _ | apply R_request | intro p ].
  apply preserves_bind; [ exact _ | | intro; frame ].
  destruct (truthy p) eqn:Hp; [ apply R_cache_set; exact Hp | frame ].
Qed.

Lemma entry_fetch_genres : preserves R (fetch_genres P).
Proof.
  apply op_fetch_genres;
    [ exact _ | apply entry_cached_request | exact R_genre ].
Qed.

Lemma entry_merge movie_data detailed :
  preserves R (_create_or_update_movie P movie_data detailed).
Proof.
  apply op_merge;
    [ exact _ | exact entry_fetch_genres | exact R_upsert | exact R_delete
    | exact R_link | exact R_log ].
Qed.

Lemma entry_world_after c w : R w (world_after P c w).
Proof.
  apply op_world_after;
    [ exact _ | exact entry_merge | exact entry_cached_request
    | exact entry_fetch_genres ].
Qed.
End EntryFootprint.

(** *** The writes of the Movie table *)

Lemma Movie_prepare_result P pk z d w :
  snd (Movie_prepare P pk z d w) = w
  /\ forall m, fst (Movie_prepare P pk z d w) = Ok m ->
               Movie.id m = pk /\ Movie.tmdb_id m = z.
Proof.
  split.
  - exact (preserves_Movie_prepare P (R := untouched) pk z d w).
  - unfold Movie_prepare, bind, lift, not_null, check_varchar, check_text,
      check_float, ret, raise.
    intros m.
    repeat match goal with
           | |- context [match ?x with _ => _ end] => destruct x
           end; simpl; intro H; inversion H; split; reflexivity.
Qed.

(** What an INSERT can do to the world: nothing, or one row more, with the
    next key and the given provider ID. *)
Lemma Movie_create_cases P k d w :
  (snd (Movie_create P k d w) = w
   /\ exists e, fst (Movie_create P k d w) = Raise e)
  \/ exists z m,
       k = Some z /\ Movie.id m = next_movie_id w /\ Movie.tmdb_id m = z
       /\ fst (Movie_create P k d w) = Ok m
       /\ snd (Movie_create P k d w)
          = set_movies w (movies w ++ [m]) (next_movie_id w + 1).
Proof.
  unfold Movie_create.
  destruct (Movie_prepare_result P (next_movie_id w)
              (match k with Some z => z | None => 0 end) d w) as [Hw Hm].
  unfold bind.
  destruct (Movie_prepare P (next_movie_id w)
              (match k with Some z => z | None => 0 end) d w) as [[m|e] w1].
  2:{ left. split; [ exact Hw | eexists; reflexivity ]. }
  simpl in Hw. subst w1. destruct (Hm m eq_refl) as [Hid Htm].
  destruct k as [z|]; [ | left; split; [ reflexivity | eexists; reflexivity ] ].
  unfold not_null, check_int, ret, raise.
  destruct (db_int_ok P z);
    [ | left; split; [ reflexivity | eexists; reflexivity ] ].
  right. exists z, m. repeat split; try assumption; reflexivity.
Qed.

(** What an UPDATE can do: nothing, or the rows with the key of [old]
    rewritten to a row with the same key and provider ID. *)
Lemma Movie_save_cases P old d w :
  (snd (Movie_save P old d w) = w
   /\ exists e, fst (Movie_save P old d w) = Raise e)
  \/ exists m,
       Movie.id m = Movie.id old /\ Movie.tmdb_id m = Movie.tmdb_id old
       /\ fst (Movie_save P old d w) = Ok m
       /\ snd (Movie_save P old d w)
          = set_movies w
              (map (fun r => if Movie.id r =? Movie.id old then m else r)
                 (movies w))
              (next_movie_id w).
Proof.
  unfold Movie_save.
  destruct (Movie_prepare_result P (Movie.id old) (Movie.tmdb_id old) d w)
    as [Hw Hm].
  unfold bind.
  destruct (Movie_prepare P (Movie.id old) (Movie.tmdb_id old) d w)
    as [[m|e] w1].
  2:{ left. split; [ exact Hw | eexists; reflexivity ]. }
  simpl in Hw. subst w1. destruct (Hm m eq_refl) as [Hid Htm].
  right. exists m. repeat split; try assumption; reflexivity.
Qed.

#[local] Instance movies_persist_Frame : Frame movies_persist.
Proof.
  split; unfold movies_persist.
  - intros w H. split; [exact H|]. exists []. rewrite app_nil_r. reflexivity.
  - intros a b c Hab Hbc Ha.
    destruct (Hab Ha) as (Hb & x & Hx). destruct (Hbc Hb) as (Hc & y & Hy).
    split; [exact Hc|]. exists (x ++ y). rewrite Hy, Hx, app_assoc. reflexivity.
Qed.

Lemma movies_kept_persist w w' : movies_kept w w' -> movies_persist w w'.
Proof.
  intros Hk Hok. split; [exact (store_ok_kept Hk Hok)|].
  destruct Hk as [Hm _]. rewrite Hm. exists []. rewrite app_nil_r. reflexivity.
Qed.

Lemma map_key_and_provider_id (l l' : list Movie.t) :
  map Movie.id l' = map Movie.id l ->
  map Movie.tmdb_id l' = map Movie.tmdb_id l ->
  map key_and_provider_id l' = map key_and_provider_id l.
Proof.
  revert l'. induction l as [|a l IH]; intros [|a' l'] H1 H2;
    simpl in *; try discriminate; [reflexivity|].
  inversion H1. inversion H2. unfold key_and_provider_id at 1 3.
  f_equal; [congruence | apply IH; assumption].
Qed.

Lemma Movie_update_or_create_persist P v d :
  preserves movies_persist (Movie_update_or_create P v d).
Proof.
  intros w Hok. pose proof Hok as (Hid & Htm & Hnext).
  cut (movies_persist w (snd (Movie_update_or_create P v d w)));
    [ intro H; exact (H Hok) | ].
  unfold Movie_update_or_create.
  destruct (int_prep P v) as [k|e];
    [ | exact (frame_refl (R := movies_persist) w) ].
  rewrite bind_lift_Ok.
  assert (Hcreate : forall k',
            movies_persist w (snd (Movie_create P k' d w))
            \/ exists z, k' = Some z /\ In z (map Movie.tmdb_id (movies w))).
  { intro k'. destruct (Movie_create_cases P k' d w)
      as [[Hsame _] | (z & m & Hk & Hmid & Hmtm & _ & Hnew)].
    - left. rewrite Hsame. apply (frame_refl (R := movies_persist)).
    - destruct (in_dec Z.eq_dec z (map Movie.tmdb_id (movies w))) as [Hin|Hnin].
      + right. exists z. split; assumption.
      + left. rewrite Hnew. intros _. split.
        * unfold store_ok. simpl. split; [|split].
          -- apply NoDup_map_snoc; [exact Hid|]. rewrite Hmid.
             intro Hin. apply in_map_iff in Hin. destruct Hin as (r & Hr & Hin).
             rewrite Forall_forall in Hnext. specialize (Hnext r Hin). lia.
          -- apply NoDup_map_snoc; [exact Htm|]. rewrite Hmtm. exact Hnin.
          -- apply Forall_app. split.
             ++ eapply Forall_impl; [|exact Hnext]. simpl. intros r Hr. lia.
             ++ constructor; [simpl; lia | constructor].
        * simpl. rewrite map_app. eexists. reflexivity. }
  destruct k as [z|].
  - destruct (filter_key_at_most_one Movie.tmdb_id (movies w) z Htm)
      as [Hnone | (old & Hone)]; unfold Movie_filter_tmdb_id.
    + rewrite Hnone.
      assert (Hs : snd ((m <- Movie_create P (Some z) d ;; ret (m, true)) w)
                   = snd (Movie_create P (Some z) d w)).
      { unfold bind, ret. destruct (Movie_create P (Some z) d w) as [[m|e] w1];
          reflexivity. }
      rewrite Hs. destruct (Hcreate (Some z)) as [H | (z' & Hz & Hin)].
      * exact H.
      * inversion Hz; subst z'. exfalso.
        exact (filter_key_nil_not_in Movie.tmdb_id (movies w) z Hnone Hin).
    + rewrite Hone.
      assert (Hs : snd ((m <- Movie_save P old d ;; ret (m, false)) w)
                   = snd (Movie_save P old d w)).
      { unfold bind, ret. destruct (Movie_save P old d w) as [[m|e] w1];
          reflexivity. }
      rewrite Hs.
      destruct (filter_singleton_in _ _ Hone) as [Hold _].
      destruct (Movie_save_cases P old d w)
        as [[Hsame _] | (m & Hmid & Hmtm & _ & Hnew)].
      * rewrite Hsame. apply (frame_refl (R := movies_persist)).
      * rewrite Hnew. intros _.
        pose proof (@replace_ids old m Hmid (movies w)) as Hids.
        pose proof (@replace_tmdb_ids old m Hmtm (movies w) Hid Hold) as Htms.
        split.
        -- unfold store_ok. simpl. rewrite Hids, Htms. split; [exact Hid|].
           split; [exact Htm|].
           apply Forall_map. eapply Forall_impl; [|exact Hnext]. simpl.
           intros r Hr.
           destruct (Z.eqb_spec (Movie.id r) (Movie.id old)) as [E|E]; simpl; lia.
        -- simpl. exists []. rewrite app_nil_r.
           apply map_key_and_provider_id; assumption.
  - assert (Hs : snd ((m <- Movie_create P None d ;; ret (m, true)) w)
                 = snd (Movie_create P None d w)).
    { unfold bind, ret. destruct (Movie_create P None d w) as [[m|e] w1];
        reflexivity. }
    cbv beta iota. rewrite Hs. destruct (Hcreate None) as [H | (z' & Hz & _)].
    + exact H.
    + discriminate Hz.
Qed.

(** *** No entry point renames or deletes a genre *)

(** X14.  Whatever is called, and whether it returns or raises, the rows of
    the Genre table stay as they are, in their order; rows are only added
    at the end. *)
Theorem entry_points_keep_genre_rows P c w :
  exists added, genres (world_after P c w) = genres w ++ added.
Proof.
  change (genres_grow w (world_after P c w)).
  apply entry_world_after; try exact _; intros.
  - by_frame preserves_cache_get.
  - by_frame preserves_make_request.
  - by_frame preserves_cache_set.
  - by_frame preserves_emit.
  - by_frame preserves_Genre_get_or_create.
  - by_frame preserves_Movie_update_or_create.
  - by_frame preserves_MovieGenre_delete.
  - by_frame preserves_MovieGenre_get_or_create.
Qed.

(** *** Stored movies stay, with their key and provider ID *)

(** X15.  On a Movie table that satisfies its uniqueness constraints, no
    entry point deletes a movie or changes the key or the provider ID of
    one, and the constraints hold afterwards. *)
Theorem entry_points_keep_movie_rows P c w :
  store_ok w ->
  store_ok (world_after P c w)
  /\ exists added,
       map key_and_provider_id (movies (world_after P c w))
       = map key_and_provider_id (movies w) ++ added.
Proof.
  change (movies_persist w (world_after P c w)).
  apply entry_world_after; try exact _; intros;
    try apply Movie_update_or_create_persist;
    (eapply preserves_weaken; [ exact movies_kept_persist | ]).
  - by_frame preserves_cache_get.
  - by_frame preserves_make_request.
  - by_frame preserves_cache_set.
  - by_frame preserves_emit.
  - by_frame preserves_Genre_get_or_create.
  - by_frame preserves_MovieGenre_delete.
  - by_frame preserves_MovieGenre_get_or_create.
Qed.

(** *** The uniqueness constraints of the tables *)

#[local] Instance keeps_Frame (I : World -> Prop) : Frame (keeps I).
Proof.
  split; unfold keeps.
  - intros w H. exact H.
  - intros a b c Hab Hbc Ha. exact (Hbc (Hab Ha)).
Qed.

Lemma genres_kept_keeps w w' :
  genres_kept w w' -> keeps genre_table_ok w w'.
Proof.
  intros [Hg Hn]. unfold keeps, genre_table_ok. rewrite Hg, Hn.
  exact (fun H => H).
Qed.

Lemma links_kept_keeps w w' :
  links_kept w w' -> keeps link_table_ok w w'.
Proof.
  intros [Hg Hn]. unfold keeps, link_table_ok. rewrite Hg, Hn.
  exact (fun H => H).
Qed.

(** What [get_or_create] can do to the Genre table: nothing, or one row
    more, with the next key and a provider ID that no row had. *)
Lemma Genre_get_or_create_cases P v nm w :
  snd (Genre_get_or_create P v nm w) = w
  \/ exists z g,
       int_prep P v = Ok (Some z)
       /\ Genre_filter_tmdb_id z w = []
       /\ Genre.id g = next_genre_id w /\ Genre.tmdb_id g = z
       /\ snd (Genre_get_or_create P v nm w)
          = set_genres w (genres w ++ [g]) (next_genre_id w + 1).
Proof.
  unfold Genre_get_or_create, Genre_get_tmdb_id.
  destruct (int_prep P v) as [k|e] eqn:Hk; [ | left; reflexivity ].
  unfold try_except, bind, lift, ret, raise.
  destruct k as [z|].
  - destruct (Genre_filter_tmdb_id z w) as [|g [|g' l]] eqn:Hf;
      [ | left; reflexivity | left; reflexivity ].
    unfold Genre_create, bind, not_null, check_int, check_varchar, ret, raise.
    destruct (char_prep P nm) as [s|]; [ | left; reflexivity ].
    destruct (db_int_ok P z); [ | left; reflexivity ].
    destruct (db_varchar_ok P 100 s); [ | left; reflexivity ].
    right. eexists z, _. repeat split; first [ reflexivity | assumption ].
  - left. reflexivity.
Qed.

Lemma Genre_get_or_create_keeps P v nm :
  preserves (keeps genre_table_ok) (Genre_get_or_create P v nm).
Proof.
  intros w.
  destruct (Genre_get_or_create_cases P v nm w)
    as [Hsame | (z & g & _ & Hf & Hgid & Hgtm & Hnew)].
  - rewrite Hsame. apply (frame_refl (R := keeps genre_table_ok)).
  - rewrite Hnew. intros (Hid & Htm & Hnext). unfold genre_table_ok. simpl.
    split; [|split].
    + apply NoDup_map_snoc; [exact Hid|]. rewrite Hgid.
      intro Hin. apply in_map_iff in Hin. destruct Hin as (r & Hr & Hin).
      rewrite Forall_forall in Hnext. specialize (Hnext r Hin). lia.
    + apply NoDup_map_snoc; [exact Htm|]. rewrite Hgtm.
      exact (filter_key_nil_not_in Genre.tmdb_id (genres w) z Hf).
    + apply Forall_app. split.
      * eapply Forall_impl; [|exact Hnext]. simpl. intros r Hr. lia.
      * constructor; [lia | constructor].
Qed.

(** Deleting rows keeps a key unique. *)
Lemma delete_keeps_unique {Row Key} (key : Row -> Key) (keep : Row -> bool)
    (rows : list Row) :
  NoDup (map key rows) -> NoDup (map key (filter keep rows)).
Proof.
  induction rows as [|row rows IH]; simpl; intro H; [constructor|].
  apply NoDup_cons_iff in H. destruct H as [Hnot Hnd].
  destruct (keep row); [ | exact (IH Hnd) ].
  simpl. constructor; [ | exact (IH Hnd) ].
  intro Hin. apply Hnot. apply in_map_iff in Hin.
  destruct Hin as (x & Hx & Hin). apply filter_In in Hin.
  rewrite <- Hx. apply in_map. exact (proj1 Hin).
Qed.

Lemma MovieGenre_delete_keeps movie :
  preserves (keeps link_table_ok) (MovieGenre_filter_movie_delete movie).
Proof.
  intros w (Hid & Hpair & Hnext). unfold link_table_ok. simpl.
  split; [|split].
  - apply delete_keeps_unique. exact Hid.
  - apply delete_keeps_unique. exact Hpair.
  - apply Forall_forall. intros l Hl. apply filter_In in Hl.
    rewrite Forall_forall in Hnext. exact (Hnext l (proj1 Hl)).
Qed.

Lemma MovieGenre_get_or_create_keeps movie genre :
  preserves (keeps link_table_ok) (MovieGenre_get_or_create movie genre).
Proof.
  intros w. unfold MovieGenre_get_or_create.
  destruct (filter
              (fun l => (MovieGenre.movie_id l =? Movie.id movie)
                        && (MovieGenre.genre_id l =? Genre.id genre))
              (movie_genres w)) as [|l [|l' ls]] eqn:Hf;
    [ | apply (frame_refl (R := keeps link_table_ok))
      | apply (frame_refl (R := keeps link_table_ok)) ].
  intros (Hid & Hpair & Hnext). unfold link_table_ok. simpl.
  split; [|split].
  - rewrite map_app. simpl. apply NoDup_app.
    + exact Hid.
    + constructor; [intros [] | constructor].
    + intros z Hz [E|[]]. subst z.
      apply in_map_iff in Hz. destruct Hz as (r & Hr & Hin).
      rewrite Forall_forall in Hnext. specialize (Hnext r Hin). lia.
  - rewrite map_app. simpl. apply NoDup_app.
    + exact Hpair.
    + constructor; [intros [] | constructor].
    + intros z Hz [E|[]]. subst z.
      apply in_map_iff in Hz. destruct Hz as (r & Hr & Hin).
      assert (Hr' : In r (filter
              (fun l => (MovieGenre.movie_id l =? Movie.id movie)
                        && (MovieGenre.genre_id l =? Genre.id genre))
              (movie_genres w))).
      { apply filter_In. split; [exact Hin|].
        unfold link_pair in Hr. simpl in Hr. inversion Hr.
        rewrite !Z.eqb_refl. reflexivity. }
      rewrite Hf in Hr'. exact Hr'.
  - apply Forall_app. split.
    + eapply Forall_impl; [|exact Hnext]. simpl. intros r Hr. lia.
    + constructor; [simpl; lia | constructor].
Qed.

(** X16.  The primary key and [unique=True] of [Genre.tmdb_id] are never
    at stake: from a Genre table that satisfies them, every entry point
    leaves one that does. *)
Theorem entry_points_keep_genre_constraints P c w :
  genre_table_ok w -> genre_table_ok (world_after P c w).
Proof.
  change (keeps genre_table_ok w (world_after P c w)).
  apply entry_world_after; try exact _; intros;
    try apply Genre_get_or_create_keeps;
    (eapply preserves_weaken; [ exact genres_kept_keeps | ]).
  - by_frame preserves_cache_get.
  - by_frame preserves_make_request.
  - by_frame preserves_cache_set.
  - by_frame preserves_emit.
  - by_frame preserves_Movie_update_or_create.
  - by_frame preserves_MovieGenre_delete.
  - by_frame preserves_MovieGenre_get_or_create.
Qed.

(** X17.  [unique_together = ('movie', 'genre')]: from a MovieGenre table
    in which no movie is linked to a genre twice, every entry point leaves
    one in which none is. *)
Theorem entry_points_keep_link_constraints P c w :
  link_table_ok w -> link_table_ok (world_after P c w).
Proof.
  change (keeps link_table_ok w (world_after P c w)).
  apply entry_world_after; try exact _; intros;
    try apply MovieGenre_delete_keeps;
    try apply MovieGenre_get_or_create_keeps;
    (eapply preserves_weaken; [ exact links_kept_keeps | ]).
  - by_frame preserves_cache_get.
  - by_frame preserves_make_request.
  - by_frame preserves_cache_set.
  - by_frame preserves_emit.
  - by_frame preserves_Genre_get_or_create.
  - by_frame preserves_Movie_update_or_create.
Qed.

(** *** Referential integrity *)

#[local] Instance tables_grow_Frame : Frame tables_grow.
Proof.
  split; unfold tables_grow.
  - intro w. split; [|split]; try reflexivity;
      exists []; rewrite app_nil_r; reflexivity.
  - intros a b c ((x & Hx) & (y & Hy) & Hl) ((x' & Hx') & (y' & Hy') & Hl').
    split; [|split].
    + exists (x ++ x'). rewrite Hx', Hx, app_assoc. reflexivity.
    + exists (y ++ y'). rewrite Hy', Hy, app_assoc. reflexivity.
    + congruence.
Qed.

#[local] Instance tables_grow_Ambient : AmbientFrame tables_grow.
Proof.
  intros w c n t. unfold tables_grow. simpl.
  split; [|split]; try reflexivity; exists []; rewrite app_nil_r; reflexivity.
Qed.

#[local] Instance tables_grow_GenreInsert : GenreInsertFrame tables_grow.
Proof.
  intros w g. unfold tables_grow. simpl.
  split; [|split]; try reflexivity.
  - exists []. rewrite app_nil_r. reflexivity.
  - exists [g]. reflexivity.
Qed.

Lemma tables_grow_keeps_refs w w' :
  tables_grow w w' -> keeps refs_ok w w'.
Proof.
  intros ((x & Hx) & (y & Hy) & Hl) Hrefs. unfold refs_ok in *.
  rewrite Hl, Hx, Hy. eapply Forall_impl; [|exact Hrefs]. simpl.
  intros l [Hm Hg]. split.
  - apply in_or_app. left. exact Hm.
  - rewrite map_app. apply in_or_app. left. exact Hg.
Qed.

Lemma tables_grow_keeps_refs_with movie w w' :
  tables_grow w w' -> keeps (refs_with movie) w w'.
Proof.
  intros Hg [Hrefs Hst]. split.
  - exact (tables_grow_keeps_refs _ _ Hg Hrefs).
  - destruct Hg as ((x & Hx) & _). unfold movie_stored. rewrite Hx.
    apply in_or_app. left. exact Hst.
Qed.

(** What [update_or_create] can do: raise and change nothing, insert a row
    for a provider ID that no row had, or rewrite the one row that had it. *)
Lemma Movie_update_or_create_cases P v d w :
  (snd (Movie_update_or_create P v d w) = w
   /\ exists e, fst (Movie_update_or_create P v d w) = Raise e)
  \/ (exists z m,
        int_prep P v = Ok (Some z) /\ Movie_filter_tmdb_id z w = []
        /\ Movie.id m = next_movie_id w /\ Movie.tmdb_id m = z
        /\ fst (Movie_update_or_create P v d w) = Ok (m, true)
        /\ snd (Movie_update_or_create P v d w)
           = set_movies w (movies w ++ [m]) (next_movie_id w + 1))
  \/ (exists z old m,
        int_prep P v = Ok (Some z) /\ Movie_filter_tmdb_id z w = [old]
        /\ Movie.id m = Movie.id old /\ Movie.tmdb_id m = Movie.tmdb_id old
        /\ fst (Movie_update_or_create P v d w) = Ok (m, false)
        /\ snd (Movie_update_or_create P v d w)
           = set_movies w
               (map (fun r => if Movie.id r =? Movie.id old then m else r)
                  (movies w))
               (next_movie_id w)).
Proof.
  unfold Movie_update_or_create.
  destruct (int_prep P v) as [k|e] eqn:Hprep;
    [ | left; split; [ reflexivity | eexists; reflexivity ] ].
  rewrite bind_lift_Ok.
  destruct k as [z|]; cbv beta iota.
  - destruct (Movie_filter_tmdb_id z w) as [|old [|x l]] eqn:Hf.
    + unfold bind, ret.
      destruct (Movie_create_cases P (Some z) d w)
        as [[Hs (e & He)] | (z' & m & Hk & Hid & Htm & Hfst & Hsnd)];
        destruct (Movie_create P (Some z) d w) as [[m0|e0] w0];
        simpl in *; try discriminate.
      * left. split; [ exact Hs | eexists; reflexivity ].
      * right. left. exists z, m. repeat split; congruence.
    + unfold bind, ret.
      destruct (Movie_save_cases P old d w)
        as [[Hs (e & He)] | (m & Hid & Htm & Hfst & Hsnd)];
        destruct (Movie_save P old d w) as [[m0|e0] w0];
        simpl in *; try discriminate.
      * left. split; [ exact Hs | eexists; reflexivity ].
      * right. right. exists z, old, m. repeat split; congruence.
    + left. split; [ reflexivity | eexists; reflexivity ].
  - unfold bind, ret.
    destruct (Movie_create_cases P None d w)
      as [[Hs (e & He)] | (z' & m & Hk & _)];
      destruct (Movie_create P None d w) as [[m0|e0] w0];
      simpl in *; try discriminate.
    left. split; [ exact Hs | eexists; reflexivity ].
Qed.

Lemma Movie_update_or_create_grows P v d :
  preserves tables_grow (Movie_update_or_create P v d).
Proof.
  intro w.
  destruct (Movie_update_or_create_cases P v d w)
    as [[Hs _] | [(z & m & _ & _ & _ & _ & _ & Hs)
                 | (z & old & m & _ & _ & Hid & _ & _ & Hs)]];
    rewrite Hs.
  - apply (frame_refl (R := tables_grow)).
  - unfold tables_grow. simpl. split; [|split]; try reflexivity.
    + rewrite map_app. eexists. reflexivity.
    + exists []. rewrite app_nil_r. reflexivity.
  - unfold tables_grow. simpl. split; [|split]; try reflexivity.
    + exists []. rewrite app_nil_r. exact (@replace_ids old m Hid (movies w)).
    + exists []. rewrite app_nil_r. reflexivity.
Qed.

(** The movie that [update_or_create] returns is in the table. *)
Lemma Movie_update_or_create_stored P v d w m b :
  fst (Movie_update_or_create P v d w) = Ok (m, b) ->
  movie_stored m (snd (Movie_update_or_create P v d w)).
Proof.
  intro H.
  destruct (Movie_update_or_create_cases P v d w)
    as [[_ (e & He)] | [(z & m' & _ & _ & _ & _ & Hfst & Hs)
                       | (z & old & m' & _ & Hf & Hid & _ & Hfst & Hs)]].
  - rewrite He in H. discriminate H.
  - rewrite Hfst in H. inversion H; subst m' b. rewrite Hs.
    unfold movie_stored. simpl. rewrite map_app. apply in_or_app.
    right. left. reflexivity.
  - rewrite Hfst in H. inversion H; subst m' b. rewrite Hs.
    unfold movie_stored. simpl.
    rewrite (@replace_ids old m Hid (movies w)). rewrite Hid.
    apply in_map. unfold Movie_filter_tmdb_id in Hf.
    exact (proj1 (filter_singleton_in _ _ Hf)).
Qed.

Lemma upsert_movie_stored P movie_data w movie :
  fst (upsert_movie P movie_data w) = Ok movie ->
  movie_stored movie (snd (upsert_movie P movie_data w)).
Proof.
  destruct (upsert_movie P movie_data w) as [r w'] eqn:Hup. simpl.
  intro H. subst r. unfold upsert_movie in Hup.
  do 9 (apply bind_Ok_inv in Hup; destruct Hup as (? & ? & _ & Hup)).
  apply bind_Ok_inv in Hup. destruct Hup as ([row created] & w1 & Huc & Hret).
  inversion Hret; subst movie w'.
  match type of Huc with
  | Movie_update_or_create _ ?v ?d ?w0 = _ =>
      pose proof (Movie_update_or_create_stored P v d w0 row created) as Hst
  end.
  rewrite Huc in Hst. exact (Hst eq_refl).
Qed.

Lemma MovieGenre_delete_keeps_refs movie movie' :
  preserves (keeps (refs_with movie')) (MovieGenre_filter_movie_delete movie).
Proof.
  intros w [Hrefs Hst]. split; [ | exact Hst ].
  unfold refs_ok in *. simpl. apply Forall_forall. intros l Hl.
  apply filter_In in Hl. rewrite Forall_forall in Hrefs.
  exact (Hrefs l (proj1 Hl)).
Qed.

Lemma link_one_keeps_refs P movie genre_id :
  preserves (keeps (refs_with movie)) (link_one P movie genre_id).
Proof.
  intros w [Hrefs Hst].
  unfold link_one, try_except, Genre_get_tmdb_id.
  destruct (int_prep P genre_id) as [[z|]|e];
    [ | split; assumption | destruct e; split; assumption ].
  rewrite bind_lift_Ok. unfold bind at 1.
  destruct (Genre_filter_tmdb_id z w) as [|g [|g' gs]] eqn:Hg;
    [ split; assumption | | split; assumption ].
  unfold bind, ret, MovieGenre_get_or_create.
  destruct (filter _ (movie_genres w)) as [|l [|l' ls]];
    [ | split; assumption | split; assumption ].
  split; [ | exact Hst ].
  unfold refs_ok in *. simpl. apply Forall_app. split; [ exact Hrefs | ].
  constructor; [ | constructor ]. simpl. split; [ exact Hst | ].
  apply in_map. unfold Genre_filter_tmdb_id in Hg.
  exact (proj1 (filter_singleton_in _ _ Hg)).
Qed.

Lemma replace_genres_keeps_refs P movie_data movie :
  preserves (keeps (refs_with movie)) (replace_genres P movie_data movie).
Proof.
  apply op_replace_genres; [ exact _ | | | ].
  - eapply preserves_weaken; [ exact (@tables_grow_keeps_refs_with movie) | ].
    by_frame preserves_fetch_genres.
  - apply MovieGenre_delete_keeps_refs.
  - intro genre_id. apply link_one_keeps_refs.
Qed.

Lemma merge_handler_keeps_refs movie_data :
  preserves (keeps refs_ok)
    (lift (py_get movie_data "id" JNull) ;;; logger_error ;;; ret (@None Movie.t)).
Proof.
  eapply preserves_weaken; [ exact tables_grow_keeps_refs | ].
  frame_with ltac:(by_frame preserves_emit).
Qed.

Lemma merge_keeps_refs P movie_data detailed :
  preserves (keeps refs_ok) (_create_or_update_movie P movie_data detailed).
Proof.
  intros w Hrefs. unfold _create_or_update_movie, try_except.
  pose proof (@op_upsert_movie P tables_grow _
                (Movie_update_or_create_grows P) movie_data w) as Hgrow.
  pose proof (@upsert_movie_stored P movie_data w) as Hstored.
  unfold bind at 1.
  destruct (upsert_movie P movie_data w) as [[movie|e] w1]; simpl in *.
  - assert (Hw1 : refs_with movie w1).
    { split; [ exact (tables_grow_keeps_refs _ _ Hgrow Hrefs)
             | exact (Hstored movie eq_refl) ]. }
    pose proof (replace_genres_keeps_refs P movie_data movie w1 Hw1) as Hw2.
    unfold bind, ret.
    destruct (replace_genres P movie_data movie w1) as [[[]|e] w2]; simpl in *.
    + exact (proj1 Hw2).
    + exact (merge_handler_keeps_refs movie_data w2 (proj1 Hw2)).
  - exact (merge_handler_keeps_refs movie_data w1
             (tables_grow_keeps_refs _ _ Hgrow Hrefs)).
Qed.

(** X18.  Referential integrity: when every link joins a stored movie to a
    stored genre, it is so after every entry point, whether it returns or
    raises. *)
Theorem entry_points_keep_references P c w :
  refs_ok w -> refs_ok (world_after P c w).
Proof.
  change (keeps refs_ok w (world_after P c w)).
  apply op_world_after; [ exact _ | | | ].
  - intros. apply merge_keeps_refs.
  - intros. eapply preserves_weaken; [ exact tables_grow_keeps_refs | ].
    apply entry_cached_request; [ exact _ | | | ]; intros.
    + by_frame preserves_cache_get.
    + by_frame preserves_make_request.
    + by_frame preserves_cache_set.
  - eapply preserves_weaken; [ exact tables_grow_keeps_refs | ].
    by_frame preserves_fetch_genres.
Qed.

(** *** The cache *)

#[local] Instance offline_Frame : Frame offline.
Proof.
  split; unfold offline.
  - intro w. split; reflexivity.
  - intros a b c [H1 H2] [H3 H4]. split; congruence.
Qed.

#[local] Instance offline_GenreInsert : GenreInsertFrame offline.
Proof. intros w g. split; reflexivity. Qed.

#[local] Instance offline_Link : LinkFrame offline.
Proof. intros w ls n. split; reflexivity. Qed.

#[local] Instance offline_Movie : MovieFrame offline.
Proof. intros w ms n. split; reflexivity. Qed.

#[local] Instance cache_suffices_Frame keys : Frame (cache_suffices keys).
Proof.
  split; unfold cache_suffices.
  - intros w _. apply (frame_refl (R := offline)).
  - intros a b c Hab Hbc Ha. pose proof (Hab Ha) as Hb.
    apply (frame_trans (R := offline) a b c Hb). apply Hbc.
    eapply Forall_impl; [ | exact Ha ]. simpl.
    intros key (p & Hp & Ht). exists p. destruct Hb as [Hb _].
    rewrite Hb. split; assumption.
Qed.

#[local] Instance cache_monotone_Frame : Frame cache_monotone.
Proof.
  split; unfold cache_monotone.
  - intros w key p H _. exact H.
  - intros a b c Hab Hbc key p H Ht. apply Hbc; [ | exact Ht ].
    apply Hab; assumption.
Qed.

#[local] Instance entry_kept_Frame key : Frame (entry_kept key).
Proof.
  split; unfold entry_kept.
  - reflexivity.
  - intros a b c H1 H2. congruence.
Qed.

Lemma offline_suffices keys w w' : offline w w' -> cache_suffices keys w w'.
Proof. intros H _. exact H. Qed.

Lemma offline_monotone w w' : offline w w' -> cache_monotone w w'.
Proof. intros [H _] key p Hp _. rewrite H. exact Hp. Qed.

Lemma offline_entry_kept key w w' : offline w w' -> entry_kept key w w'.
Proof. intros [H _]. unfold entry_kept. rewrite H. reflexivity. Qed.

Lemma offline_cache_get key : preserves offline (cache_get key).
Proof. intro w. split; reflexivity. Qed.

Lemma offline_log : preserves offline logger_error.
Proof. intro w. split; reflexivity. Qed.

(** No request writes the cache. *)
Lemma make_request_keeps_cache P endpoint params w :
  cache (snd (_make_request P endpoint params w)) = cache w.
Proof.
  unfold _make_request, try_except, bind, requests_get.
  destruct (provider w (requests_made w) _ _) as [| |s b]; try reflexivity.
  unfold raise_for_status.
  destruct ((400 <=? s) && (s <? 600)); [ reflexivity | ].
  unfold response_json.
  destruct b as [j|]; [ reflexivity | ].
  destruct (json_error_is_request_exception P); reflexivity.
Qed.

Lemma dict_lookup_cache_remove key key' c :
  key <> key' ->
  dict_lookup key (cache_remove key' c) = dict_lookup key c.
Proof.
  intro Hne. induction c as [|[k v] c IH]; simpl; [ reflexivity | ].
  destruct (String.eqb_spec k key') as [E|E]; simpl.
  - subst k. destruct (String.eqb_spec key' key) as [E'|E'];
      [ congruence | exact IH ].
  - destruct (k =? key)%string; [ reflexivity | exact IH ].
Qed.

Lemma cache_set_entry_kept key key' v ttl :
  key <> key' -> preserves (entry_kept key) (cache_set key' v ttl).
Proof.
  intros Hne w. unfold entry_kept. simpl.
  destruct (String.eqb_spec key' key) as [E|E]; [ congruence | ].
  apply dict_lookup_cache_remove. exact Hne.
Qed.

(** A hit: the cached payload is returned; no request, no cache write. *)
Lemma cached_request_hit P key endpoint params ttl w p :
  dict_lookup key (cache w) = Some p -> truthy p = true ->
  cached_request P key endpoint params ttl w
  = (Ok p, set_ambient w (cache w) (requests_made w) (CacheGet key :: trace w)).
Proof.
  intros Hp Ht. unfold cached_request.
  rewrite (bind_Ok _ _ _ (cache_get_hit _ _ Hp)). rewrite Ht. reflexivity.
Qed.

Lemma cached_request_suffices P keys key endpoint params ttl :
  In key keys ->
  preserves (cache_suffices keys) (cached_request P key endpoint params ttl).
Proof.
  intros Hin w Hkeys. rewrite Forall_forall in Hkeys.
  destruct (Hkeys key Hin) as (p & Hp & Ht).
  rewrite (cached_request_hit P key endpoint params ttl w p Hp Ht).
  split; reflexivity.
Qed.

Lemma cached_request_monotone P key endpoint params ttl :
  preserves cache_monotone (cached_request P key endpoint params ttl).
Proof.
  intros w key' p' Hp' Ht'. unfold cached_request, bind at 1, cache_get.
  set (w0 := set_ambient w (cache w) (requests_made w) (CacheGet key :: trace w)).
  destruct (negb (truthy (match dict_lookup key (cache w) with
                          | Some v => v | None => JNull end))) eqn:Hmiss;
    [ | exact Hp' ].
  unfold bind.
  pose proof (make_request_keeps_cache P endpoint params w0) as Hc.
  destruct (_make_request P endpoint params w0) as [[p|e] w1];
    simpl in Hc; [ | simpl; rewrite Hc; exact Hp' ].
  destruct (truthy p); simpl; [ | rewrite Hc; exact Hp' ].
  rewrite Hc. simpl.
  destruct (String.eqb_spec key key') as [E|E].
  - subst key'. rewrite Hp' in Hmiss. rewrite Ht' in Hmiss. discriminate Hmiss.
  - rewrite dict_lookup_cache_remove; [ exact Hp' | congruence ].
Qed.

Lemma cached_request_entry_kept P key key' endpoint params ttl :
  key <> key' ->
  preserves (entry_kept key) (cached_request P key' endpoint params ttl).
Proof.
  intro Hne. unfold cached_request.
  apply preserves_bind; [ exact _ | | intro data ].
  { eapply preserves_weaken; [ exact (offline_entry_kept key) | ].
    apply offline_cache_get. }
  destruct (negb (truthy data)); [ | frame ].
  apply preserves_bind; [ exact _ | | intro p ].
  { intro w. unfold entry_kept. rewrite make_request_keeps_cache. reflexivity. }
  apply preserves_bind; [ exact _ | | intro; frame ].
  destruct (truthy p); [ apply cache_set_entry_kept; exact Hne | frame ].
Qed.

(** The catalogue fetch and the merge preserve what offline steps and the
    cached request for the catalogue preserve. *)
Section OfflineFootprint.
Variable P : Platform.
Variable R : World -> World -> Prop.
Context `{!Frame R}.
Hypothesis R_offline : forall w w', offline w w' -> R w w'.
Hypothesis R_catalogue :
  preserves R (cached_request P "tmdb_genres" "genre/movie/list" None
                 (CACHE_TIMEOUT_GENRES P)).

Lemma offline_fetch_genres : preserves R (fetch_genres P).
Proof.
  apply op_fetch_genres; [ exact _ | exact R_catalogue | intros v nm ].
  eapply preserves_weaken; [ exact R_offline | ].
  by_frame preserves_Genre_get_or_create.
Qed.

Lemma offline_merge movie_data detailed :
  preserves R (_create_or_update_movie P movie_data detailed).
Proof.
  apply op_merge; [ exact _ | exact offline_fetch_genres | | | | ]; intros;
    (eapply preserves_weaken; [ exact R_offline | ]).
  - by_frame preserves_Movie_update_or_create.
  - by_frame preserves_MovieGenre_delete.
  - by_frame preserves_MovieGenre_get_or_create.
  - apply offline_log.
Qed.
End OfflineFootprint.

Lemma cache_key_not_catalogue op : cache_key op <> "tmdb_genres".
Proof. destruct op; simpl; intro H; discriminate H. Qed.

(** A miss answered by the provider: the payload is returned and cached. *)
Lemma cached_request_miss_ok P key endpoint params ttl w s p :
  dict_lookup key (cache w) = None ->
  next_answer w (Response s (Some p)) ->
  (400 <=? s) && (s <? 600) = false ->
  truthy p = true ->
  exists w1,
    cached_request P key endpoint params ttl w = (Ok p, w1)
    /\ dict_lookup key (cache w1) = Some p.
Proof.
  intros Hmiss Hn Hs Ht. unfold cached_request.
  rewrite (bind_Ok _ _ _ (cache_get_miss _ _ Hmiss)).
  change (negb (truthy JNull)) with true. cbv iota.
  set (w0 := set_ambient w (cache w) (requests_made w) (CacheGet key :: trace w)).
  assert (Hn0 : next_answer w0 (Response s (Some p))).
  { apply next_answer_after_cache_get. exact Hn. }
  destruct (@make_request_success P endpoint params w0 s p Hn0 Hs) as (w' & Hreq).
  rewrite (bind_Ok _ _ _ Hreq). rewrite Ht.
  eexists. split; [ reflexivity | ]. simpl.
  rewrite String.eqb_refl. reflexivity.
Qed.

(** A miss on which the request fails: nothing is returned, nothing is
    cached, one request was made. *)
Lemma cached_request_miss_failure P key endpoint params ttl w r :
  dict_lookup key (cache w) = None ->
  next_answer w r -> request_fails r = true ->
  exists t,
    cached_request P key endpoint params ttl w
    = (Ok JNull, set_ambient w (cache w) (S (requests_made w)) t).
Proof.
  intros Hmiss Hn Hf. unfold cached_request.
  rewrite (bind_Ok _ _ _ (cache_get_miss _ _ Hmiss)).
  change (negb (truthy JNull)) with true. cbv iota.
  set (w0 := set_ambient w (cache w) (requests_made w) (CacheGet key :: trace w)).
  assert (Hn0 : next_answer w0 r).
  { apply next_answer_after_cache_get. exact Hn. }
  destruct (@make_request_failure_world P endpoint params w0 r Hn0 Hf)
    as (t & Hreq).
  rewrite (bind_Ok _ _ _ Hreq). simpl. eexists. reflexivity.
Qed.

(** A list operation that gets to the cache is its cached request
    followed by the merge of the payload. *)
Lemma run_list_operation_unfold P op w :
  well_formed_operation op ->
  exists endpoint params ttl,
    run_list_operation P op w
    = (data <- cached_request P (cache_key op) endpoint params ttl ;;
       movies_of_payload P data) w.
Proof.
  intro Hwf. destruct op as [tw page | page | query page]; simpl.
  - do 3 eexists. unfold fetch_trending_movies. apply cached_request_then.
  - do 3 eexists. unfold fetch_popular_movies. apply cached_request_then.
  - do 3 eexists. unfold search_movies. simpl in Hwf.
    destruct (String.eqb_spec (strip query) "") as [E|E]; [ contradiction | ].
    apply cached_request_then.
Qed.

(** X19.  A cached payload is not refreshed: whatever is cached and truthy
    under a key is still cached under it, unchanged, after any entry
    point. *)
Theorem entry_points_keep_cached_payloads P c w key p :
  dict_lookup key (cache w) = Some p -> truthy p = true ->
  dict_lookup key (cache (world_after P c w)) = Some p.
Proof.
  revert key p. change (cache_monotone w (world_after P c w)).
  apply op_world_after; [ exact _ | | | ]; intros.
  - apply offline_merge;
      [ exact _ | exact offline_monotone | apply cached_request_monotone ].
  - apply cached_request_monotone.
  - apply offline_fetch_genres;
      [ exact _ | exact offline_monotone | apply cached_request_monotone ].
Qed.

(** X20.  A page that is cached is served from the cache: with the page of
    a list operation and the genre catalogue cached, the operation makes
    no request and writes nothing to the cache. *)
Theorem cached_page_needs_no_request P op w :
  cached (cache_key op) w -> cached "tmdb_genres" w ->
  cache (snd (run_list_operation P op w)) = cache w
  /\ requests_made (snd (run_list_operation P op w)) = requests_made w.
Proof.
  intros Hpage Hcat.
  assert (H : cache_suffices [cache_key op; "tmdb_genres"] w
                (snd (run_list_operation P op w))).
  { apply op_run_list_operation; [ exact _ | | ]; intros.
    - apply offline_merge; [ exact _ | apply offline_suffices | ].
      apply cached_request_suffices. right. left. reflexivity.
    - apply cached_request_suffices. left. reflexivity. }
  apply H. repeat constructor; assumption.
Qed.

(** X21.  The payload of the provider is cached before it is merged: after
    a miss that the provider answers with a truthy payload, the payload is
    cached under the key of the operation, whatever the merge of its
    records did, and also when the operation raises. *)
Theorem fetched_page_is_cached P op w s p :
  well_formed_operation op ->
  dict_lookup (cache_key op) (cache w) = None ->
  next_answer w (Response s (Some p)) ->
  (400 <=? s) && (s <? 600) = false ->
  truthy p = true ->
  dict_lookup (cache_key op) (cache (snd (run_list_operation P op w))) = Some p.
Proof.
  intros Hwf Hmiss Hn Hs Ht.
  destruct (run_list_operation_unfold P op w Hwf) as (endpoint & params & ttl & Hrun).
  rewrite Hrun.
  destruct (cached_request_miss_ok P (cache_key op) endpoint params ttl w s p
              Hmiss Hn Hs Ht) as (w1 & Hreq & Hp).
  rewrite (bind_Ok _ _ _ Hreq). rewrite <- Hp.
  apply (op_movies_of_payload P (entry_kept (cache_key op))).
  intros. apply offline_merge; [ exact _ | apply offline_entry_kept | ].
  apply cached_request_entry_kept. apply cache_key_not_catalogue.
Qed.

(** X22.  A failed request is not cached and not retried: after a miss on
    which the request fails, the cache is as it was and one request was
    made. *)
Theorem failed_request_is_not_cached P op w r :
  well_formed_operation op ->
  dict_lookup (cache_key op) (cache w) = None ->
  next_answer w r -> request_fails r = true ->
  cache (snd (run_list_operation P op w)) = cache w
  /\ requests_made (snd (run_list_operation P op w)) = S (requests_made w).
Proof.
  intros Hwf Hmiss Hn Hf.
  destruct (run_list_operation_unfold P op w Hwf) as (endpoint & params & ttl & Hrun).
  rewrite Hrun.
  destruct (cached_request_miss_failure P (cache_key op) endpoint params ttl w r
              Hmiss Hn Hf) as (t & Hreq).
  rewrite (bind_Ok _ _ _ Hreq). split; reflexivity.
Qed.

(** *** The catalogue fetch stores the catalogue *)

Lemma cached_request_genres_kept P key endpoint params ttl :
  preserves genres_kept (cached_request P key endpoint params ttl).
Proof.
  apply entry_cached_request; [ exact _ | | | ]; intros.
  - by_frame preserves_cache_get.
  - by_frame preserves_make_request.
  - by_frame preserves_cache_set.
Qed.

Lemma Genre_get_or_create_stores P z s w :
  genres_ok w -> db_int_ok P z = true -> db_varchar_ok P 100 s = true ->
  exists r w',
    Genre_get_or_create P (JInt z) (JStr s) w = (Ok r, w')
    /\ genres_ok w'
    /\ (exists added, genres w' = genres w ++ added)
    /\ In z (map Genre.tmdb_id (genres w')).
Proof.
  intros Hok Hz Hs. unfold Genre_get_or_create. simpl int_prep.
  rewrite bind_lift_Ok. unfold try_except, Genre_get_tmdb_id. simpl int_prep.
  rewrite bind_lift_Ok. unfold bind at 1. unfold Genre_filter_tmdb_id.
  destruct (filter_key_at_most_one Genre.tmdb_id (genres w) z Hok)
    as [Hnone | (g & Hone)].
  - rewrite Hnone. unfold Genre_create, not_null, char_prep, check_int,
      check_varchar.
    rewrite !bind_ret, Hz, bind_ret, Hs, bind_ret.
    unfold bind, ret. eexists. eexists. split; [reflexivity|].
    split; [|split].
    + unfold genres_ok. simpl.
      apply (NoDup_map_snoc Genre.tmdb_id (genres w)
               {| Genre.id := next_genre_id w; Genre.tmdb_id := z;
                  Genre.name := s |}).
      * exact Hok.
      * simpl. apply filter_key_nil_not_in. exact Hnone.
    + simpl. eexists. reflexivity.
    + simpl. rewrite map_app. apply in_or_app. right. left. reflexivity.
  - rewrite Hone. unfold ret. eexists. eexists. split; [reflexivity|].
    split; [ exact Hok | split ].
    + exists []. rewrite app_nil_r. reflexivity.
    + destruct (filter_singleton_in _ _ Hone) as [Hin Hk].
      apply Z.eqb_eq in Hk. rewrite <- Hk. apply in_map. exact Hin.
Qed.

Lemma catalogue_loop_stores P gs :
  Forall (catalogue_entry_ok P) gs ->
  forall w, genres_ok w ->
  exists w',
    for_each gs
      (fun genre_data =>
         tid <- lift (py_getitem genre_data "id") ;;
         nm <- lift (py_getitem genre_data "name") ;;
         Genre_get_or_create P tid nm ;;;
         ret tt) w = (Ok tt, w')
    /\ (exists added, genres w' = genres w ++ added)
    /\ forall e z,
         In (JObj e) gs -> dict_lookup "id" e = Some (JInt z) ->
         In z (map Genre.tmdb_id (genres w')).
Proof.
  induction 1 as [|v gs Hv _ IH]; intros w Hok; simpl.
  - exists w. split; [reflexivity|]. split.
    + exists []. rewrite app_nil_r. reflexivity.
    + intros e z [].
  - destruct Hv as (e & z & s & -> & Hid & Hname & Hz & Hs).
    rewrite (py_getitem_present _ _ Hid), bind_lift_Ok.
    rewrite (py_getitem_present _ _ Hname), bind_lift_Ok.
    destruct (Genre_get_or_create_stores P z s w Hok Hz Hs)
      as (r & w1 & Hrun & Hok1 & (a1 & Hg1) & Hin1).
    unfold bind at 1. unfold bind at 1. rewrite Hrun. unfold ret at 1.
    destruct (IH w1 Hok1) as (w2 & Hloop & (a2 & Hg2) & Hall).
    exists w2. split; [ exact Hloop | ]. split.
    + exists (a1 ++ a2). rewrite Hg2, Hg1, app_assoc. reflexivity.
    + intros e' z' [E | Hin] Hid'.
      * inversion E; subst e'. rewrite Hid in Hid'. inversion Hid'; subst z'.
        rewrite Hg2, map_app. apply in_or_app. left. exact Hin1.
      * exact (Hall e' z' Hin Hid').
Qed.

(** X23.  With one row per provider ID in the Genre table and a catalogue
    (cached, or answered by the provider) whose entries the backend
    accepts, the catalogue fetch returns all rows of the Genre table, and
    these include a genre for every provider ID of the catalogue. *)
Theorem fetch_genres_stores_catalogue P w c gs :
  genres_ok w ->
  catalogue_is w (JObj c) ->
  dict_lookup "genres" c = Some (JList gs) ->
  Forall (catalogue_entry_ok P) gs ->
  exists rows w',
    fetch_genres P w = (Ok rows, w')
    /\ Permutation rows (genres w')
    /\ forall e z,
         In (JObj e) gs -> dict_lookup "id" e = Some (JInt z) ->
         In z (map Genre.tmdb_id rows).
Proof.
  intros Hok Hcat Hgs Hall.
  assert (Ht : truthy (JObj c) = true)
    by (destruct c; [ discriminate Hgs | reflexivity ]).
  assert (Hreq : exists w1,
             cached_request P "tmdb_genres" "genre/movie/list" None
               (CACHE_TIMEOUT_GENRES P) w = (Ok (JObj c), w1)).
  { destruct Hcat as [Hhit | (Hmiss & s & Hn & Hs)].
    - eexists. apply cached_request_hit; assumption.
    - destruct (cached_request_miss_ok P "tmdb_genres" "genre/movie/list" None
                  (CACHE_TIMEOUT_GENRES P) w s (JObj c) Hmiss Hn Hs Ht)
        as (w1 & H1 & _).
      exists w1. exact H1. }
  destruct Hreq as (w1 & Hreq).
  pose proof (cached_request_genres_kept P "tmdb_genres" "genre/movie/list" None
                (CACHE_TIMEOUT_GENRES P) w) as Hkept.
  rewrite Hreq in Hkept. destruct Hkept as [Hg1 _]. simpl in Hg1.
  assert (Hok1 : genres_ok w1) by (unfold genres_ok; rewrite Hg1; exact Hok).
  rewrite fetch_genres_unfold, cached_request_then.
  rewrite (bind_Ok _ _ _ Hreq). unfold catalogue_tail.
  rewrite Ht. unfold py_contains. rewrite Hgs, bind_lift_Ok.
  rewrite (py_getitem_present _ _ Hgs), bind_lift_Ok.
  simpl py_iter. rewrite bind_lift_Ok.
  destruct (catalogue_loop_stores P gs Hall w1 Hok1) as (w2 & Hloop & _ & Hin).
  rewrite (bind_Ok _ _ _ Hloop). unfold Genre_all.
  eexists. eexists. split; [ reflexivity | ]. split.
  - apply Permutation_sym. apply order_by_perm.
  - intros e z He Hid.
    eapply Permutation_in;
      [ apply Permutation_map; apply order_by_perm | ].
    exact (Hin e z He Hid).
Qed.

(** *** The merge has no rollback *)

Lemma upsert_movie_raise_world P movie_data w e :
  fst (upsert_movie P movie_data w) = Raise e ->
  snd (upsert_movie P movie_data w) = w.
Proof.
  unfold upsert_movie.
  destruct (py_get movie_data "release_date" JNull) as [rd|e0];
    [ rewrite bind_lift_Ok | intros _; reflexivity ].
  assert (Hdate :
    (exists release_date,
       (if truthy rd
        then match rd with
             | JStr s => ret (strptime_ymd P s)
             | _ => raise TypeError
             end
        else ret None) = ret release_date)
    \/ (if truthy rd
        then match rd with
             | JStr s => ret (strptime_ymd P s)
             | _ => raise TypeError
             end
        else ret None) = raise TypeError).
  { destruct (truthy rd); [ | left; eexists; reflexivity ].
    destruct rd; try (right; reflexivity). left. eexists. reflexivity. }
  destruct Hdate as [(release_date & ->) | ->];
    [ rewrite bind_ret | intros _; reflexivity ].
  repeat match goal with
         | |- context [bind (lift ?r) _] =>
             destruct r; [ rewrite bind_lift_Ok | intros _; reflexivity ]
         end.
  unfold bind, ret.
  match goal with
  | |- context [Movie_update_or_create P ?v ?d w] =>
      destruct (Movie_update_or_create_cases P v d w)
        as [[Hs _] | [(z & m & _ & _ & _ & _ & Hfst & _)
                     | (z & old & m & _ & _ & _ & _ & Hfst & _)]];
      destruct (Movie_update_or_create P v d w) as [[mc|e1] w1]
  end; simpl in *; intro H; try discriminate; exact Hs.
Qed.

(** X24.  A record whose upsert raises (no [id], an [id] that is no
    integer, a title that does not fit the column, ...) is skipped without
    a trace in the store: the merge returns [None], logs one error, and
    leaves the tables, the cache and the request count as they were. *)
Theorem failed_upsert_changes_nothing P o detailed w e :
  fst (upsert_movie P (JObj o) w) = Raise e ->
  _create_or_update_movie P (JObj o) detailed w
  = (Ok None, set_ambient w (cache w) (requests_made w) (LogError :: trace w)).
Proof.
  intro H. pose proof (upsert_movie_raise_world P (JObj o) w e H) as Hw.
  unfold _create_or_update_movie, try_except. unfold bind at 1.
  destruct (upsert_movie P (JObj o) w) as [[movie|e'] w1]; simpl in *;
    [ discriminate H | ].
  subst w1. unfold py_get, bind, lift, logger_error, emit, ret.
  destruct (dict_lookup "id" o); reflexivity.
Qed.

(** X25.  The merge has no rollback: when the movie has been upserted and
    the genre step then raises, the merge returns [None] as for a record
    that was not stored, yet the Movie table holds the upserted row. *)
Theorem merge_has_no_rollback P movie_data detailed w movie w1 e w2 :
  upsert_movie P movie_data w = (Ok movie, w1) ->
  replace_genres P movie_data movie w1 = (Raise e, w2) ->
  fst (_create_or_update_movie P movie_data detailed w) = Ok None
  /\ movies (snd (_create_or_update_movie P movie_data detailed w)) = movies w1
  /\ movie_stored movie (snd (_create_or_update_movie P movie_data detailed w)).
Proof.
  intros Hup Hrep.
  assert (Hobj : exists o, movie_data = JObj o).
  { destruct movie_data; try discriminate Hup. eexists. reflexivity. }
  destruct Hobj as (o & ->).
  pose proof (upsert_movie_stored P (JObj o) w movie) as Hst.
  rewrite Hup in Hst. specialize (Hst eq_refl). simpl in Hst.
  pose proof (preserves_replace_genres P (R := movies_kept) (JObj o) movie w1)
    as Hkept.
  rewrite Hrep in Hkept. destruct Hkept as [Hm _]. simpl in Hm.
  assert (Hmerge :
    _create_or_update_movie P (JObj o) detailed w
    = (Ok None,
       set_ambient w2 (cache w2) (requests_made w2) (LogError :: trace w2))).
  { unfold _create_or_update_movie, try_except. unfold bind at 1. rewrite Hup.
    unfold bind at 1. rewrite Hrep.
    unfold py_get, bind, lift, logger_error, emit, ret.
    destruct (dict_lookup "id" o); reflexivity. }
  rewrite Hmerge. simpl. split; [ reflexivity | split; [ exact Hm | ] ].
  unfold movie_stored. simpl. rewrite Hm. exact Hst.
Qed.

(** *** The detail view imports a movie once *)




(** *** Concrete instances *)

Lemma entry_points_keep_movie_rows_witness :
  store_ok (linked_world Timeout)
  /\ store_ok
       (world_after demo_platform
          (Service_create_or_update_movie (JObj alien_record) false)
          (linked_world Timeout)).
Proof.
  assert (H : store_ok (linked_world Timeout)).
  { unfold store_ok. simpl. repeat constructor; simpl; intuition. }
  split; [ exact H | ].
  exact (proj1 (entry_points_keep_movie_rows demo_platform
                  (Service_create_or_update_movie (JObj alien_record) false)
                  (linked_world Timeout) H)).
Defined.

Lemma entry_points_keep_genre_constraints_witness :
  genre_table_ok (linked_world (Response 200 (Some scifi_catalog)))
  /\ List.length
       (genres (world_after demo_platform Service_fetch_genres
                  (linked_world (Response 200 (Some scifi_catalog)))))
     = 2%nat
  /\ genre_table_ok
       (world_after demo_platform Service_fetch_genres
          (linked_world (Response 200 (Some scifi_catalog)))).
Proof.
  assert (H : genre_table_ok (linked_world (Response 200 (Some scifi_catalog)))).
  { unfold genre_table_ok. simpl. repeat constructor; simpl; intuition. }
  split; [ exact H | ]. split; [ reflexivity | ].
  exact (entry_points_keep_genre_constraints demo_platform Service_fetch_genres
           (linked_world (Response 200 (Some scifi_catalog))) H).
Defined.

Lemma entry_points_keep_link_constraints_witness :
  link_table_ok (linked_world Timeout)
  /\ link_table_ok
       (world_after demo_platform
          (Service_create_or_update_movie (JObj tagged_record) false)
          (linked_world Timeout)).
Proof.
  assert (H : link_table_ok (linked_world Timeout)).
  { unfold link_table_ok. simpl. repeat constructor; simpl; intuition. }
  split; [ exact H | ].
  exact (entry_points_keep_link_constraints demo_platform
           (Service_create_or_update_movie (JObj tagged_record) false)
           (linked_world Timeout) H).
Defined.

Lemma entry_points_keep_references_witness :
  refs_ok (linked_world Timeout)
  /\ refs_ok
       (world_after demo_platform
          (Service_create_or_update_movie (JObj tagged_record) false)
          (linked_world Timeout)).
Proof.
  assert (H : refs_ok (linked_world Timeout)).
  { unfold refs_ok. simpl. repeat constructor. }
  split; [ exact H | ].
  exact (entry_points_keep_references demo_platform
           (Service_create_or_update_movie (JObj tagged_record) false)
           (linked_world Timeout) H).
Defined.

Lemma entry_points_keep_cached_payloads_witness :
  dict_lookup "popular_movies_1"
    (cache (world_after demo_platform (Service_list (Popular 1)) cached_world))
  = Some one_movie_payload.
Proof.
  apply (entry_points_keep_cached_payloads demo_platform
           (Service_list (Popular 1)) cached_world "popular_movies_1"
           one_movie_payload); reflexivity.
Defined.

Lemma cached_page_needs_no_request_witness :
  cache (snd (run_list_operation demo_platform (Popular 1) cached_world))
  = cache cached_world
  /\ requests_made (snd (run_list_operation demo_platform (Popular 1) cached_world))
     = requests_made cached_world.
Proof.
  apply (cached_page_needs_no_request demo_platform (Popular 1) cached_world).
  - exists one_movie_payload. split; reflexivity.
  - exists renamed_catalog. split; reflexivity.
Defined.

Lemma fetched_page_is_cached_witness :
  dict_lookup (cache_key (Popular 1))
    (cache (snd (run_list_operation demo_platform (Popular 1)
                   (fresh_world (Response 200 (Some one_movie_payload))))))
  = Some one_movie_payload.
Proof.
  apply (fetched_page_is_cached demo_platform (Popular 1)
           (fresh_world (Response 200 (Some one_movie_payload))) 200
           one_movie_payload).
  - exact I.
  - reflexivity.
  - intros url params. reflexivity.
  - reflexivity.
  - reflexivity.
Defined.

Lemma failed_request_is_not_cached_witness :
  cache (snd (run_list_operation demo_platform (Trending "week" 2)
                (fresh_world Timeout)))
  = cache (fresh_world Timeout)
  /\ requests_made (snd (run_list_operation demo_platform (Trending "week" 2)
                           (fresh_world Timeout)))
     = S (requests_made (fresh_world Timeout)).
Proof.
  apply (failed_request_is_not_cached demo_platform (Trending "week" 2)
           (fresh_world Timeout) Timeout).
  - exact I.
  - reflexivity.
  - intros url params. reflexivity.
  - reflexivity.
Defined.

Lemma fetch_genres_stores_catalogue_witness :
  exists rows w',
    fetch_genres demo_platform (fresh_world (Response 200 (Some renamed_catalog)))
    = (Ok rows, w')
    /\ Permutation rows (genres w')
    /\ forall e z,
         In (JObj e) [JObj [("id", JInt 28); ("name", JStr "Adventure")]] ->
         dict_lookup "id" e = Some (JInt z) ->
         In z (map Genre.tmdb_id rows).
Proof.
  apply (fetch_genres_stores_catalogue demo_platform
           (fresh_world (Response 200 (Some renamed_catalog)))
           [("genres", JList [JObj [("id", JInt 28); ("name", JStr "Adventure")]])]
           [JObj [("id", JInt 28); ("name", JStr "Adventure")]]).
  - constructor.
  - right. split; [ reflexivity | ]. exists 200. split; [ | reflexivity ].
    intros url params. reflexivity.
  - reflexivity.
  - constructor; [ | constructor ].
    exists [("id", JInt 28); ("name", JStr "Adventure")], 28, "Adventure".
    repeat split.
Defined.

Lemma failed_upsert_changes_nothing_witness :
  _create_or_update_movie demo_platform (JObj anonymous_record) false
    (linked_world Timeout)
  = (Ok None,
     set_ambient (linked_world Timeout) (cache (linked_world Timeout))
       (requests_made (linked_world Timeout))
       (LogError :: trace (linked_world Timeout))).
Proof.
  apply (failed_upsert_changes_nothing demo_platform anonymous_record false
           (linked_world Timeout) KeyError).
  reflexivity.
Defined.

Lemma merge_has_no_rollback_witness :
  fst (_create_or_update_movie demo_platform (JObj malformed_genres_record)
         false (action_world Timeout)) = Ok None
  /\ movie_stored stored_movie_1
       (snd (_create_or_update_movie demo_platform
               (JObj malformed_genres_record) false (action_world Timeout))).
Proof.
  edestruct (merge_has_no_rollback demo_platform (JObj malformed_genres_record)
               false (action_world Timeout) stored_movie_1) as (H1 & _ & H3).
  - reflexivity.
  - reflexivity.
  - split; [ exact H1 | exact H3 ].
Defined.

